(** * RulesService: a shallow embedding of src/services/RulesService.js

    The service evaluates a message against the moderation rules of a user
    and manages those rules in a relational store.  The embedding follows the
    JavaScript source function by function:

    - JSON data is the inductive type [value]; objects are finite maps;
    - an exception is an explicit [Throw] in the result type [outcome];
    - the methods that talk to the store are state transformers over [db],
      the contents of the tables they use, with a schedule of store faults;
    - what the source takes from its environment (the regular-expression
      engine, the URL parser, number printing and parsing, the uuid generator
      and the parameter conversion of the PostgreSQL driver) is the interface
      [Runtime]; every theorem holds for every implementation of it.

    Around the service, the development also embeds the transaction helper
    of src/services/DatabaseService.js, over a trace of what the pool is
    asked to do, and the route that creates a rule and the loops of the bulk
    routes of src/routes. *)

From Stdlib Require Import QArith.
From stdpp Require Import gmap strings list fin_maps pretty sorting.

#[local] Set Warnings "-register-all".
#[local] Open Scope string_scope.
#[local] Open Scope list_scope.

(** ** JavaScript values *)

(** A JavaScript number: a finite double is a rational, so comparisons on
    [Q] are exact. *)
Inductive number :=
  | NaN
  | NegInf
  | Fin (q : Q)
  | PosInf.

(** The values the service handles: request bodies and JSONB columns are
    JSON data, [VUndef] is what a missing property or parameter reads as.
    Strings are sequences of code units below 256. *)
Inductive value :=
  | VUndef
  | VNull
  | VBool (b : bool)
  | VNum (n : number)
  | VStr (s : string)
  | VArr (l : list value)
  | VObj (m : gmap string value).

Definition num_of_nat (n : nat) : number := Fin (inject_Z (Z.of_nat n)).
Definition VInt (z : Z) : value := VNum (Fin (inject_Z z)).

(** The errors the code throws or lets through. *)
Inductive error :=
  | TypeError
  | SyntaxError
  | StoreError
  | Error (message : string).

(** The result of running a piece of code: a value or a thrown error. *)
Inductive outcome (A : Type) :=
  | Return (a : A)
  | Throw (e : error).
Arguments Return {A} a.
Arguments Throw {A} e.

Definition bind {A B} (c : outcome A) (k : A -> outcome B) : outcome B :=
  match c with
  | Return a => k a
  | Throw e => Throw e
  end.

(** [try { body } catch (error) { handler }] *)
Definition try_catch {A} (body : outcome A) (handler : error -> outcome A)
  : outcome A :=
  match body with
  | Return a => Return a
  | Throw e => handler e
  end.

Declare Scope js_scope.
Delimit Scope js_scope with js.
Notation "x <- c ;; k" := (bind c (fun x => k))
  (at level 100, c at next level, right associativity) : js_scope.
Notation "c ;;; k" := (bind c (fun _ => k))
  (at level 100, right associativity) : js_scope.
#[local] Open Scope js_scope.

(** *** Truthiness, defaults and property reads *)

Definition number_is_zero (n : number) : bool :=
  match n with
  | Fin q => Qeq_bool q 0
  | _ => false
  end.

(** ToBoolean *)
Definition truthy (v : value) : bool :=
  match v with
  | VUndef | VNull => false
  | VBool b => b
  | VNum NaN => false
  | VNum n => negb (number_is_zero n)
  | VStr s => negb (String.eqb s "")
  | VArr _ | VObj _ => true
  end.

(** [a || b] *)
Definition js_or (a b : value) : value := if truthy a then a else b.

(** A default in a destructuring pattern or parameter list: used when the
    value is [undefined], and only then. *)
Definition default_to (d v : value) : value :=
  match v with
  | VUndef => d
  | _ => v
  end.

Definition nullish (v : value) : bool :=
  match v with
  | VUndef | VNull => true
  | _ => false
  end.

(** [v.k] for the property names this code reads (data fields and [length]):
    reading from [undefined] or [null] throws; an object gives its own
    property; an array or a string has [length] and none of the other names;
    numbers and booleans have none. *)
Definition get (v : value) (k : string) : outcome value :=
  match v with
  | VUndef | VNull => Throw TypeError
  | VObj m => Return (default VUndef (m !! k))
  | VArr l => Return (if String.eqb k "length" then VNum (num_of_nat (length l)) else VUndef)
  | VStr s => Return (if String.eqb k "length" then VNum (num_of_nat (String.length s)) else VUndef)
  | VBool _ | VNum _ => Return VUndef
  end.

(** [Array.isArray(v)] *)
Definition isArray (v : value) : bool :=
  match v with
  | VArr _ => true
  | _ => false
  end.

(** [v === 's'] for a string literal [s] *)
Definition is_string (s : string) (v : value) : bool :=
  match v with
  | VStr s' => String.eqb s' s
  | _ => false
  end.

(** The elements a [for (const x of v)] loop visits: those of an array, the
    characters of a string; nothing else here is iterable. *)
Definition iterate (v : value) : outcome (list value) :=
  match v with
  | VArr l => Return l
  | VStr s => Return (map (fun c => VStr (String c EmptyString)) (String.list_ascii_of_string s))
  | _ => Throw TypeError
  end.

(** *** JSON

    [JSON.parse(JSON.stringify(v))] for a value other than [undefined]: what
    a JSONB column gives back for the text [JSON.stringify] prints.  A number
    that is not finite prints as [null]; so does an [undefined] element of
    an array; an [undefined] member of an object is left out. *)
Fixpoint jsonify (v : value) : value :=
  match v with
  | VUndef => VNull
  | VNull => VNull
  | VBool b => VBool b
  | VNum (Fin q) => VNum (Fin q)
  | VNum _ => VNull
  | VStr s => VStr s
  | VArr l => VArr (map jsonify l)
  | VObj m =>
      VObj (omap (fun x => match x with
                           | VUndef => None
                           | _ => Some (jsonify x)
                           end) m)
  end.

(** *** Strings *)

Definition lower_char (c : Ascii.ascii) : Ascii.ascii :=
  let n := Ascii.N_of_ascii c in
  if ((65 <=? n) && (n <=? 90))%N then Ascii.ascii_of_N (n + 32)
  else if ((192 <=? n) && (n <=? 222) && negb (n =? 215))%N then Ascii.ascii_of_N (n + 32)
  else c.

(** [s.toLowerCase()] *)
Fixpoint toLowerCase (s : string) : string :=
  match s with
  | EmptyString => EmptyString
  | String c r => String (lower_char c) (toLowerCase r)
  end.

(** [v.toLowerCase()]: only a string has the method. *)
Definition call_toLowerCase (v : value) : outcome string :=
  match v with
  | VStr s => Return (toLowerCase s)
  | _ => Throw TypeError
  end.

(** The class [\s] of the regular-expression syntax, on code units below 256. *)
Definition is_space (c : Ascii.ascii) : bool :=
  let n := Ascii.N_of_ascii c in
  ((9 <=? n) && (n <=? 13) || (n =? 32) || (n =? 160))%N.

Fixpoint is_prefix (p s : string) : bool :=
  match p, s with
  | EmptyString, _ => true
  | String a p', String b s' => Ascii.eqb a b && is_prefix p' s'
  | String _ _, EmptyString => false
  end.

(** [s.includes(t)] *)
Fixpoint includes (s t : string) : bool :=
  is_prefix t s ||
  match s with
  | EmptyString => false
  | String _ s' => includes s' t
  end.

(** [parts.join(sep)] on strings *)
Fixpoint join (sep : string) (parts : list string) : string :=
  match parts with
  | [] => ""
  | [p] => p
  | p :: rest => p +:+ sep +:+ join sep rest
  end.

(** ** The runtime the service runs on *)

Class Runtime := {
  (** compiled regular expressions *)
  regexp : Type;
  (** [new RegExp(pattern, flags)]; [None] is the SyntaxError of a malformed
      pattern *)
  RegExp_new : string -> string -> option regexp;
  (** [s.match(r)]: the array of matches, [None] for [null] *)
  String_match : string -> regexp -> option (list string);
  (** [new URL(url).hostname]; [None] is the TypeError of an invalid URL *)
  URL_hostname : string -> option string;
  (** Number::toString *)
  number_to_string : number -> string;
  (** StringToNumber *)
  string_to_number : string -> number;
  (** the [n]-th identifier [uuidv4()] hands out *)
  uuidv4 : nat -> string;
  (** the text, integer and boolean a non-null query parameter is stored as
      in a column of that type, [None] when it is no such thing; a string is
      a text, an integer of four bytes an integer, a boolean a boolean *)
  pg_text : value -> option string;
  pg_integer : value -> option Z;
  pg_boolean : value -> option bool;
  pg_text_string : forall s, pg_text (VStr s) = Some s;
  pg_integer_int : forall z,
    (- 2 ^ 31 <= z < 2 ^ 31)%Z -> pg_integer (VInt z) = Some z;
  pg_boolean_bool : forall b, pg_boolean (VBool b) = Some b;
}.

(** ** Coercions and comparisons *)

Definition Qlt_bool (x y : Q) : bool := negb (Qle_bool y x).

(** [a < b] on numbers; [None] when an operand is NaN. *)
Definition number_lt (a b : number) : option bool :=
  match a, b with
  | NaN, _ | _, NaN => None
  | NegInf, NegInf => Some false
  | NegInf, _ => Some true
  | _, NegInf => Some false
  | PosInf, _ => Some false
  | Fin _, PosInf => Some true
  | Fin x, Fin y => Some (Qlt_bool x y)
  end.

Section Coercions.
Context `{Runtime}.

(** ToString.  An array prints its elements joined by commas, [null] and
    [undefined] elements as the empty string; a plain object prints as
    [[object Object]] unless a data property hides [toString], in which
    case the conversion throws. *)
Fixpoint to_string (v : value) : outcome string :=
  match v with
  | VUndef => Return "undefined"
  | VNull => Return "null"
  | VBool true => Return "true"
  | VBool false => Return "false"
  | VNum n => Return (number_to_string n)
  | VStr s => Return s
  | VArr l =>
      parts <- (fix elements (l : list value) : outcome (list string) :=
                  match l with
                  | [] => Return []
                  | x :: rest =>
                      s <- (if nullish x then Return "" else to_string x) ;;
                      ss <- elements rest ;;
                      Return (s :: ss)
                  end) l ;;
      Return (join "," parts)
  | VObj m =>
      match m !! "toString" with
      | Some _ => Throw TypeError
      | None => Return "[object Object]"
      end
  end.

(** [l.join(sep)] on an array of values *)
Fixpoint element_strings (l : list value) : outcome (list string) :=
  match l with
  | [] => Return []
  | x :: rest =>
      s <- (if nullish x then Return "" else to_string x) ;;
      ss <- element_strings rest ;;
      Return (s :: ss)
  end.

Definition array_join (sep : string) (l : list value) : outcome string :=
  parts <- element_strings l ;;
  Return (join sep parts).

(** ToPrimitive *)
Definition to_primitive (v : value) : outcome value :=
  match v with
  | VArr _ | VObj _ => s <- to_string v ;; Return (VStr s)
  | _ => Return v
  end.

(** ToNumber of a primitive *)
Definition to_number (v : value) : number :=
  match v with
  | VUndef => NaN
  | VNull => Fin 0
  | VBool true => Fin 1
  | VBool false => Fin 0
  | VNum n => n
  | VStr s => string_to_number s
  | VArr _ | VObj _ => NaN
  end.

(** The comparison [a < b]: two strings compare by code units, anything
    else as numbers; [None] when a number is NaN. *)
Definition less_than (a b : value) : outcome (option bool) :=
  pa <- to_primitive a ;;
  pb <- to_primitive b ;;
  match pa, pb with
  | VStr x, VStr y => Return (Some (String.ltb x y))
  | _, _ => Return (number_lt (to_number pa) (to_number pb))
  end.

(** [a > b] *)
Definition js_gt (a b : value) : outcome bool :=
  r <- less_than b a ;;
  Return (match r with Some true => true | _ => false end).

(** [a >= b] *)
Definition js_ge (a b : value) : outcome bool :=
  r <- less_than a b ;;
  Return (match r with Some false => true | _ => false end).

(** [s.match(pattern)] for a pattern that is not a regular expression
    object: the pattern is converted to a string and compiled without
    flags. *)
Definition String_match_pattern (s : string) (pattern : value)
  : outcome (option (list string)) :=
  source <- (match pattern with
             | VUndef => Return ""
             | _ => to_string pattern
             end) ;;
  match RegExp_new source "" with
  | None => Throw SyntaxError
  | Some r => Return (String_match s r)
  end.

(** [text.match(pattern)] where [text] is any value: only a string has the
    method. *)
Definition call_match (text pattern : value) : outcome (option (list string)) :=
  match text with
  | VStr s => String_match_pattern s pattern
  | _ => Throw TypeError
  end.
End Coercions.

(** ** Rows and results *)

(** A row of [privacy_rules]. *)
Record rule_row := {
  id : string;
  user_id : string;
  rule_type : string;
  rule_name : string;
  rule_description : option string;
  rule_config : value;
  priority : Z;
  is_active : bool;
  created_at : Z;
  updated_at : Z;
  created_by : option string;
  updated_by : option string;
}.

(** What evaluating one rule against one message gives. *)
Record evaluation := {
  action : value;
  reason : string;
  matched : bool;
}.

Definition allow (why : string) : evaluation :=
  {| action := VStr "allow"; reason := why; matched := false |}.

(** ** Evaluation of one rule *)

(** A loop whose body may [return]: the first element for which the body
    returns decides, an exception in the body ends the loop. *)
Fixpoint first_return {A B} (body : A -> outcome (option B)) (l : list A)
  : outcome (option B) :=
  match l with
  | [] => Return None
  | x :: rest =>
      r <- body x ;;
      match r with
      | Some b => Return (Some b)
      | None => first_return body rest
      end
  end.

(** [message.text || message.content || ''] *)
Definition message_text (message : value) : outcome value :=
  text <- get message "text" ;;
  if truthy text then Return text
  else content <- get message "content" ;; Return (js_or content (VStr "")).

(** The scheme [https?:\/\/] at the head of [s]: the rest of [s] after it. *)
Definition after_scheme (s : string) : option (string * string) :=
  if is_prefix "https://" s then Some ("https://", String.substring 8 (String.length s - 8) s)
  else if is_prefix "http://" s then Some ("http://", String.substring 7 (String.length s - 7) s)
  else None.

(** The longest prefix matching [[^\s]*]. *)
Fixpoint non_space_run (s : string) : string :=
  match s with
  | EmptyString => EmptyString
  | String c r => if is_space c then EmptyString else String c (non_space_run r)
  end.

(** A match of [/(https?:\/\/[^\s]+)/] that starts at the head of [s]. *)
Definition url_at (s : string) : option string :=
  match after_scheme s with
  | Some (scheme, rest) =>
      match non_space_run rest with
      | EmptyString => None
      | run => Some (scheme +:+ run)
      end
  | None => None
  end.

(** The matches of the global expression from left to right; after a match
    the search resumes behind it ([skip] counts the characters of the last
    match still ahead). *)
Fixpoint match_all_urls (s : string) (skip : nat) : list string :=
  match s with
  | EmptyString => []
  | String _ r =>
      match skip with
      | S k => match_all_urls r k
      | O =>
          match url_at s with
          | Some u => u :: match_all_urls r (String.length u - 1)
          | None => match_all_urls r 0
          end
      end
  end.

Section Evaluator.
Context `{Runtime}.

(** [new RegExp(source, flags)] *)
Definition new_RegExp (source flags : string) : outcome regexp :=
  match RegExp_new source flags with
  | Some r => Return r
  | None => Throw SyntaxError
  end.

(** [text.match(regex)] *)
Definition match_regexp (text : value) (regex : regexp)
  : outcome (option (list string)) :=
  match text with
  | VStr s => Return (String_match s regex)
  | _ => Throw TypeError
  end.

(** The loop of [evaluateKeywordFilter] over the keywords, with its two
    accumulators. *)
Fixpoint keyword_loop (text : value) (keywords : list value)
    (matchCount : nat) (matchedKeywords : list value)
  : outcome (nat * list value) :=
  match keywords with
  | [] => Return (matchCount, matchedKeywords)
  | keyword :: rest =>
      source <- call_toLowerCase keyword ;;
      regex <- new_RegExp source "gi" ;;
      matches <- match_regexp text regex ;;
      match matches with
      | Some found =>
          keyword_loop text rest (matchCount + length found) (matchedKeywords ++ [keyword])
      | None => keyword_loop text rest matchCount matchedKeywords
      end
  end.

Definition evaluateKeywordFilter (config message : value) : outcome evaluation :=
  keywords <- get config "keywords" ;;
  max_occurrences <- get config "max_occurrences" ;;
  let max_occurrences := default_to (VInt 1) max_occurrences in
  action <- get config "action" ;;
  let action := default_to (VStr "block") action in
  text <- message_text message ;;
  lowerText <- call_toLowerCase text ;;
  keywords <- iterate keywords ;;
  counted <- keyword_loop text keywords 0 [] ;;
  let '(matchCount, matchedKeywords) := counted in
  matched <- js_ge (VNum (num_of_nat matchCount)) max_occurrences ;;
  if matched : bool then
    listed <- array_join ", " matchedKeywords ;;
    Return {| action := action;
              reason := "Matched " +:+ number_to_string (num_of_nat matchCount)
                        +:+ " keywords: " +:+ listed;
              matched := true |}
  else
    Return {| action := VStr "allow"; reason := "No keyword matches"; matched := false |}.

(** [text.match(urlRegex) || []] *)
Definition extractUrls (text : value) : outcome (list string) :=
  match text with
  | VStr s => Return (match_all_urls s 0)
  | _ => Throw TypeError
  end.

Definition extractDomain (url : string) : string :=
  match URL_hostname url with
  | Some hostname => hostname
  | None => url
  end.

(** [list && list.length > 0] *)
Definition configured (list : value) : outcome bool :=
  if truthy list then
    len <- get list "length" ;;
    js_gt len (VInt 0)
  else Return false.

(** [domains.some(domain => urlDomain.includes(domain))] *)
Definition some_domain (domains : value) (urlDomain : string) : outcome bool :=
  match domains with
  | VArr l =>
      r <- first_return
             (fun domain =>
                d <- to_string domain ;;
                Return (if includes urlDomain d then Some tt else None)) l ;;
      Return (match r with Some _ => true | None => false end)
  | _ => Throw TypeError
  end.

(** The body of the loop of [evaluateUrlFilter] over the URLs. *)
Definition url_step (domains patterns action : value) (url : string)
  : outcome (option evaluation) :=
  has_domains <- configured domains ;;
  allowed <- (if has_domains : bool
              then some_domain domains (extractDomain url)
              else Return false) ;;
  if allowed : bool then
    Return (Some (allow ("Domain allowed: " +:+ extractDomain url)))
  else
    has_patterns <- configured patterns ;;
    if has_patterns : bool then
      patterns <- iterate patterns ;;
      first_return
        (fun pattern =>
           found <- String_match_pattern url pattern ;;
           match found with
           | Some _ =>
               shown <- to_string pattern ;;
               Return (Some {| action := action;
                               reason := "URL matched pattern: " +:+ shown;
                               matched := true |})
           | None => Return None
           end) patterns
    else Return None.

Definition evaluateUrlFilter (config message : value) : outcome evaluation :=
  domains <- get config "domains" ;;
  patterns <- get config "patterns" ;;
  action <- get config "action" ;;
  let action := default_to (VStr "block") action in
  text <- message_text message ;;
  urls <- extractUrls text ;;
  match urls with
  | [] => Return (allow "No URLs found")
  | _ =>
      decided <- first_return (url_step domains patterns action) urls ;;
      match decided with
      | Some result => Return result
      | None => Return (allow "No URL restrictions matched")
      end
  end.

(** The body of the loop of [evaluateContentFilter] over the filters. *)
Definition filter_step (action text filter : value) : outcome (option evaluation) :=
  type <- get filter "type" ;;
  by_regex <- (if is_string "regex" type then
                 pattern <- get filter "pattern" ;;
                 found <- call_match text pattern ;;
                 Return (match found with Some _ => true | None => false end)
               else Return false) ;;
  if by_regex : bool then
    name <- get filter "name" ;;
    shown <- to_string name ;;
    Return (Some {| action := action;
                    reason := "Content matched filter: " +:+ shown;
                    matched := true |})
  else
    type <- get filter "type" ;;
    too_long <- (if is_string "length" type then
                   len <- get text "length" ;;
                   max_length <- get filter "max_length" ;;
                   js_gt len max_length
                 else Return false) ;;
    if too_long : bool then
      len <- get text "length" ;;
      max_length <- get filter "max_length" ;;
      len <- to_string len ;;
      max_length <- to_string max_length ;;
      Return (Some {| action := action;
                      reason := "Content too long: " +:+ len +:+ " > " +:+ max_length;
                      matched := true |})
    else Return None.

Definition evaluateContentFilter (config message : value) : outcome evaluation :=
  filters <- get config "filters" ;;
  action <- get config "action" ;;
  let action := default_to (VStr "block") action in
  text <- message_text message ;;
  filters <- iterate filters ;;
  decided <- first_return (filter_step action text) filters ;;
  match decided with
  | Some result => Return result
  | None => Return (allow "No content filters matched")
  end.

Definition evaluateRule (rule : rule_row) (message : value) : outcome evaluation :=
  try_catch
    (let config := rule_config rule in
     if String.eqb (rule_type rule) "keyword_filter" then
       evaluateKeywordFilter config message
     else if String.eqb (rule_type rule) "url_filter" then
       evaluateUrlFilter config message
     else if String.eqb (rule_type rule) "content_filter" then
       evaluateContentFilter config message
     else
       Return {| action := VStr "allow"; reason := "Unknown rule type"; matched := false |})
    (fun error =>
       Return {| action := VStr "allow"; reason := "Evaluation error"; matched := false |}).
End Evaluator.

(** An object literal. *)
Definition obj (fields : list (string * value)) : value :=
  VObj (list_to_map fields).

(** ** Validation *)

Record validation := {
  isValid : bool;
  errors : list string;
}.

(** [if (cond) errors.push(message)] *)
Definition push_if (cond : bool) (message : string) (errors : list string)
  : list string :=
  if cond then errors ++ [message] else errors.

(** The [switch] of [validateRule] on the rule type. *)
Definition validate_specific (ruleConfig rule_type : value) (errors : list string)
  : outcome (list string) :=
  if is_string "keyword_filter" rule_type then
    rule_config <- get ruleConfig "rule_config" ;;
    keywords <- get rule_config "keywords" ;;
    Return (push_if (negb (truthy keywords) || negb (isArray keywords))
              "Keywords array is required for keyword_filter rule type" errors)
  else if is_string "url_filter" rule_type then
    rule_config <- get ruleConfig "rule_config" ;;
    domains <- get rule_config "domains" ;;
    patterns <- get rule_config "patterns" ;;
    Return (push_if (negb (truthy domains) && negb (truthy patterns))
              "Domains or patterns are required for url_filter rule type" errors)
  else if is_string "content_filter" rule_type then
    rule_config <- get ruleConfig "rule_config" ;;
    filters <- get rule_config "filters" ;;
    Return (push_if (negb (truthy filters) || negb (isArray filters))
              "Filters array is required for content_filter rule type" errors)
  else Return errors.

Definition validateRule (ruleConfig : value) : outcome validation :=
  try_catch
    (let errors := [] in
     rule_type <- get ruleConfig "rule_type" ;;
     let errors := push_if (negb (truthy rule_type)) "Rule type is required" errors in
     rule_name <- get ruleConfig "rule_name" ;;
     let errors := push_if (negb (truthy rule_name)) "Rule name is required" errors in
     rule_config <- get ruleConfig "rule_config" ;;
     let errors := push_if (negb (truthy rule_config)) "Rule configuration is required" errors in
     errors <- validate_specific ruleConfig rule_type errors ;;
     Return {| isValid := Nat.eqb (length errors) 0; errors := errors |})
    (fun error =>
       Return {| isValid := false; errors := ["Validation error occurred"] |}).

(** ** The store *)

(** A row of [rule_templates]. *)
Record template_row := {
  template_id : string;
  template_name : string;
  template_description : option string;
  template_category : string;
  template_config : value;
  is_public : bool;
}.

(** The [changes] snapshot of an audit entry. *)
Inductive change :=
  | rule_data (ruleData : value)
  | updates_made (updates : value)
  | deleted_rule (row : rule_row).

(** A row of [rule_audit_log]. *)
Record audit_row := {
  audit_rule_id : string;
  audit_action : string;
  audit_user_id : string;
  changes : change;
  ip_address : option string;
  user_agent : option string;
  audit_created_at : Z;
}.

(** The state the service works on: the three tables it reads and writes,
    the faults the store is going to have (one entry per query still to
    come, [true] for a query that fails), the number of identifiers
    [uuidv4()] has handed out, and the time [NOW()] reports.

    The store is the opaque collaborator of the service.  The statements
    below compute what the tables hold after a query that goes through, and
    reject what the schema visibly rejects (a NULL in a NOT NULL column, a
    taken primary key, a parameter that is no integer or boolean).  Every
    other way a query can fail (a lost connection, a text too long for its
    column, an address that is no INET) is a fault of the schedule. *)
Record db := {
  privacy_rules : list rule_row;
  rule_templates : list template_row;
  rule_audit_log : list audit_row;
  faults : list bool;
  issued : nat;
  now : Z;
}.

Definition with_rules (rows : list rule_row) (d : db) : db :=
  {| privacy_rules := rows; rule_templates := rule_templates d;
     rule_audit_log := rule_audit_log d; faults := faults d;
     issued := issued d; now := now d |}.

Definition with_audit (rows : list audit_row) (d : db) : db :=
  {| privacy_rules := privacy_rules d; rule_templates := rule_templates d;
     rule_audit_log := rows; faults := faults d;
     issued := issued d; now := now d |}.

Definition with_faults (schedule : list bool) (d : db) : db :=
  {| privacy_rules := privacy_rules d; rule_templates := rule_templates d;
     rule_audit_log := rule_audit_log d; faults := schedule;
     issued := issued d; now := now d |}.

Definition with_issued (n : nat) (d : db) : db :=
  {| privacy_rules := privacy_rules d; rule_templates := rule_templates d;
     rule_audit_log := rule_audit_log d; faults := faults d;
     issued := n; now := now d |}.

(** Code that runs against the store. *)
Definition store (A : Type) : Type := db -> outcome A * db.

Definition sreturn {A} (a : A) : store A := fun d => (Return a, d).
Definition sthrow {A} (e : error) : store A := fun d => (Throw e, d).

Definition sbind {A B} (c : store A) (k : A -> store B) : store B :=
  fun d =>
    match c d with
    | (Return a, d') => k a d'
    | (Throw e, d') => (Throw e, d')
    end.

(** Code that does not touch the store. *)
Definition pure {A} (c : outcome A) : store A := fun d => (c, d).

(** [try { body } catch (error) { handler }] around code that touches the
    store: what the body did before it threw stays done. *)
Definition stry_catch {A} (body : store A) (handler : error -> store A) : store A :=
  fun d =>
    match body d with
    | (Return a, d') => (Return a, d')
    | (Throw e, d') => handler e d'
    end.

Declare Scope store_scope.
Delimit Scope store_scope with store.
Notation "x <~ c ;; k" := (sbind c (fun x => k))
  (at level 100, c at next level, right associativity) : store_scope.

(** [await this.databaseService.query(...)]: the next entry of the fault
    schedule decides whether the query reaches the tables. *)
Definition query {A} (statement : db -> outcome A * db) : store A :=
  fun d =>
    match faults d with
    | true :: rest => (Throw StoreError, with_faults rest d)
    | false :: rest => statement (with_faults rest d)
    | [] => statement d
    end.

(** [ORDER BY priority DESC, created_at DESC] *)
Definition sorts_before (a b : rule_row) : bool :=
  ((priority b <? priority a)
   || ((priority a =? priority b) && (created_at b <? created_at a)))%Z.

Fixpoint insert_ordered (x : rule_row) (l : list rule_row) : list rule_row :=
  match l with
  | [] => [x]
  | y :: rest => if sorts_before y x then y :: insert_ordered x rest else x :: y :: rest
  end.

Definition order_by_priority (l : list rule_row) : list rule_row :=
  foldr insert_ordered [] l.

Definition owned_by (ruleId userId : string) (row : rule_row) : bool :=
  String.eqb (id row) ruleId && String.eqb (user_id row) userId.

(** [COALESCE(param, old)] *)
Definition coalesce {A} (param : option A) (old : A) : A :=
  match param with
  | Some new => new
  | None => old
  end.

Section Service.
Context `{Runtime}.

#[local] Open Scope store_scope.

(** A query parameter bound to a column: [undefined] and [null] are SQL
    NULL ([Some None]); anything else must convert to the column type. *)
Definition bind_param {A} (convert : value -> option A) (param : value)
  : option (option A) :=
  if nullish param then Some None
  else match convert param with
       | Some a => Some (Some a)
       | None => None
       end.

(** [uuidv4()] *)
Definition fresh_uuid : store string :=
  fun d => (Return (uuidv4 (issued d)), with_issued (S (issued d)) d).

(** [INSERT INTO privacy_rules (id, user_id, rule_type, rule_name,
    rule_description, rule_config, priority, created_by) VALUES (...)
    RETURNING *]: the row the statement returns is the one it stored, with
    the column defaults filled in.  The statement is rejected when a
    NOT NULL column gets no value or the identifier is already taken.  The
    parameter for [rule_config] is the text [JSON.stringify(rule_config)]:
    there is none for [undefined], which reaches the store as NULL, and
    otherwise the column holds, and the row returns, [jsonify rule_config]. *)
Definition insert_rule (ruleId userId : string)
    (rule_type rule_name rule_description rule_config priority : value)
  : db -> outcome rule_row * db :=
  fun d =>
    match bind_param pg_text rule_type, bind_param pg_text rule_name,
          bind_param pg_text rule_description, bind_param pg_integer priority with
    | Some (Some type), Some (Some name), Some description, Some (Some prio) =>
        if existsb (fun row => String.eqb (id row) ruleId) (privacy_rules d)
        then (Throw StoreError, d)
        else
          match rule_config with
          | VUndef => (Throw StoreError, d)
          | config =>
              let row := {| id := ruleId; user_id := userId;
                            rule_type := type; rule_name := name;
                            rule_description := description;
                            rule_config := jsonify config; priority := prio;
                            is_active := true;
                            created_at := now d; updated_at := now d;
                            created_by := Some userId; updated_by := None |} in
              (Return row, with_rules (privacy_rules d ++ [row]) d)
          end
    | _, _, _, _ => (Throw StoreError, d)
    end.

(** [SELECT * FROM privacy_rules WHERE user_id = $1 (AND rule_type = $2)
    (AND is_active = $3) ORDER BY priority DESC, created_at DESC]; a filter
    is [None] when the clause is left out. *)
Definition select_user_rules (userId : string)
    (type_filter is_active_filter : option value)
  : db -> outcome (list rule_row) * db :=
  fun d =>
    match from_option (bind_param pg_text) (Some None) type_filter,
          from_option (bind_param pg_boolean) (Some None) is_active_filter with
    | Some type, Some active =>
        let keep row :=
          String.eqb (user_id row) userId
          && match type_filter, type with
             | None, _ => true
             | Some _, Some t => String.eqb (rule_type row) t
             | Some _, None => false
             end
          && match is_active_filter, active with
             | None, _ => true
             | Some _, Some b => Bool.eqb (is_active row) b
             | Some _, None => false
             end in
        (Return (order_by_priority (List.filter keep (privacy_rules d))), d)
    | _, _ => (Throw StoreError, d)
    end.

(** [UPDATE privacy_rules SET rule_name = COALESCE($1, rule_name), ...,
    updated_at = NOW(), updated_by = $6 WHERE id = $7 AND user_id = $8
    RETURNING *].  [config'] is the value whose text
    [JSON.stringify(config')] is the parameter for [rule_config], [null]
    when there is no parameter. *)
Definition update_rule (name' description' config' priority' active' : value)
    (userId ruleId : string)
  : db -> outcome (list rule_row) * db :=
  fun d =>
    match bind_param pg_text name', bind_param pg_text description',
          bind_param pg_integer priority', bind_param pg_boolean active' with
    | Some name, Some description, Some prio, Some active =>
        let set row :=
          {| id := id row; user_id := user_id row; rule_type := rule_type row;
             rule_name := coalesce name (rule_name row);
             rule_description :=
               match description with
               | Some text => Some text
               | None => rule_description row
               end;
             rule_config := if nullish config' then rule_config row else jsonify config';
             priority := coalesce prio (priority row);
             is_active := coalesce active (is_active row);
             created_at := created_at row; updated_at := now d;
             created_by := created_by row; updated_by := Some userId |} in
        let hit := owned_by ruleId userId in
        (Return (map set (List.filter hit (privacy_rules d))),
         with_rules (map (fun row => if hit row then set row else row) (privacy_rules d)) d)
    | _, _, _, _ => (Throw StoreError, d)
    end.

(** [DELETE FROM privacy_rules WHERE id = $1 AND user_id = $2 RETURNING *] *)
Definition delete_rule (ruleId userId : string)
  : db -> outcome (list rule_row) * db :=
  fun d =>
    let hit := owned_by ruleId userId in
    (Return (List.filter hit (privacy_rules d)),
     with_rules (List.filter (fun row => negb (hit row)) (privacy_rules d)) d).

(** [SELECT * FROM rule_templates WHERE id = $1 AND is_public = true] *)
Definition select_public_template (templateId : string)
  : db -> outcome (list template_row) * db :=
  fun d =>
    (Return (List.filter
               (fun t => String.eqb (template_id t) templateId && is_public t)
               (rule_templates d)), d).

(** [INSERT INTO rule_audit_log (rule_id, action, user_id, changes,
    ip_address, user_agent) VALUES (...)] *)
Definition insert_audit (ruleId action userId : string) (changes : change)
    (ipAddress userAgent : option string)
  : db -> outcome unit * db :=
  fun d =>
    let row := {| audit_rule_id := ruleId; audit_action := action;
                  audit_user_id := userId; changes := changes;
                  ip_address := ipAddress; user_agent := userAgent;
                  audit_created_at := now d |} in
    (Return tt, with_audit (rule_audit_log d ++ [row]) d).

(** *** Audit logging *)

Definition logAudit (ruleId action userId : string) (changes : change)
    (ipAddress userAgent : option string) : store unit :=
  stry_catch
    (query (insert_audit ruleId action userId changes ipAddress userAgent))
    (fun error => sreturn tt).

(** *** Rule management *)

Definition createRule (ruleData : value) (userId : string)
    (ipAddress userAgent : option string) : store rule_row :=
  stry_catch
    (ruleId <~ fresh_uuid ;;
     rule_type <~ pure (get ruleData "rule_type") ;;
     rule_name <~ pure (get ruleData "rule_name") ;;
     rule_description <~ pure (get ruleData "rule_description") ;;
     rule_config <~ pure (get ruleData "rule_config") ;;
     priority <~ pure (get ruleData "priority") ;;
     row <~ query (insert_rule ruleId userId rule_type rule_name rule_description
                     rule_config (js_or priority (VInt 1))) ;;
     _ <~ logAudit ruleId "CREATE" userId (rule_data ruleData) ipAddress userAgent ;;
     sreturn row)
    (fun error => sthrow error).

Definition getUserRules (userId : string) (filters : value) : store (list rule_row) :=
  stry_catch
    (let filters := default_to (obj []) filters in
     by_type <~ pure (get filters "rule_type") ;;
     by_active <~ pure (get filters "is_active") ;;
     query (select_user_rules userId
              (if truthy by_type then Some by_type else None)
              (match by_active with VUndef => None | _ => Some by_active end)))
    (fun error => sthrow error).

Definition updateRule (ruleId : string) (updates : value) (userId : string)
    (ipAddress userAgent : option string) : store rule_row :=
  stry_catch
    (rule_name <~ pure (get updates "rule_name") ;;
     rule_description <~ pure (get updates "rule_description") ;;
     rule_config <~ pure (get updates "rule_config") ;;
     priority <~ pure (get updates "priority") ;;
     is_active <~ pure (get updates "is_active") ;;
     rows <~ query (update_rule rule_name rule_description
                      (if truthy rule_config then rule_config else VNull)
                      priority is_active userId ruleId) ;;
     match rows with
     | [] => sthrow (Error "Rule not found or access denied")
     | row :: _ =>
         _ <~ logAudit ruleId "UPDATE" userId (updates_made updates) ipAddress userAgent ;;
         sreturn row
     end)
    (fun error => sthrow error).

Definition deleteRule (ruleId userId : string)
    (ipAddress userAgent : option string) : store rule_row :=
  stry_catch
    (rows <~ query (delete_rule ruleId userId) ;;
     match rows with
     | [] => sthrow (Error "Rule not found or access denied")
     | row :: _ =>
         _ <~ logAudit ruleId "DELETE" userId (deleted_rule row) ipAddress userAgent ;;
         sreturn row
     end)
    (fun error => sthrow error).

(** *** Templates *)

(** The own enumerable properties an object spread [{...v}] copies. *)
Definition spread (v : value) : gmap string value :=
  match v with
  | VObj m => m
  | VArr l => list_to_map (imap (fun i x => (pretty i, x)) l)
  | VStr s =>
      list_to_map (imap (fun i c => (pretty i, VStr (String c EmptyString)))
                     (String.list_ascii_of_string s))
  | _ => ∅
  end.

Definition text_or_null (text : option string) : value :=
  match text with
  | Some s => VStr s
  | None => VNull
  end.

Definition createRuleFromTemplate (templateId userId : string)
    (customizations : value) : store rule_row :=
  stry_catch
    (let customizations := default_to (obj []) customizations in
     templates <~ query (select_public_template templateId) ;;
     match templates with
     | [] => sthrow (Error "Template not found")
     | template :: _ =>
         let ruleConfig :=
           VObj (spread customizations ∪ spread (template_config template)) in
         type <~ pure (get (template_config template) "rule_type") ;;
         name <~ pure (get customizations "rule_name") ;;
         description <~ pure (get customizations "rule_description") ;;
         prio <~ pure (get customizations "priority") ;;
         let ruleData :=
           obj [("rule_type", js_or type (VStr "custom"));
                ("rule_name", js_or name (VStr (template_name template)));
                ("rule_description",
                 js_or description (text_or_null (template_description template)));
                ("rule_config", ruleConfig);
                ("priority", js_or prio (VInt 1))] in
         createRule ruleData userId None None
     end)
    (fun error => sthrow error).

(** *** Rule execution *)

(** One entry of [rule_evaluations]. *)
Record rule_evaluation := {
  e_rule_id : string;
  e_rule_name : string;
  e_rule_type : string;
  e_action : value;
  e_reason : string;
  e_matched : bool;
  e_error : option error;
}.

(** The body of the loop of [evaluateRules]: the entry pushed for [rule]. *)
Definition evaluate_entry (message : value) (rule : rule_row) : rule_evaluation :=
  match evaluateRule rule message with
  | Return evaluation =>
      {| e_rule_id := id rule; e_rule_name := rule_name rule;
         e_rule_type := rule_type rule;
         e_action := action evaluation; e_reason := reason evaluation;
         e_matched := matched evaluation; e_error := None |}
  | Throw error =>
      {| e_rule_id := id rule; e_rule_name := rule_name rule;
         e_rule_type := rule_type rule;
         e_action := VStr "allow"; e_reason := "Rule evaluation failed";
         e_matched := false; e_error := Some error |}
  end.

(** The loop of [evaluateRules], pushing onto [results]. *)
Fixpoint evaluate_loop (message : value) (rules : list rule_row)
    (results : list rule_evaluation) : list rule_evaluation :=
  match rules with
  | [] => results
  | rule :: rest =>
      evaluate_loop message rest (results ++ [evaluate_entry message rule])
  end.

Record verdict := {
  final_action : string;
  rule_evaluations : list rule_evaluation;
  blocking_rules : list rule_evaluation;
}.

Definition blocks (r : rule_evaluation) : bool :=
  is_string "block" (e_action r) && e_matched r.

Definition evaluateRules (message : value) (userId : string) : store verdict :=
  stry_catch
    (rules <~ getUserRules userId (obj [("is_active", VBool true)]) ;;
     let results := evaluate_loop message rules [] in
     let blockingRules := List.filter blocks results in
     let finalAction := if (0 <? length blockingRules)%nat then "block" else "allow" in
     sreturn {| final_action := finalAction;
                rule_evaluations := results;
                blocking_rules := blockingRules |})
    (fun error => sthrow error).
End Service.

(** ** A small runtime

    An implementation of [Runtime] on which the service can be run inside
    Rocq.  Its regular expressions are sequences of characters that are no
    metacharacters, matched literally, and of classes [[x-y]] of one range;
    every other pattern is refused, as ECMAScript refuses an unbalanced
    parenthesis, and so is a class whose range is out of order.  Its URL
    parser reads [scheme://host] with an optional port and path.  Numbers
    print and parse in decimal when they are integers. *)
Module Small.

Definition metachar (c : Ascii.ascii) : bool :=
  existsb (Ascii.eqb c) (String.list_ascii_of_string "\^$.*+?()[]{}|").

(** One step of a pattern: a character, or a class of the characters from
    [lo] to [hi]. *)
Inductive atom :=
  | Char (c : Ascii.ascii)
  | Range (lo hi : Ascii.ascii).

(** The steps of a pattern; [None] for a pattern that is refused. *)
Fixpoint parse (chars : list Ascii.ascii) : option (list atom) :=
  match chars with
  | [] => Some []
  | c :: rest =>
      if Ascii.eqb c (Ascii.ascii_of_nat 91) then
        match rest with
        | lo :: dash :: hi :: close :: rest' =>
            if Ascii.eqb dash (Ascii.ascii_of_nat 45)
               && Ascii.eqb close (Ascii.ascii_of_nat 93)
               && negb (metachar lo) && negb (metachar hi)
               && (Ascii.N_of_ascii lo <=? Ascii.N_of_ascii hi)%N
            then option_map (cons (Range lo hi)) (parse rest')
            else None
        | _ => None
        end
      else if metachar c then None
      else option_map (cons (Char c)) (parse rest)
  end.

Record regexp := {
  source : string;
  global : bool;
  ignoreCase : bool;
}.

Definition has_flag (flag : Ascii.ascii) (flags : string) : bool :=
  existsb (Ascii.eqb flag) (String.list_ascii_of_string flags).

Definition RegExp_new (source flags : string) : option regexp :=
  match parse (String.list_ascii_of_string source) with
  | Some _ =>
      Some {| source := source;
              global := has_flag (Ascii.ascii_of_nat 103) flags;
              ignoreCase := has_flag (Ascii.ascii_of_nat 105) flags |}
  | None => None
  end.

Definition upper_char (c : Ascii.ascii) : Ascii.ascii :=
  let n := Ascii.N_of_ascii c in
  if ((97 <=? n) && (n <=? 122))%N then Ascii.ascii_of_N (n - 32) else c.

Definition same_char (ignore : bool) (a b : Ascii.ascii) : bool :=
  if ignore then Ascii.eqb (lower_char a) (lower_char b) else Ascii.eqb a b.

Definition within (lo hi c : Ascii.ascii) : bool :=
  ((Ascii.N_of_ascii lo <=? Ascii.N_of_ascii c)
   && (Ascii.N_of_ascii c <=? Ascii.N_of_ascii hi))%N.

(** A character takes a step. *)
Definition takes (ignore : bool) (a : atom) (b : Ascii.ascii) : bool :=
  match a with
  | Char c => same_char ignore c b
  | Range lo hi =>
      within lo hi b
      || (ignore && (within lo hi (lower_char b) || within lo hi (upper_char b)))
  end.

(** The text matched when [p] occurs at the head of [s]. *)
Fixpoint match_here (ignore : bool) (p : list atom) (s : string) : option string :=
  match p, s with
  | [], _ => Some EmptyString
  | a :: p', String b s' =>
      if takes ignore a b
      then option_map (String b) (match_here ignore p' s')
      else None
  | _ :: _, EmptyString => None
  end.

(** All matches from left to right, without overlap; the empty pattern
    matches once at each position. *)
Fixpoint match_all (ignore : bool) (p : list atom) (s : string) (skip : nat)
  : list string :=
  match s with
  | EmptyString =>
      match skip, match_here ignore p EmptyString with
      | O, Some m => [m]
      | _, _ => []
      end
  | String _ r =>
      match skip with
      | S k => match_all ignore p r k
      | O =>
          match match_here ignore p s with
          | Some m => m :: match_all ignore p r (String.length m - 1)
          | None => match_all ignore p r 0
          end
      end
  end.

Definition String_match (s : string) (r : regexp) : option (list string) :=
  match parse (String.list_ascii_of_string (source r)) with
  | Some steps =>
      match match_all (ignoreCase r) steps s 0 with
      | [] => None
      | m :: more => Some (if global r then m :: more else [m])
      end
  | None => None
  end.

Fixpoint take_until (stop : Ascii.ascii -> bool) (s : string) : string :=
  match s with
  | EmptyString => EmptyString
  | String c r => if stop c then EmptyString else String c (take_until stop r)
  end.

Definition URL_hostname (url : string) : option string :=
  match after_scheme url with
  | Some (_, rest) =>
      let host := take_until
                    (fun c => existsb (Ascii.eqb c) (String.list_ascii_of_string "/?#:"))
                    rest in
      if String.eqb host "" then None else Some (toLowerCase host)
  | None => None
  end.

Definition is_integer (q : Q) : bool := (Z.pos (Qden q) =? 1)%Z.

Definition number_to_string (n : number) : string :=
  match n with
  | NaN => "NaN"
  | NegInf => "-Infinity"
  | PosInf => "Infinity"
  | Fin q => pretty (Qnum q / Z.pos (Qden q))%Z
  end.

Definition digit (c : Ascii.ascii) : option Z :=
  let n := Ascii.N_of_ascii c in
  if ((48 <=? n) && (n <=? 57))%N then Some (Z.of_N (n - 48)) else None.

Fixpoint digits (s : string) (acc : Z) : option Z :=
  match s with
  | EmptyString => Some acc
  | String c r =>
      match digit c with
      | Some d => digits r (10 * acc + d)
      | None => None
      end
  end.

Definition string_to_number (s : string) : number :=
  match digits s 0 with
  | Some z => Fin (inject_Z z)
  | None => NaN
  end.

Definition uuidv4 (n : nat) : string := "rule-" +:+ pretty n.

Definition pg_text (v : value) : option string :=
  match v with
  | VStr s => Some s
  | VNum n => Some (number_to_string n)
  | VBool true => Some "true"
  | VBool false => Some "false"
  | _ => None
  end.

Definition pg_integer (v : value) : option Z :=
  match v with
  | VNum (Fin q) =>
      if (is_integer q && (- 2 ^ 31 <=? Qnum q) && (Qnum q <? 2 ^ 31))%Z
      then Some (Qnum q) else None
  | _ => None
  end.

Definition pg_boolean (v : value) : option bool :=
  match v with
  | VBool b => Some b
  | _ => None
  end.

#[export] Instance runtime : Runtime.
Proof.
  refine (Build_Runtime regexp RegExp_new String_match URL_hostname
            number_to_string string_to_number uuidv4 pg_text pg_integer pg_boolean
            (fun s => eq_refl) _ (fun b => eq_refl)).
  intros z [Hlo Hhi]. unfold pg_integer, VInt, is_integer. cbn [Qnum Qden inject_Z].
  apply Z.leb_le in Hlo. apply Z.ltb_lt in Hhi.
  rewrite Hlo, Hhi. reflexivity.
Defined.

End Small.

(** ** Typed configurations and the behaviour the specification words

    The configurations the specification describes, with their encoding as
    JSON objects, and the results it describes for them, written after its
    sentences; the theorems below compare them with the code. *)

Definition unknown_type : evaluation :=
  {| action := VStr "allow"; reason := "Unknown rule type"; matched := false |}.

Definition evaluation_error : evaluation :=
  {| action := VStr "allow"; reason := "Evaluation error"; matched := false |}.

(** A property that is there when it has a value. *)
Definition optional (key : string) (field : option value) : list (string * value) :=
  match field with
  | Some v => [(key, v)]
  | None => []
  end.

(** [{keywords, max_occurrences = 1, action = 'block'}] *)
Record keyword_filter_config := {
  keywords : list string;
  max_occurrences : option Q;
  keyword_action : option string;
}.

Definition keyword_filter_object (c : keyword_filter_config) : value :=
  obj (("keywords", VArr (map VStr (keywords c)))
       :: optional "max_occurrences" (VNum ∘ Fin <$> max_occurrences c)
       ++ optional "action" (VStr <$> keyword_action c)).

(** [{domains?, patterns?, action = 'block'}] *)
Record url_filter_config := {
  domains : option (list string);
  patterns : option (list string);
  url_action : option string;
}.

Definition url_filter_object (c : url_filter_config) : value :=
  obj (optional "domains" (VArr ∘ map VStr <$> domains c)
       ++ optional "patterns" (VArr ∘ map VStr <$> patterns c)
       ++ optional "action" (VStr <$> url_action c)).

Section Claims.
Context `{Runtime}.

(** [new RegExp(source, flags)] does not throw. *)
Definition compiles (flags : string) (source : string) : Prop :=
  is_Some (RegExp_new source flags).

(** The matches of a keyword in a text: those of the case-insensitive
    global expression built from the lower-cased keyword. *)
Definition keyword_matches (text keyword : string) : option (list string) :=
  match RegExp_new (toLowerCase keyword) "gi" with
  | Some r => String_match text r
  | None => None
  end.

Definition occurrences (text keyword : string) : nat :=
  match keyword_matches text keyword with
  | Some found => length found
  | None => 0
  end.

Definition occurs (text keyword : string) : bool :=
  match keyword_matches text keyword with
  | Some _ => true
  | None => false
  end.

(** The keyword filter as the specification words it: count each keyword,
    sum the counts, compare the sum with [max_occurrences]; the reason of a
    match names the sum and the keywords that have a match, with ", "
    between them. *)
Definition keyword_filter_claim (c : keyword_filter_config) (text : string)
  : evaluation :=
  let total := foldr Nat.add 0 (map (occurrences text) (keywords c)) in
  let matched := Qle_bool (default 1%Q (max_occurrences c)) (inject_Z (Z.of_nat total)) in
  {| action := if matched then VStr (default "block" (keyword_action c))
               else VStr "allow";
     reason := if matched
               then "Matched " +:+ number_to_string (num_of_nat total)
                    +:+ " keywords: "
                    +:+ String.concat ", " (List.filter (occurs text) (keywords c))
               else "No keyword matches";
     matched := matched |}.

(** A pattern matches a URL when the expression built from it, without
    flags, finds a match. *)
Definition pattern_matches (url pattern : string) : bool :=
  match RegExp_new pattern "" with
  | Some r => match String_match url r with Some _ => true | None => false end
  | None => false
  end.

(** A text occurs in another: something before it, the text itself,
    something after it. *)
Definition occurs_in (t s : string) : Prop :=
  exists pre post, s = pre +:+ t +:+ post.

(** What the list of domains is held against: the host of the URL when the
    URL parses, the URL itself when it does not. *)
Definition judged_by (url : string) : string :=
  match URL_hostname url with
  | Some host => host
  | None => url
  end.

(** What the patterns say about a URL.  They are tried in order: a pattern
    that does not compile is a SyntaxError, a pattern with a match is the
    answer, a pattern without a match passes to the next. *)
Inductive first_pattern (url : string)
  : list string -> outcome (option string) -> Prop :=
  | no_pattern :
      first_pattern url [] (Return None)
  | pattern_broken pattern rest :
      RegExp_new pattern "" = None ->
      first_pattern url (pattern :: rest) (Throw SyntaxError)
  | pattern_found pattern rest r found :
      RegExp_new pattern "" = Some r ->
      String_match url r = Some found ->
      first_pattern url (pattern :: rest) (Return (Some pattern))
  | pattern_passed pattern rest r said :
      RegExp_new pattern "" = Some r ->
      String_match url r = None ->
      first_pattern url rest said ->
      first_pattern url (pattern :: rest) said.

(** The URL filter, one URL at a time: a listed domain that occurs in what
    the URL is judged by allows at once; otherwise the patterns are tried,
    where a pattern that does not compile ends the scan with its error and
    the first pattern with a match gives the configured action; otherwise
    the next URL is looked at.  [allow], not matched, when no URL is left. *)
Inductive url_scan_claim (c : url_filter_config)
  : list string -> outcome evaluation -> Prop :=
  | scan_end :
      url_scan_claim c []
        (Return {| action := VStr "allow";
                   reason := "No URL restrictions matched";
                   matched := false |})
  | scan_allowed url rest domain :
      domain ∈ default [] (domains c) ->
      occurs_in domain (judged_by url) ->
      url_scan_claim c (url :: rest)
        (Return {| action := VStr "allow";
                   reason := "Domain allowed: " +:+ judged_by url;
                   matched := false |})
  | scan_broken url rest e :
      Forall (fun domain => ~ occurs_in domain (judged_by url))
        (default [] (domains c)) ->
      first_pattern url (default [] (patterns c)) (Throw e) ->
      url_scan_claim c (url :: rest) (Throw e)
  | scan_matched url rest pattern :
      Forall (fun domain => ~ occurs_in domain (judged_by url))
        (default [] (domains c)) ->
      first_pattern url (default [] (patterns c)) (Return (Some pattern)) ->
      url_scan_claim c (url :: rest)
        (Return {| action := VStr (default "block" (url_action c));
                   reason := "URL matched pattern: " +:+ pattern;
                   matched := true |})
  | scan_next url rest result :
      Forall (fun domain => ~ occurs_in domain (judged_by url))
        (default [] (domains c)) ->
      first_pattern url (default [] (patterns c)) (Return None) ->
      url_scan_claim c rest result ->
      url_scan_claim c (url :: rest) result.

Definition url_filter_claim (c : url_filter_config) (urls : list string)
    (result : outcome evaluation) : Prop :=
  match urls with
  | [] => result = Return {| action := VStr "allow";
                             reason := "No URLs found";
                             matched := false |}
  | _ => url_scan_claim c urls result
  end.
End Claims.

(** ** Notions the statements use *)

Definition validation_error : validation :=
  {| isValid := false; errors := ["Validation error occurred"] |}.

(** An error message mentions a word when it contains it, whatever the case. *)
Definition mentions (word message : string) : bool :=
  includes (toLowerCase message) word.

(** The state a query finds when the fault schedule lets it through. *)
Definition after_query (d : db) : db := with_faults (tail (faults d)) d.

(** The next query is not scheduled to fail. *)
Definition next_query_succeeds (d : db) : Prop := hd false (faults d) = false.

(** The active rules of an owner, in the order the store lists them. *)
Definition active_rules (userId : string) (d : db) : list rule_row :=
  order_by_priority
    (List.filter (fun row => String.eqb (user_id row) userId && is_active row)
       (privacy_rules d)).

(** The entry of the report for a rule and the result of its evaluation. *)
Definition report_entry (rule : rule_row) (ev : evaluation) : rule_evaluation :=
  {| e_rule_id := id rule; e_rule_name := rule_name rule;
     e_rule_type := rule_type rule;
     e_action := action ev; e_reason := reason ev; e_matched := matched ev;
     e_error := None |}.

(** The fields an update may carry. *)
Record rule_update := {
  new_rule_name : option string;
  new_rule_description : option string;
  new_rule_config : option (gmap string value);
  new_priority : option Z;
  new_is_active : option bool;
}.

Definition update_object (u : rule_update) : value :=
  obj (optional "rule_name" (VStr <$> new_rule_name u)
       ++ optional "rule_description" (VStr <$> new_rule_description u)
       ++ optional "rule_config" (VObj <$> new_rule_config u)
       ++ optional "priority" (VInt <$> new_priority u)
       ++ optional "is_active" (VBool <$> new_is_active u)).

(** The row an update leaves, as the specification words it: a field the
    update carries takes the new value, every other field keeps its own, and
    [updated_at] and [updated_by] are refreshed. *)
Definition updated_claim (u : rule_update) (userId : string) (time : Z) (row : rule_row)
  : rule_row :=
  {| id := id row; user_id := user_id row; rule_type := rule_type row;
     rule_name := default (rule_name row) (new_rule_name u);
     rule_description :=
       match new_rule_description u with
       | Some text => Some text
       | None => rule_description row
       end;
     rule_config := default (rule_config row) (VObj <$> new_rule_config u);
     priority := default (priority row) (new_priority u);
     is_active := default (is_active row) (new_is_active u);
     created_at := created_at row; updated_at := time;
     created_by := created_by row; updated_by := Some userId |}.

(** JSON data: what the text of a JSON document with finite numbers stands
    for.  Nothing in it is [undefined], and no number is [NaN] or infinite. *)
Inductive json_data : value -> Prop :=
  | json_null : json_data VNull
  | json_bool (b : bool) : json_data (VBool b)
  | json_number (q : Q) : json_data (VNum (Fin q))
  | json_string (s : string) : json_data (VStr s)
  | json_array (l : list value) : Forall json_data l -> json_data (VArr l)
  | json_object (m : gmap string value) :
      (forall (k : string) (x : value), m !! k = Some x -> json_data x) ->
      json_data (VObj m).

(** The configuration an update carries is JSON data. *)
Definition carries_json (u : rule_update) : Prop :=
  forall c, new_rule_config u = Some c -> json_data (VObj c).

(** The members of an object as the store gives them back, and an update
    with its configuration as the store gives it back. *)
Definition stored_members (m : gmap string value) : gmap string value :=
  omap (fun x => match x with
                 | VUndef => None
                 | _ => Some (jsonify x)
                 end) m.

Definition as_stored (u : rule_update) : rule_update :=
  {| new_rule_name := new_rule_name u;
     new_rule_description := new_rule_description u;
     new_rule_config := stored_members <$> new_rule_config u;
     new_priority := new_priority u;
     new_is_active := new_is_active u |}.

Definition fits_integer (u : rule_update) : Prop :=
  forall p, new_priority u = Some p -> (- 2 ^ 31 <= p < 2 ^ 31)%Z.

Definition not_found : error := Error "Rule not found or access denied".

(** Two runs had the same visible outcome: the same result and the same
    rules and templates in the store. *)
Definition same_outcome {A} (run1 run2 : outcome A * db) : Prop :=
  fst run1 = fst run2 /\
  privacy_rules (snd run1) = privacy_rules (snd run2) /\
  rule_templates (snd run1) = rule_templates (snd run2).

Definition template_not_found : error := Error "Template not found".

(** The public templates with a given id. *)
Definition public_templates (templateId : string) (d : db) : list template_row :=
  List.filter (fun t => String.eqb (template_id t) templateId && is_public t)
    (rule_templates d).

(** The rule data [createRuleFromTemplate] hands to [createRule], for a
    template whose configuration is the object [config] and customizations
    that are the object [custom]. *)
Definition template_rule_data (template : template_row)
    (config custom : gmap string value) : value :=
  obj [("rule_type", js_or (default VUndef (config !! "rule_type")) (VStr "custom"));
       ("rule_name",
        js_or (default VUndef (custom !! "rule_name")) (VStr (template_name template)));
       ("rule_description",
        js_or (default VUndef (custom !! "rule_description"))
          (text_or_null (template_description template)));
       ("rule_config", VObj (custom ∪ config));
       ("priority", js_or (default VUndef (custom !! "priority")) (VInt 1))].

(** A text that is there and not empty, a number that is there and not 0:
    the values [||] keeps. *)
Definition given_text (o : option string) : option string :=
  match o with
  | Some s => if String.eqb s "" then None else Some s
  | None => None
  end.

Definition given_integer (o : option Z) : option Z :=
  match o with
  | Some z => if (z =? 0)%Z then None else Some z
  | None => None
  end.

(** The row persisted for a template and typed customizations. *)
Definition template_rule_claim (ruleId userId : string) (time : Z) (template : template_row)
    (config custom : gmap string value)
    (type name description : option string) (prio : option Z) : rule_row :=
  {| id := ruleId; user_id := userId;
     rule_type := default "custom" (given_text type);
     rule_name := default (template_name template) (given_text name);
     rule_description :=
       match given_text description with
       | Some text => Some text
       | None => template_description template
       end;
     rule_config := VObj (custom ∪ config);
     priority := default 1%Z (given_integer prio);
     is_active := true; created_at := time; updated_at := time;
     created_by := Some userId; updated_by := None |}.

(** The [domains] and [patterns] properties of the encoded configuration. *)
Definition domains_value (c : url_filter_config) : value :=
  default VUndef (VArr ∘ map VStr <$> domains c).

Definition patterns_value (c : url_filter_config) : value :=
  default VUndef (VArr ∘ map VStr <$> patterns c).

(** What follows the mutation only records it: its result and the rules
    and templates it leaves do not depend on the fault schedule. *)
Definition only_records {A B} (k : A -> store B) : Prop :=
  forall a x s,
    fst (k a (with_faults s x)) = fst (k a x) /\
    privacy_rules (snd (k a (with_faults s x))) = privacy_rules x /\
    rule_templates (snd (k a (with_faults s x))) = rule_templates x.

(** A statement does not look at the fault schedule. *)
Definition ignores_faults {A} (statement : db -> outcome A * db) : Prop :=
  forall s x, statement (with_faults s x)
              = (fst (statement x), with_faults s (snd (statement x))).

(** ** Sample data *)

(** A keyword rule, and a store with four of them: two active rules of "u1",
    one rule of "u2" and one rule of "u1" that is switched off. *)
Definition sample_rule (ruleId userId : string) (config : value)
    (prio : Z) (active : bool) : rule_row :=
  {| id := ruleId; user_id := userId; rule_type := "keyword_filter";
     rule_name := "keywords"; rule_description := None; rule_config := config;
     priority := prio; is_active := active; created_at := 0; updated_at := 0;
     created_by := Some userId; updated_by := None |}.

Definition sample_db : db :=
  {| privacy_rules :=
       [sample_rule "r1" "u1" (obj [("keywords", VArr [VStr "spam"]); ("action", VStr "flag")]) 1 true;
        sample_rule "r2" "u2" (obj [("keywords", VArr [VStr "spam"])]) 9 true;
        sample_rule "r3" "u1" (obj [("keywords", VArr [VStr "is"])]) 5 true;
        sample_rule "r4" "u1" (obj [("keywords", VArr [VStr "this"])]) 7 false];
     rule_templates := []; rule_audit_log := []; faults := [false];
     issued := 4; now := 10 |}.

(** A public template whose configuration allows, and carries a priority. *)
Definition sample_template : template_row :=
  {| template_id := "t1"; template_name := "Spam filter";
     template_description := Some "Keywords of unwanted mail";
     template_category := "spam";
     template_config :=
       obj [("rule_type", VStr "keyword_filter"); ("keywords", VArr [VStr "spam"]);
            ("action", VStr "allow"); ("priority", VInt 7)];
     is_public := true |}.

Definition template_db : db :=
  {| privacy_rules := []; rule_templates := [sample_template];
     rule_audit_log := []; faults := [false; false]; issued := 0; now := 20 |}.

(** ** The other methods of the service *)

(** A stable insertion sort for an [ORDER BY] clause: [before a b] says that
    [a] comes strictly before [b]. *)
Fixpoint insert_by {A} (before : A -> A -> bool) (x : A) (l : list A) : list A :=
  match l with
  | [] => [x]
  | y :: rest => if before y x then y :: insert_by before x rest else x :: y :: rest
  end.

Definition order_by {A} (before : A -> A -> bool) (l : list A) : list A :=
  foldr (insert_by before) [] l.

(** [ORDER BY created_at DESC] on the audit log *)
Definition newer (a b : audit_row) : bool :=
  (audit_created_at b <? audit_created_at a)%Z.

Section OtherMethods.
Context `{Runtime}.
#[local] Open Scope store_scope.

(** [SELECT * FROM privacy_rules WHERE id = $1 AND user_id = $2] *)
Definition select_rule (ruleId userId : string)
  : db -> outcome (list rule_row) * db :=
  fun d => (Return (List.filter (owned_by ruleId userId) (privacy_rules d)), d).

Definition getRule (ruleId userId : string) : store rule_row :=
  stry_catch
    (rows <~ query (select_rule ruleId userId) ;;
     match rows with
     | [] => sthrow (Error "Rule not found")
     | row :: _ => sreturn row
     end)
    (fun error => sthrow error).

(** [SELECT * FROM rule_templates WHERE is_public = $1 (AND
    template_category = $2) ORDER BY template_category, template_name]; the
    order of two texts is the one of the collation of the store,
    [text_before]. *)
Definition select_templates (text_before : string -> string -> bool)
    (isPublic : value) (category_filter : option value)
  : db -> outcome (list template_row) * db :=
  fun d =>
    match bind_param pg_boolean isPublic,
          from_option (bind_param pg_text) (Some None) category_filter with
    | Some public, Some category =>
        let keep t :=
          match public with
          | Some b => Bool.eqb (is_public t) b
          | None => false
          end
          && match category_filter, category with
             | None, _ => true
             | Some _, Some c => String.eqb (template_category t) c
             | Some _, None => false
             end in
        let before a b :=
          text_before (template_category a) (template_category b)
          || (String.eqb (template_category a) (template_category b)
              && text_before (template_name a) (template_name b)) in
        (Return (order_by before (List.filter keep (rule_templates d))), d)
    | _, _ => (Throw StoreError, d)
    end.

Definition getRuleTemplates (text_before : string -> string -> bool)
    (category isPublic : value) : store (list template_row) :=
  stry_catch
    (let category := default_to VNull category in
     let isPublic := default_to (VBool true) isPublic in
     query (select_templates text_before isPublic
              (if truthy category then Some category else None)))
    (fun error => sthrow error).

(** [SELECT * FROM rule_audit_log WHERE 1=1 (AND rule_id = $n) (AND
    user_id = $n) ORDER BY created_at DESC LIMIT $n]: a NULL limit is no
    limit, a negative one is rejected. *)
Definition select_audit_log (rule_filter user_filter : option value) (limit : value)
  : db -> outcome (list audit_row) * db :=
  fun d =>
    match from_option (bind_param pg_text) (Some None) rule_filter,
          from_option (bind_param pg_text) (Some None) user_filter,
          bind_param pg_integer limit with
    | Some rule, Some user, Some count =>
        let keep (entry : audit_row) :=
          match rule_filter, rule with
          | None, _ => true
          | Some _, Some r => String.eqb (audit_rule_id entry) r
          | Some _, None => false
          end
          && match user_filter, user with
             | None, _ => true
             | Some _, Some u => String.eqb (audit_user_id entry) u
             | Some _, None => false
             end in
        let rows := order_by newer (List.filter keep (rule_audit_log d)) in
        match count with
        | None => (Return rows, d)
        | Some n =>
            if (n <? 0)%Z then (Throw StoreError, d)
            else (Return (take (Z.to_nat n) rows), d)
        end
    | _, _, _ => (Throw StoreError, d)
    end.

Definition getAuditLog (ruleId userId limit : value) : store (list audit_row) :=
  stry_catch
    (let ruleId := default_to VNull ruleId in
     let userId := default_to VNull userId in
     let limit := default_to (VInt 100) limit in
     query (select_audit_log
              (if truthy ruleId then Some ruleId else None)
              (if truthy userId then Some userId else None)
              limit))
    (fun error => sthrow error).
End OtherMethods.

(** ** Notions the further statements use *)

(** [a] is listed no later than [b]: a higher priority, or the same priority
    and a creation time that is not older. *)
Definition ranked (a b : rule_row) : Prop :=
  (priority b < priority a)%Z
  \/ (priority a = priority b /\ (created_at b <= created_at a)%Z).

(** Two states hold the same data: the same rows in the three tables, the
    same count of identifiers handed out and the same time. *)
Definition same_tables (d d' : db) : Prop :=
  privacy_rules d' = privacy_rules d /\
  rule_templates d' = rule_templates d /\
  rule_audit_log d' = rule_audit_log d /\
  issued d' = issued d /\ now d' = now d.

(** The filters the routes pass to [getUserRules]. *)
Record rule_filters := {
  by_type : option string;
  by_active : option bool;
}.

Definition filters_object (f : rule_filters) : value :=
  obj (optional "rule_type" (VStr <$> by_type f)
       ++ optional "is_active" (VBool <$> by_active f)).

(** The rows a listing with typed filters is about. *)
Definition listed (userId : string) (f : rule_filters) (row : rule_row) : bool :=
  String.eqb (user_id row) userId
  && match given_text (by_type f) with
     | Some type => String.eqb (rule_type row) type
     | None => true
     end
  && match by_active f with
     | Some active => Bool.eqb (is_active row) active
     | None => true
     end.

(** The entry [logAudit] writes at time [time]. *)
Definition audit_entry (ruleId action userId : string) (what : change)
    (ip ua : option string) (time : Z) : audit_row :=
  {| audit_rule_id := ruleId; audit_action := action; audit_user_id := userId;
     changes := what; ip_address := ip; user_agent := ua;
     audit_created_at := time |}.

(** The rules that belong to someone else than [userId]. *)
Definition rows_of_others (userId : string) (d : db) : list rule_row :=
  List.filter (fun row => negb (String.eqb (user_id row) userId)) (privacy_rules d).

(** A run left the rules, the templates and the audit log as they were. *)
Definition untouched {A} (d : db) (run : outcome A * db) : Prop :=
  privacy_rules (snd run) = privacy_rules d /\
  rule_templates (snd run) = rule_templates d /\
  rule_audit_log (snd run) = rule_audit_log d.

(** The four ways a caller changes the rules: the mutating methods of the
    service with their arguments, the caller apart. *)
Inductive mutation :=
  | Create (ruleData : value) (ipAddress userAgent : option string)
  | Update (ruleId : string) (updates : value) (ipAddress userAgent : option string)
  | Delete (ruleId : string) (ipAddress userAgent : option string)
  | FromTemplate (templateId : string) (customizations : value).

Definition perform `{Runtime} (m : mutation) (userId : string) : store rule_row :=
  match m with
  | Create ruleData ip ua => createRule ruleData userId ip ua
  | Update ruleId updates ip ua => updateRule ruleId updates userId ip ua
  | Delete ruleId ip ua => deleteRule ruleId userId ip ua
  | FromTemplate templateId customizations =>
      createRuleFromTemplate templateId userId customizations
  end.

(** The columns of a rule that no update reaches. *)
Definition same_identity (old new : rule_row) : Prop :=
  id new = id old /\ user_id new = user_id old /\ rule_type new = rule_type old
  /\ created_at new = created_at old /\ created_by new = created_by old.

(** The action a mutation is recorded under. *)
Definition recorded_as (m : mutation) : string :=
  match m with
  | Create _ _ _ | FromTemplate _ _ => "CREATE"
  | Update _ _ _ _ => "UPDATE"
  | Delete _ _ _ => "DELETE"
  end.

Definition rule_not_found : error := Error "Rule not found".

(** What a mutation that returned [row] has done to the store: the row is
    the caller's, the templates are as before, at most one entry has been
    added to the audit log (exactly one when no fault is scheduled), and the
    rules have a new row with an unused id, or updated rows with the
    identity they had, or every row but the removed ones. *)
Definition mutated (m : mutation) (userId : string) (d : db)
    (row : rule_row) (d' : db) : Prop :=
  user_id row = userId
  /\ rule_templates d' = rule_templates d
  /\ now d' = now d
  /\ (rule_audit_log d' = rule_audit_log d
      \/ exists what ip ua,
           rule_audit_log d'
           = rule_audit_log d
             ++ [audit_entry (id row) (recorded_as m) userId what ip ua (now d)])
  /\ (faults d = [] ->
      exists what ip ua,
        rule_audit_log d'
        = rule_audit_log d
          ++ [audit_entry (id row) (recorded_as m) userId what ip ua (now d)])
  /\ ((privacy_rules d' = privacy_rules d ++ [row]
       /\ existsb (fun r => String.eqb (id r) (id row)) (privacy_rules d) = false)
      \/ (exists ruleId (set : rule_row -> rule_row),
            privacy_rules d'
            = map (fun r => if owned_by ruleId userId r then set r else r)
                (privacy_rules d)
            /\ forall r, same_identity r (set r))
      \/ (exists ruleId,
            privacy_rules d'
            = List.filter (fun r => negb (owned_by ruleId userId r))
                (privacy_rules d))).

(** Rule data for a new keyword rule, as a client sends it. *)
Definition sample_rule_data : value :=
  obj [("rule_type", VStr "keyword_filter");
       ("rule_name", VStr "no spam");
       ("rule_config", obj [("keywords", VArr [VStr "spam"])])].

(** [a] is listed no later than [b] in the audit log: it is not older. *)
Definition not_older (a b : audit_row) : Prop :=
  (audit_created_at b <= audit_created_at a)%Z.

(** The rules [evaluateRules] is about: the active rules of the user. *)
Definition own_active (userId : string) (d : db) : list rule_row :=
  List.filter (fun row => String.eqb (user_id row) userId && is_active row)
    (privacy_rules d).

(** A store whose audit log has three entries, the second the newest. *)
Definition audit_db : db :=
  with_audit
    [audit_entry "r1" "CREATE" "u1" (rule_data sample_rule_data) None None 3;
     audit_entry "r1" "UPDATE" "u1" (updates_made (obj [("priority", VInt 2)])) None None 8;
     audit_entry "r2" "CREATE" "u2" (rule_data sample_rule_data) None None 5]
    sample_db.

(** ** Typed content filters *)

(** One entry of the [filters] of a content filter: a regular expression
    with a name, a length limit, or an entry of some other type. *)
Inductive content_filter :=
  | regex_filter (name pattern : string)
  | length_filter (max_length : nat)
  | other_filter (type : string).

Definition content_filter_object (f : content_filter) : value :=
  match f with
  | regex_filter name pattern =>
      obj [("type", VStr "regex"); ("name", VStr name); ("pattern", VStr pattern)]
  | length_filter max_length =>
      obj [("type", VStr "length"); ("max_length", VNum (num_of_nat max_length))]
  | other_filter type => obj [("type", VStr type)]
  end.

(** [{filters, action = 'block'}] *)
Record content_filter_config := {
  filters : list content_filter;
  content_action : option string;
}.

Definition content_filter_config_object (c : content_filter_config) : value :=
  obj (("filters", VArr (map content_filter_object (filters c)))
       :: optional "action" (VStr <$> content_action c)).

Section ContentFilters.
Context `{Runtime}.

(** The pattern of a regular-expression entry compiles, and an entry of
    another type is not one of the two known types in disguise. *)
Definition well_formed (f : content_filter) : Prop :=
  match f with
  | regex_filter _ pattern => compiles "" pattern
  | length_filter _ => True
  | other_filter type => type <> "regex" /\ type <> "length"
  end.

(** What one entry says about a text: the reason of its match, if it
    matches.  A length limit is exceeded by a longer text only. *)
Definition exceeded (text : string) (f : content_filter) : option string :=
  match f with
  | regex_filter name pattern =>
      if pattern_matches text pattern
      then Some ("Content matched filter: " +:+ name)
      else None
  | length_filter max_length =>
      if (max_length <? String.length text)%nat
      then Some ("Content too long: "
                 +:+ number_to_string (num_of_nat (String.length text))
                 +:+ " > " +:+ number_to_string (num_of_nat max_length))
      else None
  | other_filter _ => None
  end.

(** The first entry that matches decides. *)
Fixpoint content_scan (action : string) (text : string) (l : list content_filter)
  : evaluation :=
  match l with
  | [] => {| action := VStr "allow"; reason := "No content filters matched";
             matched := false |}
  | f :: rest =>
      match exceeded text f with
      | Some why => {| action := VStr action; reason := why; matched := true |}
      | None => content_scan action text rest
      end
  end.
End ContentFilters.

(** ** What the evaluator extracts and reads *)

(** No character of the text is white space. *)
Fixpoint no_space (s : string) : bool :=
  match s with
  | EmptyString => true
  | String c r => negb (is_space c) && no_space r
  end.

(** The text starts with [http://] or [https://]. *)
Definition has_scheme (s : string) : bool :=
  is_prefix "http://" s || is_prefix "https://" s.

(** The text is a scheme, [http://] or [https://], and something behind
    it. *)
Definition scheme_and_more (u : string) : Prop :=
  exists scheme rest,
    u = scheme +:+ rest
    /\ (scheme = "http://" \/ scheme = "https://")
    /\ rest <> "".

(** The rules of one user, in the order of the table. *)
Definition rows_of (userId : string) (d : db) : list rule_row :=
  List.filter (fun row => String.eqb (user_id row) userId) (privacy_rules d).

(** ** The transaction helper of the database service *)

(** What the pool and its clients are asked to do. *)
Inductive event :=
  | Connected
  | Queried (text : string)
  | Released.

(** A session with the pool: the events so far and the answers to come, one
    for each [pool.connect()] and [client.query(...)], [Some e] for a call
    that throws [e]; when the answers run out every call succeeds. *)
Record session := {
  events : list event;
  answers : list (option error);
}.

Definition session_code (A : Type) : Type := session -> outcome A * session.

Definition next_answer (s : session) : option error * list (option error) :=
  match answers s with
  | answer :: rest => (answer, rest)
  | [] => (None, [])
  end.

(** [await this.pool.connect()] *)
Definition pool_connect : session_code unit :=
  fun s =>
    match next_answer s with
    | (Some e, rest) => (Throw e, {| events := events s; answers := rest |})
    | (None, rest) =>
        (Return tt, {| events := events s ++ [Connected]; answers := rest |})
    end.

(** [await client.query(text)] *)
Definition client_query (text : string) : session_code unit :=
  fun s =>
    let sent := {| events := events s ++ [Queried text];
                   answers := snd (next_answer s) |} in
    match fst (next_answer s) with
    | Some e => (Throw e, sent)
    | None => (Return tt, sent)
    end.

(** [client.release()] *)
Definition client_release (s : session) : session :=
  {| events := events s ++ [Released]; answers := answers s |}.

(** [transaction(callback)]: the [try] block, its [catch] and its
    [finally]. *)
Definition transaction {A} (callback : session_code A) : session_code A :=
  fun s =>
    match pool_connect s with
    | (Throw e, s) => (Throw e, s)
    | (Return _, s) =>
        let attempt : outcome A * session :=
          match client_query "BEGIN" s with
          | (Throw e, s) => (Throw e, s)
          | (Return _, s) =>
              match callback s with
              | (Throw e, s) => (Throw e, s)
              | (Return result, s) =>
                  match client_query "COMMIT" s with
                  | (Throw e, s) => (Throw e, s)
                  | (Return _, s) => (Return result, s)
                  end
              end
          end in
        match attempt with
        | (Return result, s) => (Return result, client_release s)
        | (Throw error, s) =>
            match client_query "ROLLBACK" s with
            | (Throw e, s) => (Throw e, client_release s)
            | (Return _, s) => (Throw error, client_release s)
            end
        end
    end.

(** A callback that only sends queries on the client it is given. *)
Definition only_queries {A} (callback : session_code A) : Prop :=
  forall s, exists sent,
    events (snd (callback s)) = events s ++ map Queried sent.

(** ** The route that creates a rule *)

(** What the route answers: 400 without a user id, 400 with the errors of
    the validation, 201 with the rule, 500 with the error caught. *)
Inductive response :=
  | user_id_required
  | validation_failed (details : list string)
  | rule_created (rule : rule_row)
  | request_failed (e : error).

Section Routes.
Context `{Runtime}.

(** [router.post('/', ...)] of the rules.  [body] is [req.body],
    [header_user] the [x-user-id] header, [ipAddress] and [userAgent] what
    the request gives for them.  A user id that is a text goes to the
    service as it is; the model stops, with [None], at a user id of another
    type. *)
Definition post_rule (body : value) (header_user ipAddress userAgent : option string)
  : db -> option (response * db) :=
  fun d =>
    match get body "user_id" with
    | Throw e => Some (request_failed e, d)
    | Return given =>
        let userId := js_or given (default VUndef (VStr <$> header_user)) in
        if negb (truthy userId) then Some (user_id_required, d)
        else
          match validateRule body with
          | Throw e => Some (request_failed e, d)
          | Return validation =>
              if negb (isValid validation)
              then Some (validation_failed (errors validation), d)
              else
                match userId with
                | VStr userId =>
                    match createRule body userId ipAddress userAgent d with
                    | (Return rule, d') => Some (rule_created rule, d')
                    | (Throw e, d') => Some (request_failed e, d')
                    end
                | _ => None
                end
          end
    end.
End Routes.

(** ** The bulk routes *)

(** The loop of a bulk route: each item is tried on its own; the row of an
    item that went through is pushed onto [results], the id and the error of
    an item that failed onto [errors]. *)
Fixpoint bulk_loop {K} (key : K -> string) (run : K -> store rule_row)
    (items : list K) (results : list rule_row) (errors : list (string * error))
  : db -> (list rule_row * list (string * error)) * db :=
  fun d =>
    match items with
    | [] => ((results, errors), d)
    | item :: rest =>
        match run item d with
        | (Return row, d') => bulk_loop key run rest (results ++ [row]) errors d'
        | (Throw e, d') => bulk_loop key run rest results (errors ++ [(key item, e)]) d'
        end
    end.

Section BulkRoutes.
Context `{Runtime}.

(** The loop of [router.put('/bulk', ...)] over the items of [rules].
    [const { rule_id, updates } = ruleUpdate] stands inside the [try]: of
    an item that is [null] or [undefined] it throws, and then
    [ruleUpdate.rule_id] throws again inside the [catch], which ends the
    loop and lets the route answer 500 with that error.  [None] where the
    [rule_id] of an item is not a text: what the store makes of such an id
    is not modelled. *)
Fixpoint bulk_update_loop (rules : list value) (user_id : string)
    (ipAddress userAgent : option string)
    (results : list rule_row) (errors : list (value * error))
  : db -> option (outcome (list rule_row * list (value * error)) * db) :=
  fun d =>
    match rules with
    | [] => Some (Return (results, errors), d)
    | ruleUpdate :: rest =>
        match (rule_id <- get ruleUpdate "rule_id" ;;
               updates <- get ruleUpdate "updates" ;;
               Return (rule_id, updates)) with
        | Return (VStr rule_id, updates) =>
            match updateRule rule_id updates user_id ipAddress userAgent d with
            | (Return row, d') =>
                bulk_update_loop rest user_id ipAddress userAgent
                  (results ++ [row]) errors d'
            | (Throw e, d') =>
                match get ruleUpdate "rule_id" with
                | Return shown =>
                    bulk_update_loop rest user_id ipAddress userAgent
                      results (errors ++ [(shown, e)]) d'
                | Throw e' => Some (Throw e', d')
                end
            end
        | Return _ => None
        | Throw e =>
            match get ruleUpdate "rule_id" with
            | Return shown =>
                bulk_update_loop rest user_id ipAddress userAgent
                  results (errors ++ [(shown, e)]) d
            | Throw e' => Some (Throw e', d)
            end
        end
    end.

Definition bulk_update (rules : list value) (user_id : string)
    (ipAddress userAgent : option string) :=
  bulk_update_loop rules user_id ipAddress userAgent [] [].

(** The loop of [router.delete('/bulk', ...)] over ids that are texts. *)
Definition bulk_delete (rule_ids : list string) (user_id : string)
    (ipAddress userAgent : option string) :=
  bulk_loop (fun ruleId => ruleId)
    (fun ruleId => deleteRule ruleId user_id ipAddress userAgent)
    rule_ids [] [].
End BulkRoutes.

(** * Properties of the evaluator *)

(** ** Texts *)

Lemma substring_full (s : string) : String.substring 0 (String.length s) s = s.
Proof. induction s as [|c s IH]; simpl; [reflexivity|]. rewrite IH. reflexivity. Qed.

Lemma append_cons (a : Ascii.ascii) (p q : string) :
  String a p +:+ q = String a (p +:+ q).
Proof. reflexivity. Qed.

Lemma is_prefix_split (p s : string) :
  is_prefix p s = true ->
  s = p +:+ String.substring (String.length p) (String.length s - String.length p) s.
Proof.
  revert s. induction p as [|a p IH]; intros s Hp.
  - simpl. rewrite Nat.sub_0_r, substring_full. reflexivity.
  - destruct s as [|b s]; [discriminate|]. simpl in Hp.
    apply andb_true_iff in Hp as [Hab Hp]. apply Ascii.eqb_eq in Hab. subst b.
    simpl. rewrite append_cons. f_equal. apply IH. exact Hp.
Qed.

Lemma is_prefix_app (p q r : string) : is_prefix (p +:+ q) (p +:+ r) = is_prefix q r.
Proof.
  induction p as [|a p IH]; [reflexivity|].
  rewrite !append_cons. simpl. rewrite Ascii.eqb_refl. exact IH.
Qed.

Lemma includes_prefix (s t : string) : is_prefix t s = true -> includes s t = true.
Proof. intros Hp. destruct s; simpl in *; rewrite Hp; reflexivity. Qed.

Lemma includes_later (c : Ascii.ascii) (s t : string) :
  includes s t = true -> includes (String c s) t = true.
Proof. intros Hin. cbn [includes]. rewrite Hin. apply orb_true_r. Qed.

Lemma string_length_append (s t : string) :
  String.length (s +:+ t) = (String.length s + String.length t)%nat.
Proof.
  induction s as [|a s IH]; [reflexivity|].
  change (String a s +:+ t) with (String a (s +:+ t)).
  cbn [String.length]. rewrite IH. reflexivity.
Qed.

Lemma is_prefix_app_l (p q : string) : is_prefix p (p +:+ q) = true.
Proof.
  induction p as [|a p IH]; [reflexivity|].
  rewrite append_cons. simpl. rewrite Ascii.eqb_refl. exact IH.
Qed.

(** [includes] finds exactly the texts that occur: some text before, the
    text looked for, some text after. *)
Lemma includes_occurs (s t : string) :
  includes s t = true <-> exists pre post, s = pre +:+ t +:+ post.
Proof.
  split.
  - induction s as [|c s IH]; intros Hin.
    + destruct t as [|b t]; [|discriminate]. exists "", "". reflexivity.
    + cbn [includes] in Hin. apply orb_true_iff in Hin as [Hp|Hin].
      * apply is_prefix_split in Hp. exists "". eexists.
        etransitivity; [exact Hp|]. reflexivity.
      * destruct (IH Hin) as (pre & post & ->).
        exists (String c pre), post. reflexivity.
  - intros (pre & post & ->). induction pre as [|c pre IH].
    + change ("" +:+ t +:+ post) with (t +:+ post).
      apply includes_prefix. apply is_prefix_app_l.
    + rewrite append_cons. apply includes_later. exact IH.
Qed.

Section EvaluatorFacts.
Context `{Runtime}.

Lemma evaluateRule_keyword rule message :
  rule_type rule = "keyword_filter" ->
  evaluateRule rule message =
  try_catch (evaluateKeywordFilter (rule_config rule) message)
    (fun _ => Return evaluation_error).
Proof. intros E. unfold evaluateRule. rewrite E. reflexivity. Qed.

Lemma evaluateRule_url rule message :
  rule_type rule = "url_filter" ->
  evaluateRule rule message =
  try_catch (evaluateUrlFilter (rule_config rule) message)
    (fun _ => Return evaluation_error).
Proof. intros E. unfold evaluateRule. rewrite E. reflexivity. Qed.

Lemma evaluateRule_content rule message :
  rule_type rule = "content_filter" ->
  evaluateRule rule message =
  try_catch (evaluateContentFilter (rule_config rule) message)
    (fun _ => Return evaluation_error).
Proof. intros E. unfold evaluateRule. rewrite E. reflexivity. Qed.

Lemma evaluateRule_other rule message :
  rule_type rule <> "keyword_filter" ->
  rule_type rule <> "url_filter" ->
  rule_type rule <> "content_filter" ->
  evaluateRule rule message = Return unknown_type.
Proof.
  intros K U C. unfold evaluateRule.
  apply String.eqb_neq in K, U, C. rewrite K, U, C. reflexivity.
Qed.

Lemma try_catch_returns {A} (body : outcome A) (fallback : A) :
  exists a, try_catch body (fun _ => Return fallback) = Return a.
Proof. destruct body; simpl; eauto. Qed.

Lemma evaluateRule_returns rule message :
  exists ev, evaluateRule rule message = Return ev.
Proof.
  destruct (String.eqb_spec (rule_type rule) "keyword_filter") as [K|K].
  { rewrite (evaluateRule_keyword _ _ K). apply try_catch_returns. }
  destruct (String.eqb_spec (rule_type rule) "url_filter") as [U|U].
  { rewrite (evaluateRule_url _ _ U). apply try_catch_returns. }
  destruct (String.eqb_spec (rule_type rule) "content_filter") as [C|C].
  { rewrite (evaluateRule_content _ _ C). apply try_catch_returns. }
  rewrite (evaluateRule_other _ _ K U C). eauto.
Qed.

(** C4.  [evaluateRule] never raises: it always returns an evaluation.  A
    rule whose type is none of [keyword_filter], [url_filter],
    [content_filter] gets [allow], not matched, with the reason "Unknown
    rule type"; when the evaluator of a known type throws, whatever the
    error, the result is [allow], not matched, with the reason "Evaluation
    error". *)
Theorem evaluateRule_never_raises (rule : rule_row) (message : value) :
  (exists ev, evaluateRule rule message = Return ev) /\
  (rule_type rule <> "keyword_filter" ->
   rule_type rule <> "url_filter" ->
   rule_type rule <> "content_filter" ->
   evaluateRule rule message = Return unknown_type) /\
  (forall e, rule_type rule = "keyword_filter" ->
     evaluateKeywordFilter (rule_config rule) message = Throw e ->
     evaluateRule rule message = Return evaluation_error) /\
  (forall e, rule_type rule = "url_filter" ->
     evaluateUrlFilter (rule_config rule) message = Throw e ->
     evaluateRule rule message = Return evaluation_error) /\
  (forall e, rule_type rule = "content_filter" ->
     evaluateContentFilter (rule_config rule) message = Throw e ->
     evaluateRule rule message = Return evaluation_error).
Proof.
  split; [apply evaluateRule_returns|].
  split; [apply evaluateRule_other|].
  repeat split; intros e T Hthrow.
  - rewrite (evaluateRule_keyword _ _ T), Hthrow. reflexivity.
  - rewrite (evaluateRule_url _ _ T), Hthrow. reflexivity.
  - rewrite (evaluateRule_content _ _ T), Hthrow. reflexivity.
Qed.

End EvaluatorFacts.

(** ** The keyword filter *)

Section KeywordFacts.
Context `{Runtime}.

Lemma element_strings_strings (l : list string) :
  element_strings (map VStr l) = Return l.
Proof.
  induction l as [|s l IH]; simpl; [reflexivity|].
  rewrite IH. reflexivity.
Qed.

Lemma array_join_strings sep (l : list string) :
  array_join sep (map VStr l) = Return (join sep l).
Proof. unfold array_join. rewrite element_strings_strings. reflexivity. Qed.

Lemma js_ge_numbers (n : nat) (q : Q) :
  js_ge (VNum (num_of_nat n)) (VNum (Fin q))
  = Return (Qle_bool q (inject_Z (Z.of_nat n))).
Proof.
  unfold js_ge, less_than, num_of_nat, Qlt_bool. simpl. unfold Qlt_bool.
  destruct (Qle_bool q (inject_Z (Z.of_nat n))); reflexivity.
Qed.

(** The loop adds the matches of every keyword to the count and appends
    the keywords that have a match, in order. *)
Lemma keyword_loop_counts text (ks : list string) :
  Forall (fun k => compiles "gi" (toLowerCase k)) ks ->
  forall n acc,
    keyword_loop (VStr text) (map VStr ks) n acc
    = Return (n + foldr Nat.add 0 (map (occurrences text) ks),
              acc ++ map VStr (List.filter (occurs text) ks)).
Proof.
  induction 1 as [|k ks [r Hr] _ IH]; intros n acc; simpl.
  - rewrite Nat.add_0_r, app_nil_r. reflexivity.
  - unfold new_RegExp, occurrences, occurs, keyword_matches. rewrite Hr. simpl.
    destruct (String_match text r) as [found|]; rewrite IH.
    + simpl. rewrite Nat.add_assoc, <- app_assoc. reflexivity.
    + reflexivity.
Qed.

Lemma get_keywords c :
  get (keyword_filter_object c) "keywords" = Return (VArr (map VStr (keywords c))).
Proof. destruct c as [ks [m|] [a|]]; reflexivity. Qed.

Lemma get_max_occurrences c :
  get (keyword_filter_object c) "max_occurrences"
  = Return (default VUndef (VNum ∘ Fin <$> max_occurrences c)).
Proof. destruct c as [ks [m|] [a|]]; reflexivity. Qed.

Lemma get_keyword_action c :
  get (keyword_filter_object c) "action"
  = Return (default VUndef (VStr <$> keyword_action c)).
Proof. destruct c as [ks [m|] [a|]]; reflexivity. Qed.

Lemma join_concat (sep : string) (l : list string) :
  join sep l = String.concat sep l.
Proof.
  induction l as [|x l IH]; [reflexivity|].
  destruct l as [|y l]; [reflexivity|].
  change (join sep (x :: y :: l)) with (x +:+ sep +:+ join sep (y :: l)).
  rewrite IH. reflexivity.
Qed.

Lemma keyword_filter_refines c message text :
  message_text message = Return (VStr text) ->
  Forall (fun k => compiles "gi" (toLowerCase k)) (keywords c) ->
  evaluateKeywordFilter (keyword_filter_object c) message
  = Return (keyword_filter_claim c text).
Proof.
  intros Htext Hok. unfold evaluateKeywordFilter.
  rewrite get_keywords, get_max_occurrences, get_keyword_action. simpl.
  rewrite Htext. simpl.
  rewrite (keyword_loop_counts text _ Hok). simpl.
  assert (Hmax : default_to (VInt 1) (default VUndef (VNum ∘ Fin <$> max_occurrences c))
                 = VNum (Fin (default 1%Q (max_occurrences c)))).
  { destruct (max_occurrences c); reflexivity. }
  rewrite Hmax, js_ge_numbers. simpl.
  unfold keyword_filter_claim.
  destruct (Qle_bool _ _).
  - rewrite array_join_strings, join_concat. simpl.
    destruct (keyword_action c); reflexivity.
  - reflexivity.
Qed.

(** The loop stops with the SyntaxError of the first keyword that does not
    compile. *)
Lemma keyword_loop_breaks text (ks : list string) :
  Exists (fun k => RegExp_new (toLowerCase k) "gi" = None) ks ->
  forall n acc, keyword_loop (VStr text) (map VStr ks) n acc = Throw SyntaxError.
Proof.
  induction ks as [|k ks IH]; intros Hbad n acc; [inversion Hbad|].
  cbn [map keyword_loop call_toLowerCase bind]. unfold new_RegExp.
  destruct (RegExp_new (toLowerCase k) "gi") as [r|] eqn:Hr; [|reflexivity].
  cbn [bind match_regexp].
  assert (Hrest : Exists (fun k => RegExp_new (toLowerCase k) "gi" = None) ks).
  { inversion Hbad as [? ? Hk|? ? Hks]; subst; [congruence | exact Hks]. }
  destruct (String_match text r); apply IH; exact Hrest.
Qed.

Lemma keyword_filter_breaks c message text :
  message_text message = Return (VStr text) ->
  Exists (fun k => RegExp_new (toLowerCase k) "gi" = None) (keywords c) ->
  evaluateKeywordFilter (keyword_filter_object c) message = Throw SyntaxError.
Proof.
  intros Htext Hbad. unfold evaluateKeywordFilter.
  rewrite get_keywords, get_max_occurrences, get_keyword_action. simpl.
  rewrite Htext. simpl.
  rewrite (keyword_loop_breaks text _ Hbad). reflexivity.
Qed.

(** C3, amended.  For a keyword filter with configuration [{keywords,
    max_occurrences (default 1), action (default 'block')}] and a message
    with text [text], each keyword is lower-cased and compiled as a regular
    expression with the flags [g] and [i], and what is counted are the
    matches of that expression in the text.  When every keyword compiles,
    the counts are added up, [matched] is [total >= max_occurrences], the
    action is the configured one when matched and [allow] otherwise, and the
    reason of a match names the total and the keywords that have a match,
    with ", " between them.  When a keyword does not compile, the evaluator
    throws a SyntaxError, which [evaluateRule] answers with [allow], not
    matched.  In particular [{keywords: ['spam'], max_occurrences: 1, action:
    'block'}] against "this is spam spam", where the expression finds two
    matches, is matched with action [block] and count 2. *)
Theorem keyword_filter_counts_occurrences :
  (forall (c : keyword_filter_config) (message : value) (text : string),
      message_text message = Return (VStr text) ->
      Forall (fun k => compiles "gi" (toLowerCase k)) (keywords c) ->
      evaluateKeywordFilter (keyword_filter_object c) message
      = Return (keyword_filter_claim c text)) /\
  (forall (c : keyword_filter_config) (message : value) (text : string),
      message_text message = Return (VStr text) ->
      Exists (fun k => RegExp_new (toLowerCase k) "gi" = None) (keywords c) ->
      evaluateKeywordFilter (keyword_filter_object c) message = Throw SyntaxError /\
      forall rule : rule_row,
        rule_type rule = "keyword_filter" ->
        rule_config rule = keyword_filter_object c ->
        evaluateRule rule message
        = Return {| action := VStr "allow"; reason := "Evaluation error";
                    matched := false |}) /\
  (forall r first second,
      RegExp_new "spam" "gi" = Some r ->
      String_match "this is spam spam" r = Some [first; second] ->
      evaluateKeywordFilter
        (obj [("keywords", VArr [VStr "spam"]); ("max_occurrences", VInt 1);
              ("action", VStr "block")])
        (obj [("text", VStr "this is spam spam")])
      = Return {| action := VStr "block";
                  reason := "Matched " +:+ number_to_string (num_of_nat 2)
                            +:+ " keywords: spam";
                  matched := true |}).
Proof.
  split; [exact keyword_filter_refines|]. split.
  - intros c message text Htext Hbad.
    pose proof (keyword_filter_breaks c message text Htext Hbad) as Hthrows.
    split; [exact Hthrows|].
    intros rule Htype Hconfig.
    rewrite (evaluateRule_keyword rule message Htype), Hconfig, Hthrows. reflexivity.
  - intros r first second Hr Hm.
    pose (c := {| keywords := ["spam"]; max_occurrences := Some 1%Q;
                  keyword_action := Some "block" |}).
    etransitivity.
    + apply (keyword_filter_refines c _ "this is spam spam"); [reflexivity|].
      repeat constructor. unfold compiles.
      change (toLowerCase "spam") with "spam". rewrite Hr. eauto.
    + unfold keyword_filter_claim, occurrences, occurs, keyword_matches. subst c.
      cbn [keywords max_occurrences keyword_action map List.filter foldr].
      change (toLowerCase "spam") with "spam". rewrite Hr, Hm. reflexivity.
Qed.

End KeywordFacts.

(** C3 on the small runtime: two keywords compile and have two matches
    each, and both are named in the reason; with a third keyword that does
    not compile the evaluator throws; the expression for "spam" finds its
    two occurrences. *)
Lemma keyword_filter_counts_occurrences_witness :
  let c := {| keywords := ["spam"; "IS"; "ham"]; max_occurrences := Some 3%Q;
              keyword_action := Some "flag" |} in
  let broken := {| keywords := ["spam"; "("]; max_occurrences := None;
                   keyword_action := None |} in
  let message := obj [("text", VStr "this is spam spam")] in
  (message_text message = Return (VStr "this is spam spam") /\
   Forall (fun k => compiles (H := Small.runtime) "gi" (toLowerCase k)) (keywords c) /\
   Exists (fun k => Small.RegExp_new (toLowerCase k) "gi" = None) (keywords broken)) /\
  evaluateKeywordFilter (H := Small.runtime) (keyword_filter_object c) message
  = Return {| action := VStr "flag"; reason := "Matched 4 keywords: spam, IS";
              matched := true |} /\
  evaluateKeywordFilter (H := Small.runtime) (keyword_filter_object broken) message
  = Throw SyntaxError /\
  evaluateKeywordFilter (H := Small.runtime)
    (obj [("keywords", VArr [VStr "spam"]); ("max_occurrences", VInt 1);
          ("action", VStr "block")])
    message
  = Return {| action := VStr "block"; reason := "Matched 2 keywords: spam";
              matched := true |}.
Proof.
  intros c broken message.
  assert (Htext : message_text message = Return (VStr "this is spam spam"))
    by reflexivity.
  assert (Hok : Forall (fun k => compiles (H := Small.runtime) "gi" (toLowerCase k))
                  (keywords c))
    by (repeat constructor; vm_compute; eauto).
  assert (Hbad : Exists (fun k => Small.RegExp_new (toLowerCase k) "gi" = None)
                   (keywords broken))
    by (apply Exists_cons_tl, Exists_cons_hd; reflexivity).
  split; [repeat split; assumption|].
  split; [|split].
  - exact (proj1 (keyword_filter_counts_occurrences (H := Small.runtime))
             c message "this is spam spam" Htext Hok).
  - exact (proj1 (proj1 (proj2 (keyword_filter_counts_occurrences (H := Small.runtime)))
                    broken message "this is spam spam" Htext Hbad)).
  - exact (proj2 (proj2 (keyword_filter_counts_occurrences (H := Small.runtime)))
             {| Small.source := "spam"; Small.global := true; Small.ignoreCase := true |}
             "spam" "spam" eq_refl eq_refl).
Defined.

(** C3, as the specification states it, fails: what is counted are not the
    occurrences of the keyword.  The keyword "[a-c]" occurs nowhere in the
    text "abc", yet the filter counts three matches, one for each character
    of the class, and the rule is matched. *)
Lemma keyword_is_a_pattern :
  let config := obj [("keywords", VArr [VStr "[a-c]"])] in
  let message := obj [("text", VStr "abc")] in
  (forall pre post : string, "abc" <> pre +:+ "[a-c]" +:+ post) /\
  evaluateKeywordFilter (H := Small.runtime) config message
  = Return {| action := VStr "block"; reason := "Matched 3 keywords: [a-c]";
              matched := true |}.
Proof.
  intros config message. split; [|vm_compute; reflexivity].
  intros pre post Heq. apply (f_equal String.length) in Heq.
  rewrite !string_length_append in Heq. cbn in Heq. lia.
Qed.

(** ** A keyword that does not compile *)

Section MalformedKeyword.
Context `{Runtime}.

(** Once the loop meets a keyword whose expression does not compile it
    throws; whatever comes before can only make it throw earlier. *)
Lemma keyword_loop_throws text (keywords : list value) (k : string) :
  VStr k ∈ keywords ->
  RegExp_new (toLowerCase k) "gi" = None ->
  forall n acc, exists e, keyword_loop text keywords n acc = Throw e.
Proof.
  intros Hin Hbad.
  induction keywords as [|x rest IH]; intros n acc.
  - inversion Hin.
  - simpl. destruct (call_toLowerCase x) as [source|e] eqn:Hlow; simpl; [|eauto].
    unfold new_RegExp.
    destruct (RegExp_new source "gi") as [r|] eqn:Hr; simpl; [|eauto].
    destruct (match_regexp text r) as [matches|e]; simpl; [|eauto].
    assert (Hrest : VStr k ∈ rest).
    { apply elem_of_cons in Hin as [Hx|Hin]; [|assumption].
      subst x. simpl in Hlow. congruence. }
    destruct matches; apply IH; assumption.
Qed.

Lemma bind_throws {A B} (c : outcome A) (k : A -> outcome B) :
  (forall a, exists e, k a = Throw e) ->
  exists e, bind c k = Throw e.
Proof. intros Hk. destruct c as [a|e]; simpl; eauto. Qed.

Lemma keyword_filter_throws config message (keywords : list value) (k : string) :
  get config "keywords" = Return (VArr keywords) ->
  VStr k ∈ keywords ->
  RegExp_new (toLowerCase k) "gi" = None ->
  exists e, evaluateKeywordFilter config message = Throw e.
Proof.
  intros Hget Hin Hbad. unfold evaluateKeywordFilter. rewrite Hget. simpl.
  apply bind_throws; intros max_occurrences.
  apply bind_throws; intros action.
  apply bind_throws; intros text.
  apply bind_throws; intros lowerText. simpl.
  destruct (keyword_loop_throws text keywords k Hin Hbad 0 []) as [e He].
  rewrite He. simpl. eauto.
Qed.

(** C9, amended.  A keyword filter one of whose keywords, once
    lower-cased, does not compile as a regular expression (the constructor
    called on the lower-cased keyword throws, as it does for "(") evaluates
    to the error fallback [allow], not matched, whatever the other keywords
    and the message are: the malformed keyword is not skipped, it disables
    the rule. *)
Theorem malformed_keyword_disables_rule
    (rule : rule_row) (message : value) (keywords : list value) (k : string) :
  rule_type rule = "keyword_filter" ->
  get (rule_config rule) "keywords" = Return (VArr keywords) ->
  VStr k ∈ keywords ->
  RegExp_new (toLowerCase k) "gi" = None ->
  evaluateRule rule message
  = Return {| action := VStr "allow"; reason := "Evaluation error"; matched := false |}.
Proof.
  intros T Hget Hin Hbad.
  destruct (keyword_filter_throws _ message _ _ Hget Hin Hbad) as [e He].
  rewrite (evaluateRule_keyword _ _ T), He. reflexivity.
Qed.

End MalformedKeyword.

(** C9 on the small runtime: "spam" occurs twice in the message, yet the
    rule with the keywords "spam" and "(" gives the error fallback.  So
    does the rule with the keywords "spam" and "[Z-a]": as it is written
    "[Z-a]" is a regular expression, lower-cased it is "[z-a]", whose range
    is out of order. *)
Lemma malformed_keyword_disables_rule_witness :
  let rule keyword :=
    {| id := "r1"; user_id := "u1"; rule_type := "keyword_filter";
       rule_name := "spam"; rule_description := None;
       rule_config := obj [("keywords", VArr [VStr "spam"; VStr keyword])];
       priority := 1; is_active := true; created_at := 0;
       updated_at := 0; created_by := None; updated_by := None |} in
  let message := obj [("text", VStr "this is spam spam")] in
  (rule_type (rule "(") = "keyword_filter" /\
   get (rule_config (rule "(")) "keywords" = Return (VArr [VStr "spam"; VStr "("]) /\
   VStr "(" ∈ [VStr "spam"; VStr "("] /\
   Small.RegExp_new (toLowerCase "(") "gi" = None /\
   occurrences (H := Small.runtime) "this is spam spam" "spam" = 2) /\
  evaluateRule (H := Small.runtime) (rule "(") message
  = Return {| action := VStr "allow"; reason := "Evaluation error"; matched := false |} /\
  (Small.RegExp_new "[Z-a]" "gi" <> None /\
   Small.RegExp_new (toLowerCase "[Z-a]") "gi" = None) /\
  evaluateRule (H := Small.runtime) (rule "[Z-a]") message
  = Return {| action := VStr "allow"; reason := "Evaluation error"; matched := false |}.
Proof.
  intros rule message.
  assert (Hin : forall keyword, VStr keyword ∈ [VStr "spam"; VStr keyword])
    by (intros keyword; apply list_elem_of_further, list_elem_of_here).
  split; [|split; [|split]].
  - repeat split; try reflexivity. apply Hin.
  - exact (malformed_keyword_disables_rule (H := Small.runtime) (rule "(") message
             [VStr "spam"; VStr "("] "(" eq_refl eq_refl (Hin "(") eq_refl).
  - split; [discriminate|reflexivity].
  - exact (malformed_keyword_disables_rule (H := Small.runtime) (rule "[Z-a]") message
             [VStr "spam"; VStr "[Z-a]"] "[Z-a]" eq_refl eq_refl (Hin "[Z-a]") eq_refl).
Defined.

(** C9, as the specification states it, fails: it is the lower-cased keyword
    that is compiled.  The keyword "[a-Z]" is no regular expression, its
    range being out of order, yet the rule that holds it is not disabled:
    lower-cased it is the class "[a-z]", which the message matches three
    times. *)
Lemma invalid_keyword_can_still_match :
  let rule := sample_rule "r9" "u1" (obj [("keywords", VArr [VStr "[a-Z]"])]) 1 true in
  let message := obj [("text", VStr "Abc")] in
  Small.RegExp_new "[a-Z]" "gi" = None /\
  evaluateRule (H := Small.runtime) rule message
  = Return {| action := VStr "block"; reason := "Matched 3 keywords: [a-Z]";
              matched := true |} /\
  evaluateRule (H := Small.runtime) rule message
  <> Return {| action := VStr "allow"; reason := "Evaluation error"; matched := false |}.
Proof.
  intros rule message. split; [reflexivity|].
  assert (Hrun : evaluateRule (H := Small.runtime) rule message
                 = Return {| action := VStr "block";
                             reason := "Matched 3 keywords: [a-Z]"; matched := true |})
    by (vm_compute; reflexivity).
  split; [exact Hrun|]. rewrite Hrun. discriminate.
Qed.

(** ** The URL filter *)

Section UrlFacts.
Context `{Runtime}.

Lemma js_gt_length (n : nat) :
  js_gt (VNum (num_of_nat n)) (VInt 0) = Return (0 <? n)%nat.
Proof.
  unfold js_gt, less_than, num_of_nat, VInt. simpl. unfold Qlt_bool, Qle_bool. simpl.
  f_equal. destruct n as [|n]; [reflexivity|].
  rewrite Z.mul_1_r.
  destruct (Z.leb_spec (Z.of_nat (S n)) 0) as [Hle|Hlt]; [lia|reflexivity].
Qed.

Lemma configured_strings (l : list string) :
  configured (VArr (map VStr l)) = Return (0 <? length l)%nat.
Proof.
  unfold configured. simpl. rewrite length_map. apply js_gt_length.
Qed.

Lemma some_domain_strings (l : list string) (host : string) :
  some_domain (VArr (map VStr l)) host = Return (existsb (includes host) l).
Proof.
  unfold some_domain.
  assert (Hloop : first_return
                    (fun domain =>
                       d <- to_string domain ;;
                       Return (if includes host d then Some tt else None))
                    (map VStr l)
                  = Return (if existsb (includes host) l then Some tt else None)).
  { induction l as [|d l IH]; simpl; [reflexivity|].
    destruct (includes host d); simpl; [reflexivity|]. exact IH. }
  rewrite Hloop. simpl. destruct (existsb _ l); reflexivity.
Qed.

Lemma get_domains c : get (url_filter_object c) "domains" = Return (domains_value c).
Proof. destruct c as [[ds|] [ps|] [a|]]; reflexivity. Qed.

Lemma get_patterns c : get (url_filter_object c) "patterns" = Return (patterns_value c).
Proof. destruct c as [[ds|] [ps|] [a|]]; reflexivity. Qed.

Lemma get_url_action c :
  get (url_filter_object c) "action" = Return (default VUndef (VStr <$> url_action c)).
Proof. destruct c as [[ds|] [ps|] [a|]]; reflexivity. Qed.

(** The check of the domains finds a listed domain that occurs in what the
    URL is judged by, or there is none. *)
Lemma domain_check (c : url_filter_config) (url : string) :
  exists allowed : bool,
    (has_domains <- configured (domains_value c) ;;
     if has_domains : bool
     then some_domain (domains_value c) (extractDomain url)
     else Return false) = Return allowed
    /\ if allowed
       then exists domain, domain ∈ default [] (domains c)
                           /\ occurs_in domain (judged_by url)
       else Forall (fun domain => ~ occurs_in domain (judged_by url))
              (default [] (domains c)).
Proof.
  exists (existsb (includes (extractDomain url)) (default [] (domains c))). split.
  - unfold domains_value. destruct (domains c) as [ds|]; [|reflexivity].
    change (default VUndef (VArr ∘ map VStr <$> Some ds)) with (VArr (map VStr ds)).
    rewrite configured_strings.
    destruct ds as [|d ds]; [reflexivity|].
    apply some_domain_strings.
  - destruct (existsb _ _) eqn:Hsome.
    + apply existsb_exists in Hsome as (domain & Hin & Hdomain).
      exists domain. split; [apply list_elem_of_In; exact Hin|].
      apply includes_occurs. exact Hdomain.
    + apply Forall_forall. intros domain Hin Hoccurs.
      apply includes_occurs in Hoccurs.
      assert (Hyes : existsb (includes (extractDomain url)) (default [] (domains c))
                     = true).
      { apply existsb_exists. exists domain.
        split; [apply list_elem_of_In; exact Hin|exact Hoccurs]. }
      congruence.
Qed.

(** The loop over the patterns does what [first_pattern] says. *)
Lemma pattern_loop_says (action : value) (url : string) (l : list string) :
  exists said,
    first_pattern url l said
    /\ first_return
         (fun pattern =>
            found <- String_match_pattern url pattern ;;
            match found with
            | Some _ =>
                shown <- to_string pattern ;;
                Return (Some {| action := action;
                                reason := "URL matched pattern: " +:+ shown;
                                matched := true |})
            | None => Return None
            end) (map VStr l)
       = match said with
         | Return (Some pattern) =>
             Return (Some {| action := action;
                             reason := "URL matched pattern: " +:+ pattern;
                             matched := true |})
         | Return None => Return None
         | Throw e => Throw e
         end.
Proof.
  induction l as [|p l IH].
  - exists (Return None). split; [constructor|reflexivity].
  - cbn [map first_return]. unfold String_match_pattern at 1. simpl.
    destruct (RegExp_new p "") as [r|] eqn:Hr.
    + simpl. destruct (String_match url r) as [found|] eqn:Hfound.
      * exists (Return (Some p)). split; [|reflexivity].
        eapply pattern_found; eassumption.
      * destruct IH as (said & Hsaid & Hloop). exists said. split; [|exact Hloop].
        eapply pattern_passed; eassumption.
    + exists (Throw SyntaxError). split; [|reflexivity].
      apply pattern_broken. exact Hr.
Qed.

(** One turn of the loop over the URLs. *)
Lemma url_step_says (c : url_filter_config) (url : string) :
  ((exists domain, domain ∈ default [] (domains c)
                   /\ occurs_in domain (judged_by url))
   /\ url_step (domains_value c) (patterns_value c)
        (VStr (default "block" (url_action c))) url
      = Return (Some {| action := VStr "allow";
                        reason := "Domain allowed: " +:+ judged_by url;
                        matched := false |}))
  \/ (Forall (fun domain => ~ occurs_in domain (judged_by url))
        (default [] (domains c))
      /\ exists said,
           first_pattern url (default [] (patterns c)) said
           /\ url_step (domains_value c) (patterns_value c)
                (VStr (default "block" (url_action c))) url
              = match said with
                | Return (Some pattern) =>
                    Return (Some {| action := VStr (default "block" (url_action c));
                                    reason := "URL matched pattern: " +:+ pattern;
                                    matched := true |})
                | Return None => Return None
                | Throw e => Throw e
                end).
Proof.
  destruct (domain_check c url) as (allowed & Hcheck & Hallowed).
  remember (url_step (domains_value c) (patterns_value c)
              (VStr (default "block" (url_action c))) url) as step eqn:Hstep.
  unfold url_step in Hstep.
  destruct (configured (domains_value c)) as [has|e] eqn:Hconf;
    [|discriminate Hcheck].
  cbn [bind] in Hcheck, Hstep. rewrite Hcheck in Hstep. cbn [bind] in Hstep.
  destruct allowed.
  - left. split; [exact Hallowed|]. exact Hstep.
  - right. split; [exact Hallowed|].
    unfold patterns_value in Hstep.
    destruct (patterns c) as [ps|].
    + change (default VUndef (VArr ∘ map VStr <$> Some ps))
        with (VArr (map VStr ps)) in Hstep.
      rewrite configured_strings in Hstep.
      destruct ps as [|p ps].
      * exists (Return None). split; [constructor|exact Hstep].
      * destruct (pattern_loop_says (VStr (default "block" (url_action c))) url
                    (p :: ps)) as (said & Hsaid & Hloop).
        exists said. split; [exact Hsaid|].
        rewrite Hstep. exact Hloop.
    + exists (Return None). split; [constructor|exact Hstep].
Qed.

Lemma url_loop_says (c : url_filter_config) (urls : list string) :
  url_scan_claim c urls
    (decided <- first_return
                  (url_step (domains_value c) (patterns_value c)
                     (VStr (default "block" (url_action c)))) urls ;;
     match decided with
     | Some result => Return result
     | None => Return (allow "No URL restrictions matched")
     end).
Proof.
  induction urls as [|url rest IH]; [apply scan_end|].
  cbn [first_return].
  destruct (url_step_says c url)
    as [[(domain & Hin & Hoccurs) Hstep]|[Hnone (said & Hsaid & Hstep)]];
    rewrite Hstep.
  - eapply scan_allowed; eassumption.
  - destruct said as [[pattern|]|e].
    + apply scan_matched; assumption.
    + apply scan_next; assumption.
    + apply scan_broken; assumption.
Qed.

Lemma url_filter_says c message text urls :
  message_text message = Return (VStr text) ->
  extractUrls (VStr text) = Return urls ->
  url_filter_claim c urls (evaluateUrlFilter (url_filter_object c) message).
Proof.
  intros Htext Hurls. unfold evaluateUrlFilter, url_filter_claim.
  rewrite get_domains, get_patterns, get_url_action. simpl.
  rewrite Htext. simpl. simpl in Hurls. injection Hurls as Hurls. rewrite Hurls.
  assert (Haction : default_to (VStr "block") (default VUndef (VStr <$> url_action c))
                    = VStr (default "block" (url_action c))).
  { destruct (url_action c); reflexivity. }
  rewrite Haction.
  destruct urls as [|url rest]; [reflexivity|].
  apply url_loop_says.
Qed.

(** What the patterns say is one thing only. *)
Lemma first_pattern_one (url : string) (l : list string) said said' :
  first_pattern url l said -> first_pattern url l said' -> said = said'.
Proof.
  intros Hsaid. revert said'.
  induction Hsaid as [|p rest Hp|p rest r found Hp Hfound|p rest r said Hp Hfound _ IH];
    intros said' Hsaid'; inversion Hsaid'; subst; try congruence.
  apply IH. assumption.
Qed.

Lemma first_pattern_throws (url : string) (l : list string) e :
  first_pattern url l (Throw e) -> e = SyntaxError.
Proof.
  intros Hsaid. remember (Throw e) as said eqn:Hthrow.
  induction Hsaid; try congruence. apply IHHsaid. exact Hthrow.
Qed.

Lemma url_scan_claim_one c (urls : list string) result result' :
  url_scan_claim c urls result -> url_scan_claim c urls result' -> result = result'.
Proof.
  assert (Hnot : forall url domain,
            domain ∈ default [] (domains c) ->
            occurs_in domain (judged_by url) ->
            Forall (fun domain => ~ occurs_in domain (judged_by url))
              (default [] (domains c)) -> False).
  { intros url domain Hin Hoccurs Hnone.
    exact (proj1 (Forall_forall _ _) Hnone domain Hin Hoccurs). }
  intros Hscan. revert result'.
  induction Hscan
    as [|url rest domain Hin Hoccurs|url rest e Hnone Hsaid
        |url rest pattern Hnone Hsaid|url rest result Hnone Hsaid _ IH];
    intros result' Hscan'; inversion Hscan'; subst;
    try reflexivity;
    try (exfalso; eapply Hnot; eassumption);
    try (match goal with
         | [ Hone : first_pattern ?u ?l ?x, Hother : first_pattern ?u ?l ?y |- _ ] =>
             pose proof (first_pattern_one u l x y Hone Hother) as Heq;
             try discriminate Heq; try (injection Heq as ->; reflexivity)
         end).
  apply IH. assumption.
Qed.

Lemma url_scan_claim_throws c (urls : list string) e :
  url_scan_claim c urls (Throw e) -> e = SyntaxError.
Proof.
  intros Hscan. remember (Throw e) as result eqn:Hthrow.
  induction Hscan; try congruence.
  - injection Hthrow as ->. eapply first_pattern_throws. eassumption.
  - apply IHHscan. exact Hthrow.
Qed.

(** C2, amended.  For a URL filter with configuration [{domains?,
    patterns?, action (default 'block')}] and a message with text [text]
    from which [extractUrls] takes [urls], the evaluator does what
    [url_filter_claim] says, and that is one thing only: [allow], not
    matched, when there is no URL; otherwise the URLs are taken in order; a
    listed domain that occurs in the host of the current URL, or in the URL
    itself when it does not parse, allows at once; else the patterns are
    tried in order, where a pattern that does not compile ends the
    evaluation with a SyntaxError, which [evaluateRule] answers with
    [allow], "Evaluation error", and the first pattern with a match gives
    the configured action with [matched]; [allow], not matched, is the
    result when no URL decides.  An allowed domain on the first URL wins
    whatever follows.  In particular [{domains: ['trusted.com']}] against a
    message whose only URL is [https://trusted.com/x] gives [allow], not
    matched. *)
Theorem url_filter_first_match_wins :
  (forall (c : url_filter_config) (message : value) (text : string) urls,
      message_text message = Return (VStr text) ->
      extractUrls (VStr text) = Return urls ->
      url_filter_claim c urls (evaluateUrlFilter (url_filter_object c) message)) /\
  (forall (c : url_filter_config) urls result result',
      url_filter_claim c urls result -> url_filter_claim c urls result' ->
      result = result') /\
  (forall (c : url_filter_config) (message : value) (text url domain : string) rest,
      message_text message = Return (VStr text) ->
      extractUrls (VStr text) = Return (url :: rest) ->
      domain ∈ default [] (domains c) ->
      (exists pre post, judged_by url = pre +:+ domain +:+ post) ->
      evaluateUrlFilter (url_filter_object c) message
      = Return {| action := VStr "allow";
                  reason := "Domain allowed: " +:+ judged_by url;
                  matched := false |}) /\
  (forall (rule : rule_row) (c : url_filter_config) (message : value)
          (text : string) urls e,
      rule_type rule = "url_filter" ->
      rule_config rule = url_filter_object c ->
      message_text message = Return (VStr text) ->
      extractUrls (VStr text) = Return urls ->
      url_filter_claim c urls (Throw e) ->
      evaluateUrlFilter (url_filter_object c) message = Throw SyntaxError /\
      evaluateRule rule message
      = Return {| action := VStr "allow"; reason := "Evaluation error";
                  matched := false |}) /\
  (forall (message : value) (text : string),
      message_text message = Return (VStr text) ->
      extractUrls (VStr text) = Return ["https://trusted.com/x"] ->
      URL_hostname "https://trusted.com/x" = Some "trusted.com" ->
      evaluateUrlFilter (obj [("domains", VArr [VStr "trusted.com"])]) message
      = Return {| action := VStr "allow";
                  reason := "Domain allowed: trusted.com";
                  matched := false |}).
Proof.
  assert (Hone : forall (c : url_filter_config) urls result result',
             url_filter_claim c urls result -> url_filter_claim c urls result' ->
             result = result').
  { intros c [|url rest] result result'; simpl.
    - congruence.
    - apply url_scan_claim_one. }
  assert (Hallowed :
    forall (c : url_filter_config) (message : value) (text url domain : string) rest,
      message_text message = Return (VStr text) ->
      extractUrls (VStr text) = Return (url :: rest) ->
      domain ∈ default [] (domains c) ->
      (exists pre post, judged_by url = pre +:+ domain +:+ post) ->
      evaluateUrlFilter (url_filter_object c) message
      = Return {| action := VStr "allow";
                  reason := "Domain allowed: " +:+ judged_by url;
                  matched := false |}).
  { intros c message text url domain rest Htext Hurls Hin Hoccurs.
    apply (Hone c (url :: rest)).
    - exact (url_filter_says c message text _ Htext Hurls).
    - eapply scan_allowed; eassumption. }
  split; [exact url_filter_says|]. split; [exact Hone|].
  split; [exact Hallowed|]. split.
  - intros rule c message text urls e Htype Hconfig Htext Hurls Hclaim.
    assert (Hthrow : evaluateUrlFilter (url_filter_object c) message = Throw e).
    { apply (Hone c urls); [|exact Hclaim].
      exact (url_filter_says c message text _ Htext Hurls). }
    assert (He : e = SyntaxError).
    { destruct urls as [|url rest]; [discriminate Hclaim|].
      eapply url_scan_claim_throws. exact Hclaim. }
    subst e. split; [exact Hthrow|].
    rewrite (evaluateRule_url rule message Htype), Hconfig, Hthrow. reflexivity.
  - intros message text Htext Hurls Hhost.
    pose (c := {| domains := Some ["trusted.com"]; patterns := None;
                  url_action := None |}).
    assert (Hjudged : judged_by "https://trusted.com/x" = "trusted.com").
    { unfold judged_by. rewrite Hhost. reflexivity. }
    assert (Hrun := Hallowed c message text "https://trusted.com/x" "trusted.com" []
                      Htext Hurls).
    rewrite Hjudged in Hrun. apply Hrun.
    + apply list_elem_of_singleton. reflexivity.
    + exists "", "". reflexivity.
Qed.

End UrlFacts.

(** C2 on the small runtime: the first URL is on the allowed domain, which
    decides although the second matches a pattern; behind a pattern that
    does not compile nothing is looked at. *)
Lemma url_filter_first_match_wins_witness :
  let c := {| domains := Some ["trusted.com"]; patterns := Some ["bitly"];
              url_action := None |} in
  let text := "see https://trusted.com/x and http://bitly/abc" in
  let message := obj [("text", VStr text)] in
  let broken := {| domains := None; patterns := Some ["("; "bitly"];
                   url_action := None |} in
  let rule := {| id := "r1"; user_id := "u1"; rule_type := "url_filter";
                 rule_name := "links"; rule_description := None;
                 rule_config := url_filter_object broken;
                 priority := 1; is_active := true; created_at := 0;
                 updated_at := 0; created_by := Some "u1"; updated_by := None |} in
  (message_text message = Return (VStr text) /\
   extractUrls (VStr text) = Return ["https://trusted.com/x"; "http://bitly/abc"] /\
   judged_by (H := Small.runtime) "https://trusted.com/x" = "trusted.com") /\
  url_filter_claim (H := Small.runtime) c
    ["https://trusted.com/x"; "http://bitly/abc"]
    (evaluateUrlFilter (H := Small.runtime) (url_filter_object c) message) /\
  evaluateUrlFilter (H := Small.runtime) (url_filter_object c) message
  = Return {| action := VStr "allow"; reason := "Domain allowed: trusted.com";
              matched := false |} /\
  (evaluateUrlFilter (H := Small.runtime) (url_filter_object broken) message
   = Throw SyntaxError /\
   evaluateRule (H := Small.runtime) rule message
   = Return {| action := VStr "allow"; reason := "Evaluation error";
               matched := false |}) /\
  evaluateUrlFilter (H := Small.runtime)
    (obj [("domains", VArr [VStr "trusted.com"])])
    (obj [("text", VStr "https://trusted.com/x")])
  = Return {| action := VStr "allow"; reason := "Domain allowed: trusted.com";
              matched := false |}.
Proof.
  intros c text message broken rule.
  assert (Htext : message_text message = Return (VStr text)) by reflexivity.
  assert (Hurls : extractUrls (VStr text)
                  = Return ["https://trusted.com/x"; "http://bitly/abc"])
    by reflexivity.
  assert (Hjudged : judged_by (H := Small.runtime) "https://trusted.com/x"
                    = "trusted.com") by reflexivity.
  split; [repeat split; assumption|]. split; [|split; [|split]].
  - exact (proj1 (url_filter_first_match_wins (H := Small.runtime))
             c message text _ Htext Hurls).
  - assert (Hrun := proj1 (proj2 (proj2
                      (url_filter_first_match_wins (H := Small.runtime))))
                      c message text "https://trusted.com/x" "trusted.com"
                      ["http://bitly/abc"] Htext Hurls).
    rewrite Hjudged in Hrun. apply Hrun.
    + apply list_elem_of_here.
    + exists "", "". reflexivity.
  - apply (proj1 (proj2 (proj2 (proj2
             (url_filter_first_match_wins (H := Small.runtime)))))
             rule broken message text _ SyntaxError eq_refl eq_refl Htext Hurls).
    apply scan_broken; [constructor|].
    apply pattern_broken. reflexivity.
  - exact (proj2 (proj2 (proj2 (proj2
             (url_filter_first_match_wins (H := Small.runtime)))))
             (obj [("text", VStr "https://trusted.com/x")]) "https://trusted.com/x"
             eq_refl eq_refl eq_refl).
Defined.

(** A pattern that does not compile hides the pattern behind it: [bitly]
    matches the URL, yet the rule answers [allow], "Evaluation error".  And
    a URL that does not parse has no host, yet it is allowed for the domain
    that occurs in its path, although a pattern matches it. *)
Lemma broken_pattern_hides_a_match :
  let message := obj [("text", VStr "see http://bitly/abc")] in
  let rule := {| id := "r1"; user_id := "u1"; rule_type := "url_filter";
                 rule_name := "links"; rule_description := None;
                 rule_config := obj [("patterns", VArr [VStr "("; VStr "bitly"])];
                 priority := 1; is_active := true; created_at := 0;
                 updated_at := 0; created_by := Some "u1"; updated_by := None |} in
  let hostless := obj [("text", VStr "http://?evil/trusted.com")] in
  let trusting := obj [("domains", VArr [VStr "trusted.com"]);
                       ("patterns", VArr [VStr "evil"])] in
  (extractUrls (VStr "see http://bitly/abc") = Return ["http://bitly/abc"] /\
   Small.RegExp_new "(" "" = None /\
   match Small.RegExp_new "bitly" "" with
   | Some r => Small.String_match "http://bitly/abc" r
   | None => None
   end = Some ["bitly"] /\
   evaluateUrlFilter (H := Small.runtime) (rule_config rule) message
   = Throw SyntaxError /\
   evaluateRule (H := Small.runtime) rule message
   = Return {| action := VStr "allow"; reason := "Evaluation error";
               matched := false |} /\
   evaluateRule (H := Small.runtime) rule message
   <> Return {| action := VStr "block"; reason := "URL matched pattern: bitly";
                matched := true |}) /\
  (extractUrls (VStr "http://?evil/trusted.com") = Return ["http://?evil/trusted.com"] /\
   Small.URL_hostname "http://?evil/trusted.com" = None /\
   match Small.RegExp_new "evil" "" with
   | Some r => Small.String_match "http://?evil/trusted.com" r
   | None => None
   end = Some ["evil"] /\
   evaluateUrlFilter (H := Small.runtime) trusting hostless
   = Return {| action := VStr "allow";
               reason := "Domain allowed: http://?evil/trusted.com";
               matched := false |}).
Proof.
  intros message rule hostless trusting.
  assert (Hrun : evaluateRule (H := Small.runtime) rule message
                 = Return {| action := VStr "allow"; reason := "Evaluation error";
                             matched := false |})
    by (vm_compute; reflexivity).
  split.
  - split; [reflexivity|]. split; [reflexivity|].
    split; [vm_compute; reflexivity|].
    split; [vm_compute; reflexivity|]. split; [exact Hrun|].
    rewrite Hrun. discriminate.
  - split; [reflexivity|]. split; [reflexivity|].
    split; [vm_compute; reflexivity|].
    vm_compute. reflexivity.
Qed.

(** ** Validation *)

Lemma validateRule_returns (candidate : value) :
  exists v, validateRule candidate = Return v.
Proof. unfold validateRule. destruct (_ <- _ ;; _); simpl; eauto. Qed.

(** C10.  A candidate whose [rule_type] is [keyword_filter], [url_filter] or
    [content_filter] and which has no [rule_config] is answered with
    [isValid = false] and exactly the one error "Validation error occurred":
    the type-specific branch faults on the missing configuration, and the
    errors collected before it, "Rule configuration is required" among them,
    are not reported. *)
Theorem validateRule_missing_config_is_generic_error
    (m : gmap string value) (type : string) :
  m !! "rule_type" = Some (VStr type) ->
  type = "keyword_filter" \/ type = "url_filter" \/ type = "content_filter" ->
  m !! "rule_config" = None ->
  validateRule (VObj m) = Return validation_error /\
  "Rule configuration is required" ∉ errors validation_error.
Proof.
  intros Htype Hknown Hconfig. split.
  - unfold validateRule, validate_specific. simpl. rewrite Htype, Hconfig. simpl.
    destruct Hknown as [-> | [-> | ->]]; reflexivity.
  - unfold validation_error. simpl. intros Hin.
    apply list_elem_of_singleton in Hin. discriminate Hin.
Qed.

Lemma validateRule_missing_config_is_generic_error_witness :
  let m : gmap string value :=
    list_to_map [("rule_type", VStr "url_filter"); ("rule_name", VStr "links")] in
  (m !! "rule_type" = Some (VStr "url_filter") /\ m !! "rule_config" = None) /\
  validateRule (VObj m) = Return validation_error.
Proof.
  intros m. split; [split; reflexivity|].
  exact (proj1 (validateRule_missing_config_is_generic_error m "url_filter"
                  eq_refl (or_intror (or_introl eq_refl)) eq_refl)).
Defined.

(** C6, as the specification states it, fails for the empty sequence: a
    keyword filter whose [keywords] is [[]] is valid. *)
Lemma validateRule_accepts_empty_keywords :
  let candidate :=
    obj [("rule_type", VStr "keyword_filter"); ("rule_name", VStr "no spam");
         ("rule_config", obj [("keywords", VArr [])])] in
  validateRule candidate = Return {| isValid := true; errors := [] |}.
Proof. reflexivity. Qed.

(** C6, amended.  [validateRule] never throws, and a candidate of type
    [keyword_filter] whose configuration is there ([rule_config] is neither
    [undefined] nor [null]) and whose [keywords] is absent or is not an array
    is answered with [isValid = false] and the error "Keywords array is
    required for keyword_filter rule type", which mentions "keywords".  An
    array passes this check whatever it holds, the empty array included:
    with such [keywords] that error is not reported, and a candidate that
    also has a name is valid. *)
Theorem validateRule_requires_keywords_array :
  (forall candidate, exists v, validateRule candidate = Return v) /\
  (forall (m : gmap string value) (config keywords : value),
      m !! "rule_type" = Some (VStr "keyword_filter") ->
      m !! "rule_config" = Some config ->
      get config "keywords" = Return keywords ->
      isArray keywords = false ->
      exists v,
        validateRule (VObj m) = Return v /\
        isValid v = false /\
        "Keywords array is required for keyword_filter rule type" ∈ errors v /\
        mentions "keywords" "Keywords array is required for keyword_filter rule type" = true) /\
  (forall (m config : gmap string value) (held : list value),
      m !! "rule_type" = Some (VStr "keyword_filter") ->
      m !! "rule_config" = Some (VObj config) ->
      config !! "keywords" = Some (VArr held) ->
      exists v,
        validateRule (VObj m) = Return v /\
        ("Keywords array is required for keyword_filter rule type" ∉ errors v) /\
        (forall name, m !! "rule_name" = Some (VStr name) -> name <> "" ->
         v = {| isValid := true; errors := [] |})).
Proof.
  split; [exact validateRule_returns|]. split.
  - intros m config keywords Htype Hconfig Hget Harray.
    unfold validateRule, validate_specific. simpl. rewrite Htype, Hconfig. simpl.
    rewrite Hget. simpl. rewrite Harray, orb_true_r. simpl.
    eexists. split; [reflexivity|]. simpl.
    repeat split.
    + rewrite length_app. simpl. rewrite Nat.add_1_r. reflexivity.
    + apply elem_of_app. right. apply list_elem_of_here.
  - intros m config held Htype Hconfig Hkeywords.
    unfold validateRule, validate_specific. simpl. rewrite Htype, Hconfig. simpl.
    rewrite Hkeywords. simpl.
    eexists. split; [reflexivity|]. simpl. split.
    + unfold push_if. destruct (negb (truthy (default VUndef (m !! "rule_name"))));
        intros Hin.
      * apply list_elem_of_singleton in Hin. discriminate Hin.
      * inversion Hin.
    + intros name Hname Hfilled. rewrite Hname. simpl.
      apply String.eqb_neq in Hfilled. rewrite Hfilled. reflexivity.
Qed.

Lemma validateRule_requires_keywords_array_witness :
  let m : gmap string value :=
    list_to_map [("rule_type", VStr "keyword_filter"); ("rule_name", VStr "no spam");
                 ("rule_config", obj [("keywords", VStr "spam")])] in
  let config : gmap string value :=
    list_to_map [("keywords", VArr [VInt 5; VNull; VArr []])] in
  let m' : gmap string value :=
    list_to_map [("rule_type", VStr "keyword_filter"); ("rule_name", VStr "no spam");
                 ("rule_config", VObj config)] in
  (m !! "rule_type" = Some (VStr "keyword_filter") /\
   m !! "rule_config" = Some (obj [("keywords", VStr "spam")]) /\
   get (obj [("keywords", VStr "spam")]) "keywords" = Return (VStr "spam") /\
   isArray (VStr "spam") = false) /\
  (exists v, validateRule (VObj m) = Return v /\ isValid v = false) /\
  (m' !! "rule_type" = Some (VStr "keyword_filter") /\
   m' !! "rule_config" = Some (VObj config) /\
   config !! "keywords" = Some (VArr [VInt 5; VNull; VArr []]) /\
   m' !! "rule_name" = Some (VStr "no spam") /\ "no spam" <> "") /\
  validateRule (VObj m') = Return {| isValid := true; errors := [] |}.
Proof.
  intros m config m'. split; [repeat split; reflexivity|]. split; [|split].
  - destruct (proj1 (proj2 validateRule_requires_keywords_array) m
                (obj [("keywords", VStr "spam")]) (VStr "spam")
                eq_refl eq_refl eq_refl eq_refl) as (v & Hv & Hinvalid & _).
    exists v. split; assumption.
  - repeat split; try reflexivity. discriminate.
  - destruct (proj2 (proj2 validateRule_requires_keywords_array) m' config
                [VInt 5; VNull; VArr []] eq_refl eq_refl eq_refl)
      as (v & Hv & _ & Hvalid).
    rewrite Hv. f_equal. apply (Hvalid "no spam"); [reflexivity | discriminate].
Defined.

(** ** The store monad *)

Lemma query_succeeds {A} (statement : db -> outcome A * db) (d : db) :
  next_query_succeeds d -> query statement d = statement (after_query d).
Proof.
  unfold next_query_succeeds, query, after_query.
  destruct d as [rules templates audit schedule n t]; simpl.
  destruct schedule as [|[|] rest]; simpl; intros Hok;
    [reflexivity | discriminate Hok | reflexivity].
Qed.

(** ** Evaluation of all the rules of an owner *)

Section CoordinatorFacts.
Context `{Runtime}.

Lemma getUserRules_active (userId : string) (d : db) :
  next_query_succeeds d ->
  getUserRules userId (obj [("is_active", VBool true)]) d
  = (Return (active_rules userId d), after_query d).
Proof.
  intros Hok. unfold getUserRules, stry_catch, sbind, pure.
  change (default_to (obj []) (obj [("is_active", VBool true)]))
    with (obj [("is_active", VBool true)]).
  change (get (obj [("is_active", VBool true)]) "rule_type") with (Return VUndef).
  change (get (obj [("is_active", VBool true)]) "is_active") with (Return (VBool true)).
  cbn [truthy]. rewrite (query_succeeds _ d Hok).
  unfold select_user_rules, bind_param. cbn [from_option nullish].
  rewrite pg_boolean_bool. unfold active_rules.
  f_equal. f_equal. f_equal. apply List.filter_ext. intros row.
  rewrite andb_true_r. destruct (is_active row); reflexivity.
Qed.

Lemma evaluate_loop_map message rules results :
  evaluate_loop message rules results
  = results ++ map (evaluate_entry message) rules.
Proof.
  revert results. induction rules as [|rule rest IH]; intros results; simpl.
  - rewrite app_nil_r. reflexivity.
  - rewrite IH, <- app_assoc. reflexivity.
Qed.

Lemma evaluate_entry_reports message rule :
  exists ev, evaluateRule rule message = Return ev
             /\ evaluate_entry message rule = report_entry rule ev.
Proof.
  destruct (evaluateRule_returns rule message) as [ev Hev].
  exists ev. split; [assumption|]. unfold evaluate_entry. rewrite Hev. reflexivity.
Qed.

Lemma entries_report message (rules : list rule_row) :
  Forall2 (fun rule entry =>
             exists ev, evaluateRule rule message = Return ev
                        /\ entry = report_entry rule ev)
    rules (map (evaluate_entry message) rules).
Proof.
  induction rules as [|rule rest IH]; simpl; constructor;
    [apply evaluate_entry_reports | exact IH].
Qed.

Lemma blocks_spec r :
  blocks r = true <-> e_action r = VStr "block" /\ e_matched r = true.
Proof.
  unfold blocks, is_string. rewrite andb_true_iff.
  destruct (e_action r) as [| |b|n|s|l|m]; try (split; intros [? ?]; discriminate).
  split; intros [Hs Hm]; split; try assumption.
  - apply String.eqb_eq in Hs. congruence.
  - injection Hs as ->. reflexivity.
Qed.

(** C1.  When the store answers the rule list query, [evaluateRules]
    returns a report with one entry per active rule of the owner, in the
    order of the rule list, each holding the result of [evaluateRule] on
    that rule; [blocking_rules] is the sub-list of the entries whose action
    is the string "block" and whose [matched] is true; [final_action] is
    "block" when that sub-list is not empty and "allow" otherwise.  An
    entry whose action is "flag" is never a blocking one, so matches that
    are all flagged give "allow"; an owner with no active rule gets "allow"
    and two empty lists. *)
Theorem evaluateRules_reports_every_rule
    (message : value) (userId : string) (d : db) :
  next_query_succeeds d ->
  exists report,
    getUserRules userId (obj [("is_active", VBool true)]) d
    = (Return (active_rules userId d), after_query d) /\
    evaluateRules message userId d = (Return report, after_query d) /\
    Forall2 (fun rule entry =>
               exists ev, evaluateRule rule message = Return ev
                          /\ entry = report_entry rule ev)
      (active_rules userId d) (rule_evaluations report) /\
    blocking_rules report
    = List.filter (fun entry => is_string "block" (e_action entry) && e_matched entry)
        (rule_evaluations report) /\
    final_action report
    = match blocking_rules report with [] => "allow" | _ :: _ => "block" end /\
    (final_action report = "block" <->
     Exists (fun entry => e_action entry = VStr "block" /\ e_matched entry = true)
       (rule_evaluations report)) /\
    Forall (fun entry => e_action entry <> VStr "flag") (blocking_rules report) /\
    (Forall (fun entry => e_matched entry = true -> e_action entry = VStr "flag")
       (rule_evaluations report) ->
     final_action report = "allow") /\
    (active_rules userId d = [] ->
     report = {| final_action := "allow"; rule_evaluations := [];
                 blocking_rules := [] |}).
Proof.
  intros Hok.
  pose (results := map (evaluate_entry message) (active_rules userId d)).
  exists {| final_action := if (0 <? length (List.filter blocks results))%nat
                            then "block" else "allow";
            rule_evaluations := results;
            blocking_rules := List.filter blocks results |}.
  cbn [final_action rule_evaluations blocking_rules].
  assert (Hfinal :
    (if (0 <? length (List.filter blocks results))%nat then "block" else "allow")
    = match List.filter blocks results with [] => "allow" | _ :: _ => "block" end).
  { destruct (List.filter blocks results); reflexivity. }
  assert (Hiff :
    match List.filter blocks results with [] => "allow" | _ :: _ => "block" end = "block"
    <-> Exists (fun entry => e_action entry = VStr "block" /\ e_matched entry = true)
          results).
  { rewrite List.Exists_exists. split.
    - destruct (List.filter blocks results) as [|entry rest] eqn:Hfilter;
        [discriminate|]. intros _.
      assert (Hin : List.In entry (List.filter blocks results))
        by (rewrite Hfilter; left; reflexivity).
      apply List.filter_In in Hin as [Hin Hblocks].
      exists entry. split; [assumption|]. apply blocks_spec. assumption.
    - intros (entry & Hin & Hblocks). apply blocks_spec in Hblocks.
      assert (Hin' : List.In entry (List.filter blocks results))
        by (apply List.filter_In; split; assumption).
      destruct (List.filter blocks results); [destruct Hin'|reflexivity]. }
  split; [apply getUserRules_active; assumption|].
  split.
  { unfold evaluateRules, stry_catch, sbind.
    rewrite (getUserRules_active userId d Hok). unfold sreturn.
    rewrite evaluate_loop_map. reflexivity. }
  split.
  { apply entries_report. }
  split; [reflexivity|].
  split; [exact Hfinal|].
  split; [rewrite Hfinal; exact Hiff|].
  split.
  { apply List.Forall_forall. intros entry Hin.
    apply List.filter_In in Hin as [_ Hblocks]. apply blocks_spec in Hblocks.
    destruct Hblocks as [Hblock _]. rewrite Hblock. discriminate. }
  split.
  { intros Hflag. rewrite Hfinal.
    destruct (List.filter blocks results) as [|entry rest] eqn:Hfilter;
      [reflexivity|].
    assert (Hin : List.In entry (List.filter blocks results))
      by (rewrite Hfilter; left; reflexivity).
    apply List.filter_In in Hin as [Hin Hblocks]. apply blocks_spec in Hblocks.
    destruct Hblocks as [Hblock Hmatched].
    rewrite List.Forall_forall in Hflag. specialize (Hflag entry Hin Hmatched).
    congruence. }
  intros Hnone. subst results. rewrite Hnone. reflexivity.
Qed.

End CoordinatorFacts.

(** C1 on the small runtime: of the four rules in the store, two are active
    rules of the owner; the message matches both, one blocks and one flags. *)
Lemma evaluateRules_reports_every_rule_witness :
  let message := obj [("text", VStr "this is spam spam")] in
  next_query_succeeds sample_db /\
  exists report,
    evaluateRules (H := Small.runtime) message "u1" sample_db
    = (Return report, after_query sample_db) /\
    map e_rule_id (rule_evaluations report) = ["r3"; "r1"] /\
    map e_rule_id (blocking_rules report) = ["r3"] /\
    final_action report = "block".
Proof.
  intros message. split; [reflexivity|].
  destruct (evaluateRules_reports_every_rule (H := Small.runtime)
              message "u1" sample_db eq_refl)
    as (report & _ & Hrun & _).
  exists report. split; [exact Hrun|].
  assert (Hreport : Return (A := verdict) report
                    = fst (evaluateRules (H := Small.runtime) message "u1" sample_db))
    by (rewrite Hrun; reflexivity).
  vm_compute in Hreport. injection Hreport as ->.
  repeat split; reflexivity.
Defined.

(** ** Partial updates *)

(** JSON data goes through the store unchanged. *)
Lemma jsonify_json_data : forall v, json_data v -> jsonify v = v.
Proof.
  fix IH 2. intros v [ |b|q|s|l Hl|m Hm]; try reflexivity.
  - cbn [jsonify]. f_equal.
    revert l Hl. fix IHl 2. intros l [|x rest Hx Hrest]; [reflexivity|].
    cbn [map]. rewrite (IH x Hx), (IHl rest Hrest). reflexivity.
  - cbn [jsonify]. f_equal. apply map_eq. intros k. rewrite lookup_omap.
    destruct (m !! k) as [x|] eqn:Hk; [|reflexivity]. cbn.
    pose proof (Hm k x Hk) as Hx. rewrite (IH x Hx). destruct Hx; reflexivity.
Qed.

Lemma json_data_union (custom config : gmap string value) :
  json_data (VObj custom) -> json_data (VObj config) ->
  json_data (VObj (custom ∪ config)).
Proof.
  intros Hcustom Hconfig. inversion Hcustom as [ | | | | |m Hm]; subst.
  inversion Hconfig as [ | | | | |m' Hm']; subst.
  constructor. intros k x Hk. apply lookup_union_Some_raw in Hk as [Hk|[_ Hk]].
  - exact (Hm k x Hk).
  - exact (Hm' k x Hk).
Qed.

Lemma json_data_obj (fields : list (string * value)) :
  Forall (fun field => json_data (snd field)) fields -> json_data (obj fields).
Proof.
  intros Hfields. constructor. intros k x Hk.
  apply elem_of_list_to_map_2 in Hk. rewrite Forall_forall in Hfields.
  exact (Hfields (k, x) Hk).
Qed.

Lemma stored_members_json (m : gmap string value) :
  json_data (VObj m) -> stored_members m = m.
Proof.
  intros Hm. apply jsonify_json_data in Hm. cbn [jsonify] in Hm.
  injection Hm as Hm. exact Hm.
Qed.

Lemma as_stored_json (u : rule_update) : carries_json u -> as_stored u = u.
Proof.
  intros Hjson. destruct u as [name description [c|] prio active]; [|reflexivity].
  unfold as_stored. cbn. rewrite (stored_members_json c (Hjson c eq_refl)). reflexivity.
Qed.

Section UpdateFacts.
Context `{Runtime}.

(** The audit recorder returns, and leaves everything but the audit log
    and the fault schedule as it was. *)
Lemma logAudit_returns ruleId action userId changes ip ua (d : db) :
  exists d',
    logAudit ruleId action userId changes ip ua d = (Return tt, d') /\
    privacy_rules d' = privacy_rules d /\
    rule_templates d' = rule_templates d /\
    issued d' = issued d /\ now d' = now d.
Proof.
  unfold logAudit, stry_catch, query, insert_audit, sreturn.
  destruct (faults d) as [|[|] rest]; simpl; eexists; split; try reflexivity;
    repeat split; reflexivity.
Qed.

Lemma get_update_fields u :
  get (update_object u) "rule_name" = Return (default VUndef (VStr <$> new_rule_name u)) /\
  get (update_object u) "rule_description"
  = Return (default VUndef (VStr <$> new_rule_description u)) /\
  get (update_object u) "rule_config"
  = Return (default VUndef (VObj <$> new_rule_config u)) /\
  get (update_object u) "priority" = Return (default VUndef (VInt <$> new_priority u)) /\
  get (update_object u) "is_active" = Return (default VUndef (VBool <$> new_is_active u)).
Proof.
  destruct u as [[name|] [description|] [config|] [prio|] [active|]];
    repeat split; reflexivity.
Qed.

Lemma bind_param_text (o : option string) :
  bind_param pg_text (default VUndef (VStr <$> o)) = Some o.
Proof.
  destruct o as [s|]; [|reflexivity].
  unfold bind_param. simpl. rewrite pg_text_string. reflexivity.
Qed.

Lemma bind_param_integer (o : option Z) :
  (forall p, o = Some p -> (- 2 ^ 31 <= p < 2 ^ 31)%Z) ->
  bind_param pg_integer (default VUndef (VInt <$> o)) = Some o.
Proof.
  intros Hfit. destruct o as [p|]; [|reflexivity].
  unfold bind_param.
  change (default VUndef (VInt <$> Some p)) with (VInt p).
  change (nullish (VInt p)) with false. cbv iota.
  rewrite (pg_integer_int p (Hfit p eq_refl)). reflexivity.
Qed.

Lemma bind_param_boolean (o : option bool) :
  bind_param pg_boolean (default VUndef (VBool <$> o)) = Some o.
Proof.
  destruct o as [b|]; [|reflexivity].
  unfold bind_param. simpl. rewrite pg_boolean_bool. reflexivity.
Qed.

(** What the UPDATE statement does with a well-typed partial update. *)
Lemma update_rule_updated (u : rule_update) (userId ruleId : string) (d : db) :
  fits_integer u ->
  update_rule
    (default VUndef (VStr <$> new_rule_name u))
    (default VUndef (VStr <$> new_rule_description u))
    (if truthy (default VUndef (VObj <$> new_rule_config u))
     then default VUndef (VObj <$> new_rule_config u) else VNull)
    (default VUndef (VInt <$> new_priority u))
    (default VUndef (VBool <$> new_is_active u))
    userId ruleId d
  = (Return (map (updated_claim (as_stored u) userId (now d))
               (List.filter (owned_by ruleId userId) (privacy_rules d))),
     with_rules
       (map (fun row => if owned_by ruleId userId row
                        then updated_claim (as_stored u) userId (now d) row else row)
          (privacy_rules d)) d).
Proof.
  intros Hfit. unfold update_rule.
  rewrite !bind_param_text, (bind_param_integer _ Hfit), bind_param_boolean.
  assert (Hset : forall row,
    {| id := id row; user_id := user_id row; rule_type := rule_type row;
       rule_name := coalesce (new_rule_name u) (rule_name row);
       rule_description :=
         match new_rule_description u with
         | Some text => Some text
         | None => rule_description row
         end;
       rule_config :=
         if nullish (if truthy (default VUndef (VObj <$> new_rule_config u))
                     then default VUndef (VObj <$> new_rule_config u) else VNull)
         then rule_config row
         else jsonify (if truthy (default VUndef (VObj <$> new_rule_config u))
                       then default VUndef (VObj <$> new_rule_config u) else VNull);
       priority := coalesce (new_priority u) (priority row);
       is_active := coalesce (new_is_active u) (is_active row);
       created_at := created_at row; updated_at := now d;
       created_by := created_by row; updated_by := Some userId |}
    = updated_claim (as_stored u) userId (now d) row).
  { intros row. unfold updated_claim, as_stored.
    destruct (new_rule_name u), (new_rule_config u), (new_priority u),
      (new_is_active u); reflexivity. }
  f_equal.
  - f_equal. apply map_ext. exact Hset.
  - f_equal. apply map_ext. intros row. rewrite Hset. reflexivity.
Qed.

Lemma map_no_hit {A} (hit : A -> bool) (f : A -> A) (l : list A) :
  List.filter hit l = [] ->
  map (fun x => if hit x then f x else x) l = l.
Proof.
  induction l as [|x l IH]; simpl; [reflexivity|].
  destruct (hit x); [discriminate|]. intros Hnone. rewrite (IH Hnone). reflexivity.
Qed.

Lemma updateRule_found (ruleId : string) (u : rule_update) (userId : string)
    ip ua (d : db) (row : rule_row) (more : list rule_row) :
  next_query_succeeds d ->
  fits_integer u ->
  List.filter (owned_by ruleId userId) (privacy_rules d) = row :: more ->
  exists d',
    updateRule ruleId (update_object u) userId ip ua d
    = (Return (updated_claim (as_stored u) userId (now d) row), d') /\
    privacy_rules d'
    = map (fun r => if owned_by ruleId userId r
                    then updated_claim (as_stored u) userId (now d) r else r)
        (privacy_rules d).
Proof.
  intros Hok Hfit Hrows.
  destruct (get_update_fields u) as (Hn & Hd & Hc & Hp & Ha).
  unfold updateRule, stry_catch, sbind, pure.
  rewrite Hn, Hd, Hc, Hp, Ha, (query_succeeds _ d Hok),
    (update_rule_updated u userId ruleId _ Hfit).
  change (privacy_rules (after_query d)) with (privacy_rules d).
  change (now (after_query d)) with (now d).
  rewrite Hrows. cbn [map].
  match goal with
  | |- context [logAudit ?a ?b ?c ?e ?f ?g ?s] =>
      destruct (logAudit_returns a b c e f g s) as (d' & Hrun & Hrules & _)
  end.
  rewrite Hrun. exists d'. split; [reflexivity|]. rewrite Hrules. reflexivity.
Qed.

Lemma updateRule_missing (ruleId : string) (u : rule_update) (userId : string)
    ip ua (d : db) :
  next_query_succeeds d ->
  fits_integer u ->
  List.filter (owned_by ruleId userId) (privacy_rules d) = [] ->
  exists d',
    updateRule ruleId (update_object u) userId ip ua d = (Throw not_found, d') /\
    privacy_rules d' = privacy_rules d /\
    rule_audit_log d' = rule_audit_log d.
Proof.
  intros Hok Hfit Hrows.
  destruct (get_update_fields u) as (Hn & Hd & Hc & Hp & Ha).
  unfold updateRule, stry_catch, sbind, pure.
  rewrite Hn, Hd, Hc, Hp, Ha, (query_succeeds _ d Hok),
    (update_rule_updated u userId ruleId _ Hfit).
  change (privacy_rules (after_query d)) with (privacy_rules d).
  rewrite Hrows. cbn [map]. unfold sthrow.
  eexists. split; [reflexivity|]. split; [|reflexivity].
  cbn [privacy_rules with_rules]. apply map_no_hit. exact Hrows.
Qed.

End UpdateFacts.

(** C7.  For a rule matched by id and owner, when the store answers the
    update, [updateRule] returns the row in which each field the update
    carries has the new value and every other field is unchanged, with
    [updated_at] set to the current time and [updated_by] to the caller; the
    rows that are not matched stay as they are.  The new configuration is
    the carried one as the store holds it, which for JSON data is the
    carried one itself; whatever the update carries, the fields it does not
    carry, the identity of the row and the other rows are kept.  An update
    carrying only [{priority: 5}] leaves [rule_name], [rule_description],
    [rule_config] and [is_active] (and the rule type) unchanged.  When no
    row matches both id and owner the operation fails with "Rule not found
    or access denied" and no rule is modified. *)
Theorem updateRule_changes_only_given_fields `{Runtime} :
  (forall (ruleId : string) (u : rule_update) (userId : string) ip ua (d : db)
          (row : rule_row) (more : list rule_row),
      next_query_succeeds d ->
      fits_integer u ->
      carries_json u ->
      List.filter (owned_by ruleId userId) (privacy_rules d) = row :: more ->
      exists d',
        updateRule ruleId (update_object u) userId ip ua d
        = (Return (updated_claim u userId (now d) row), d') /\
        privacy_rules d'
        = map (fun r => if owned_by ruleId userId r
                        then updated_claim u userId (now d) r else r)
            (privacy_rules d)) /\
  (forall (ruleId userId : string) ip ua (d : db)
          (row : rule_row) (more : list rule_row),
      next_query_succeeds d ->
      List.filter (owned_by ruleId userId) (privacy_rules d) = row :: more ->
      exists row' d',
        updateRule ruleId (obj [("priority", VInt 5)]) userId ip ua d
        = (Return row', d') /\
        rule_name row' = rule_name row /\
        rule_description row' = rule_description row /\
        rule_config row' = rule_config row /\
        is_active row' = is_active row /\
        rule_type row' = rule_type row /\
        priority row' = 5%Z /\
        updated_at row' = now d /\
        updated_by row' = Some userId) /\
  (forall (ruleId : string) (u : rule_update) (userId : string) ip ua (d : db),
      next_query_succeeds d ->
      fits_integer u ->
      List.filter (owned_by ruleId userId) (privacy_rules d) = [] ->
      exists d',
        updateRule ruleId (update_object u) userId ip ua d = (Throw not_found, d') /\
        privacy_rules d' = privacy_rules d /\
        rule_audit_log d' = rule_audit_log d) /\
  (forall (ruleId : string) (u : rule_update) (userId : string) ip ua (d : db)
          (row : rule_row) (more : list rule_row),
      next_query_succeeds d ->
      fits_integer u ->
      List.filter (owned_by ruleId userId) (privacy_rules d) = row :: more ->
      exists row' d',
        updateRule ruleId (update_object u) userId ip ua d = (Return row', d') /\
        rule_name row' = default (rule_name row) (new_rule_name u) /\
        rule_description row'
        = match new_rule_description u with
          | Some text => Some text
          | None => rule_description row
          end /\
        (new_rule_config u = None -> rule_config row' = rule_config row) /\
        priority row' = default (priority row) (new_priority u) /\
        is_active row' = default (is_active row) (new_is_active u) /\
        id row' = id row /\ user_id row' = user_id row /\
        rule_type row' = rule_type row /\
        created_at row' = created_at row /\ created_by row' = created_by row /\
        updated_at row' = now d /\ updated_by row' = Some userId /\
        Forall2 (fun old new => owned_by ruleId userId old = false -> new = old)
          (privacy_rules d) (privacy_rules d')).
Proof.
  split; [|split; [|split; [exact updateRule_missing|]]].
  - intros ruleId u userId ip ua d row more Hok Hfit Hjson Hrows.
    destruct (updateRule_found ruleId u userId ip ua d row more Hok Hfit Hrows)
      as (d' & Hrun & Hrules).
    rewrite (as_stored_json u Hjson) in Hrun, Hrules. exists d'. split; assumption.
  - intros ruleId userId ip ua d row more Hok Hrows.
    pose (u := {| new_rule_name := None; new_rule_description := None;
                  new_rule_config := None; new_priority := Some 5%Z;
                  new_is_active := None |}).
    assert (Hfit : fits_integer u).
    { intros p Hp. injection Hp as <-. split; [apply Z.leb_le|apply Z.ltb_lt]; reflexivity. }
    destruct (updateRule_found ruleId u userId ip ua d row more Hok Hfit Hrows)
      as (d' & Hrun & _).
    exists (updated_claim (as_stored u) userId (now d) row), d'.
    split; [exact Hrun|]. repeat split; reflexivity.
  - intros ruleId u userId ip ua d row more Hok Hfit Hrows.
    destruct (updateRule_found ruleId u userId ip ua d row more Hok Hfit Hrows)
      as (d' & Hrun & Hrules).
    exists (updated_claim (as_stored u) userId (now d) row), d'.
    split; [exact Hrun|].
    assert (Hkept : new_rule_config u = None ->
                    rule_config (updated_claim (as_stored u) userId (now d) row)
                    = rule_config row).
    { intros Hnone. unfold updated_claim, as_stored. cbn. rewrite Hnone. reflexivity. }
    repeat (split; [first [exact Hkept | reflexivity]|]).
    rewrite Hrules. clear. induction (privacy_rules d) as [|r l IH]; cbn [map]; constructor.
    + intros Hown. rewrite Hown. reflexivity.
    + exact IH.
Qed.

(** C7 on the small runtime: the owner raises the priority of a rule and
    replaces the configuration of another; another user who tries the same
    is told the rule is not there. *)
Lemma updateRule_changes_only_given_fields_witness :
  let r1 := sample_rule "r1" "u1"
              (obj [("keywords", VArr [VStr "spam"]); ("action", VStr "flag")]) 1 true in
  let r3 := sample_rule "r3" "u1" (obj [("keywords", VArr [VStr "is"])]) 5 true in
  let carried : gmap string value := {[ "keywords" := VArr [VStr "ham"] ]} in
  let u := {| new_rule_name := None; new_rule_description := None;
              new_rule_config := Some carried; new_priority := None;
              new_is_active := Some false |} in
  (next_query_succeeds sample_db /\
   fits_integer u /\ carries_json u /\
   List.filter (owned_by "r1" "u1") (privacy_rules sample_db) = [r1] /\
   List.filter (owned_by "r3" "u1") (privacy_rules sample_db) = [r3] /\
   List.filter (owned_by "r1" "u2") (privacy_rules sample_db) = []) /\
  (exists row' d',
      updateRule (H := Small.runtime) "r3" (update_object u) "u1" None None sample_db
      = (Return row', d') /\
      rule_config row' = VObj carried /\ is_active row' = false /\
      rule_name row' = rule_name r3 /\ priority row' = priority r3) /\
  (exists row' d',
      updateRule (H := Small.runtime) "r1" (obj [("priority", VInt 5)]) "u1" None None
        sample_db = (Return row', d') /\
      rule_name row' = rule_name r1 /\ rule_config row' = rule_config r1 /\
      is_active row' = is_active r1 /\ priority row' = 5%Z /\
      updated_at row' = 10%Z) /\
  (exists d',
      updateRule (H := Small.runtime) "r1" (obj [("priority", VInt 5)]) "u2" None None
        sample_db = (Throw not_found, d') /\
      privacy_rules d' = privacy_rules sample_db).
Proof.
  intros r1 r3 carried u.
  assert (Hfit : fits_integer u) by (intros p Hp; discriminate Hp).
  assert (Hjson : carries_json u).
  { intros c Hc. injection Hc as <-. constructor. intros k x Hk.
    apply lookup_singleton_Some in Hk as [_ <-]. repeat constructor. }
  split; [split; [reflexivity|]; split; [exact Hfit|]; split; [exact Hjson|];
          repeat split; reflexivity|].
  split; [|split].
  - destruct (proj1 (updateRule_changes_only_given_fields (H := Small.runtime))
                "r3" u "u1" None None sample_db r3 [] eq_refl Hfit Hjson eq_refl)
      as (d' & Hrun & _).
    eexists _, d'. split; [exact Hrun|]. repeat split; reflexivity.
  - destruct (proj1 (proj2 (updateRule_changes_only_given_fields (H := Small.runtime)))
                "r1" "u1" None None sample_db r1 [] eq_refl eq_refl)
      as (row' & d' & Hrun & Hname & _ & Hconfig & Hactive & _ & Hprio & Htime & _).
    exists row', d'. repeat split; assumption.
  - pose (u5 := {| new_rule_name := None; new_rule_description := None;
                   new_rule_config := None; new_priority := Some 5%Z;
                   new_is_active := None |}).
    assert (Hfit5 : fits_integer u5).
    { intros p Hp. injection Hp as <-. split; [apply Z.leb_le|apply Z.ltb_lt]; reflexivity. }
    destruct (proj1 (proj2 (proj2 (updateRule_changes_only_given_fields
                                     (H := Small.runtime))))
                "r1" u5 "u2" None None sample_db eq_refl Hfit5 eq_refl)
      as (d' & Hrun & Hrules & _).
    exists d'. split; assumption.
Defined.

(** ** Audit failures *)

Section AuditFacts.
Context `{Runtime}.

Lemma insert_rule_faults ruleId userId type name description config prio s d :
  insert_rule ruleId userId type name description config prio (with_faults s d)
  = (fst (insert_rule ruleId userId type name description config prio d),
     with_faults s (snd (insert_rule ruleId userId type name description config prio d))).
Proof.
  unfold insert_rule. cbn [privacy_rules with_faults now].
  repeat case_match; reflexivity.
Qed.

Lemma update_rule_faults name description config prio active userId ruleId s d :
  update_rule name description config prio active userId ruleId (with_faults s d)
  = (fst (update_rule name description config prio active userId ruleId d),
     with_faults s (snd (update_rule name description config prio active userId ruleId d))).
Proof.
  unfold update_rule. cbn [privacy_rules with_faults now].
  repeat case_match; reflexivity.
Qed.

Lemma query_scheduled {A} (statement : db -> outcome A * db) (d : db) (b : bool) rest :
  query statement (with_faults (b :: rest) d)
  = if b then (Throw StoreError, with_faults rest d)
    else statement (with_faults rest d).
Proof. destruct b; reflexivity. Qed.

Lemma logAudit_scheduled ruleId action userId changes ip ua (d : db) (b : bool) rest :
  logAudit ruleId action userId changes ip ua (with_faults (b :: rest) d)
  = (Return tt,
     if b then with_faults rest d
     else with_audit
            (rule_audit_log d
             ++ [{| audit_rule_id := ruleId; audit_action := action;
                    audit_user_id := userId; changes := changes;
                    ip_address := ip; user_agent := ua;
                    audit_created_at := now d |}])
            (with_faults rest d)).
Proof. destruct b; reflexivity. Qed.

Lemma logAudit_frame ruleId action userId changes ip ua (s : list bool) (x : db) :
  fst (logAudit ruleId action userId changes ip ua (with_faults s x)) = Return tt /\
  privacy_rules (snd (logAudit ruleId action userId changes ip ua (with_faults s x)))
  = privacy_rules x /\
  rule_templates (snd (logAudit ruleId action userId changes ip ua (with_faults s x)))
  = rule_templates x.
Proof.
  destruct s as [|b rest].
  - unfold logAudit, stry_catch, query. cbn. repeat split; reflexivity.
  - rewrite logAudit_scheduled. destruct b; repeat split; reflexivity.
Qed.

Lemma stry_catch_rethrow {A} (body : store A) (d : db) :
  stry_catch body (fun error => sthrow error) d = body d.
Proof. unfold stry_catch, sthrow. destruct (body d) as [[a|e] d']; reflexivity. Qed.

(** A mutation followed by the recording of it: once the statement has the
    same fate, the rest of the schedule does not show. *)
Lemma recorded_statement_same_outcome {A B}
    (statement : db -> outcome A * db) (k : A -> store B)
    (d : db) (failed : bool) (s1 s2 : list bool) :
  ignores_faults statement ->
  only_records k ->
  same_outcome
    ((a <~ query statement ;; k a)%store (with_faults (failed :: s1) d))
    ((a <~ query statement ;; k a)%store (with_faults (failed :: s2) d)).
Proof.
  intros Hstatement Hk. unfold same_outcome, sbind.
  rewrite !query_scheduled. destruct failed; [repeat split; reflexivity|].
  rewrite !Hstatement. destruct (statement d) as [[a|e] d2]; cbn [fst snd];
    [|repeat split; reflexivity].
  destruct (Hk a d2 s1) as (Hr1 & Hp1 & Ht1), (Hk a d2 s2) as (Hr2 & Hp2 & Ht2).
  repeat split; congruence.
Qed.

Lemma record_row_only_records ruleId action userId (changes : rule_row -> change) ip ua :
  only_records
    (fun row : rule_row =>
       (_ <~ logAudit ruleId action userId (changes row) ip ua ;; sreturn row)%store).
Proof.
  intros row x s. unfold sbind, sreturn.
  destruct (logAudit_frame ruleId action userId (changes row) ip ua s x)
    as (Hr & Hp & Ht).
  destruct (logAudit_frame ruleId action userId (changes row) ip ua (faults x) x)
    as (Hr' & _).
  assert (Hx : with_faults (faults x) x = x) by (destruct x; reflexivity).
  rewrite Hx in Hr'.
  destruct (logAudit _ _ _ _ _ _ (with_faults s x)) as [[[]|e] d1];
    destruct (logAudit _ _ _ _ _ _ x) as [[[]|e'] d2];
    cbn [fst snd] in *; try discriminate; repeat split; assumption.
Qed.

Lemma record_first_only_records ruleId action userId (changes : rule_row -> change) ip ua :
  only_records
    (fun rows : list rule_row =>
       match rows with
       | [] => sthrow not_found
       | row :: _ =>
           (_ <~ logAudit ruleId action userId (changes row) ip ua ;; sreturn row)%store
       end).
Proof.
  intros [|row more] x s.
  - repeat split; reflexivity.
  - apply (record_row_only_records ruleId action userId changes ip ua row x s).
Qed.

Lemma insert_rule_ignores_faults ruleId userId type name description config prio :
  ignores_faults (insert_rule ruleId userId type name description config prio).
Proof. intros s x. apply insert_rule_faults. Qed.

Lemma update_rule_ignores_faults name description config prio active userId ruleId :
  ignores_faults (update_rule name description config prio active userId ruleId).
Proof. intros s x. apply update_rule_faults. Qed.

Lemma delete_rule_ignores_faults ruleId userId :
  ignores_faults (delete_rule ruleId userId).
Proof. intros s x. reflexivity. Qed.

Lemma createRule_same_outcome ruleData userId ip ua d (failed : bool) s1 s2 :
  same_outcome
    (createRule ruleData userId ip ua (with_faults (failed :: s1) d))
    (createRule ruleData userId ip ua (with_faults (failed :: s2) d)).
Proof.
  unfold createRule. rewrite !stry_catch_rethrow.
  unfold sbind at 1 2 3 4 5 6. unfold sbind at 3 4 5 6 7 8. unfold fresh_uuid, pure.
  destruct (get ruleData "rule_type") as [type|e]; [|repeat split; reflexivity].
  destruct (get ruleData "rule_name") as [name|e]; [|repeat split; reflexivity].
  destruct (get ruleData "rule_description") as [description|e];
    [|repeat split; reflexivity].
  destruct (get ruleData "rule_config") as [config|e]; [|repeat split; reflexivity].
  destruct (get ruleData "priority") as [prio|e]; [|repeat split; reflexivity].
  apply (recorded_statement_same_outcome
           (insert_rule (uuidv4 (issued d)) userId type name description config
              (js_or prio (VInt 1)))
           (fun row => (_ <~ logAudit (uuidv4 (issued d)) "CREATE" userId
                               (rule_data ruleData) ip ua ;; sreturn row)%store)
           (with_issued (S (issued d)) d) failed s1 s2).
  - apply insert_rule_ignores_faults.
  - apply (record_row_only_records _ _ _ (fun _ => rule_data ruleData)).
Qed.

Lemma updateRule_same_outcome ruleId updates userId ip ua d (failed : bool) s1 s2 :
  same_outcome
    (updateRule ruleId updates userId ip ua (with_faults (failed :: s1) d))
    (updateRule ruleId updates userId ip ua (with_faults (failed :: s2) d)).
Proof.
  unfold updateRule. rewrite !stry_catch_rethrow.
  unfold sbind at 1 2 3 4 5. unfold sbind at 2 3 4 5 6. unfold pure.
  destruct (get updates "rule_name") as [name|e]; [|repeat split; reflexivity].
  destruct (get updates "rule_description") as [description|e];
    [|repeat split; reflexivity].
  destruct (get updates "rule_config") as [config|e]; [|repeat split; reflexivity].
  destruct (get updates "priority") as [prio|e]; [|repeat split; reflexivity].
  destruct (get updates "is_active") as [active|e]; [|repeat split; reflexivity].
  apply (recorded_statement_same_outcome
           (update_rule name description (if truthy config then config else VNull)
              prio active userId ruleId)
           (fun rows =>
              match rows with
              | [] => sthrow not_found
              | row :: _ =>
                  (_ <~ logAudit ruleId "UPDATE" userId (updates_made updates) ip ua ;;
                   sreturn row)%store
              end)
           d failed s1 s2).
  - apply update_rule_ignores_faults.
  - apply (record_first_only_records _ _ _ (fun _ => updates_made updates)).
Qed.

Lemma deleteRule_same_outcome ruleId userId ip ua d (failed : bool) s1 s2 :
  same_outcome
    (deleteRule ruleId userId ip ua (with_faults (failed :: s1) d))
    (deleteRule ruleId userId ip ua (with_faults (failed :: s2) d)).
Proof.
  unfold deleteRule. rewrite !stry_catch_rethrow.
  apply (recorded_statement_same_outcome
           (delete_rule ruleId userId)
           (fun rows =>
              match rows with
              | [] => sthrow not_found
              | row :: _ =>
                  (_ <~ logAudit ruleId "DELETE" userId (deleted_rule row) ip ua ;;
                   sreturn row)%store
              end)
           d failed s1 s2).
  - apply delete_rule_ignores_faults.
  - apply (record_first_only_records _ _ _ deleted_rule).
Qed.

(** C8.  [logAudit] returns normally in every state, and a failure of its
    insert stays inside it; and for each of create, update and delete, the run in
    which the audit insert fails and the run in which it succeeds give the
    same result and leave the same rules (and templates) in the store,
    whether the mutation itself went through ([failed = false]) or not. *)
Theorem audit_failure_never_propagates (d : db) (failed : bool) (rest : list bool) :
  let recorded := with_faults (failed :: false :: rest) d in
  let lost := with_faults (failed :: true :: rest) d in
  (forall ruleId action userId changes ip ua (x : db),
      fst (logAudit ruleId action userId changes ip ua x) = Return tt) /\
  (forall ruleId action userId changes ip ua,
      logAudit ruleId action userId changes ip ua (with_faults (true :: rest) d)
      = (Return tt, with_faults rest d)) /\
  (forall ruleData userId ip ua,
      same_outcome (createRule ruleData userId ip ua recorded)
        (createRule ruleData userId ip ua lost)) /\
  (forall ruleId updates userId ip ua,
      same_outcome (updateRule ruleId updates userId ip ua recorded)
        (updateRule ruleId updates userId ip ua lost)) /\
  (forall ruleId userId ip ua,
      same_outcome (deleteRule ruleId userId ip ua recorded)
        (deleteRule ruleId userId ip ua lost)).
Proof.
  intros recorded lost. split; [|split; [|split; [|split]]].
  - intros ruleId action userId changes ip ua x.
    destruct (logAudit_returns ruleId action userId changes ip ua x) as (d' & Hrun & _).
    rewrite Hrun. reflexivity.
  - intros. apply logAudit_scheduled.
  - intros. apply createRule_same_outcome.
  - intros. apply updateRule_same_outcome.
  - intros. apply deleteRule_same_outcome.
Qed.

End AuditFacts.

(** C8 on the small runtime: a rule is created while the audit insert fails;
    the caller gets the row, the rule is stored, and the audit log stays
    empty, where the other run has one entry. *)
Lemma audit_failure_never_propagates_witness :
  let ruleData :=
    obj [("rule_type", VStr "keyword_filter"); ("rule_name", VStr "no spam");
         ("rule_config", obj [("keywords", VArr [VStr "spam"])])] in
  let recorded := createRule (H := Small.runtime) ruleData "u1" None None
                    (with_faults [false; false] sample_db) in
  let lost := createRule (H := Small.runtime) ruleData "u1" None None
                (with_faults [false; true] sample_db) in
  same_outcome recorded lost /\
  (exists row, fst lost = Return row /\ id row = "rule-4") /\
  length (privacy_rules (snd lost)) = 5 /\
  length (rule_audit_log (snd lost)) = 0 /\
  length (rule_audit_log (snd recorded)) = 1.
Proof.
  intros ruleData recorded lost. split.
  - exact (proj1 (proj2 (proj2 (audit_failure_never_propagates (H := Small.runtime)
                                  sample_db false [])))
             ruleData "u1" None None).
  - split; [eexists; split; vm_compute; reflexivity|].
    repeat split; vm_compute; reflexivity.
Defined.

(** ** Rules made from templates *)

Section TemplateFacts.
Context `{Runtime}.

Lemma createRuleFromTemplate_missing templateId userId customizations (d : db) :
  next_query_succeeds d ->
  public_templates templateId d = [] ->
  createRuleFromTemplate templateId userId customizations d
  = (Throw template_not_found, after_query d).
Proof.
  intros Hok Hnone. unfold createRuleFromTemplate.
  rewrite stry_catch_rethrow. unfold sbind.
  rewrite (query_succeeds _ d Hok). unfold select_public_template.
  change (rule_templates (after_query d)) with (rule_templates d).
  unfold public_templates in Hnone. rewrite Hnone. reflexivity.
Qed.

Lemma createRuleFromTemplate_delegates templateId userId (d : db)
    (template : template_row) (more : list template_row)
    (config custom : gmap string value) :
  next_query_succeeds d ->
  public_templates templateId d = template :: more ->
  template_config template = VObj config ->
  createRuleFromTemplate templateId userId (VObj custom) d
  = createRule (template_rule_data template config custom) userId None None
      (after_query d).
Proof.
  intros Hok Hfound Hconfig. unfold createRuleFromTemplate.
  rewrite stry_catch_rethrow. unfold sbind at 1.
  rewrite (query_succeeds _ d Hok). unfold select_public_template.
  change (rule_templates (after_query d)) with (rule_templates d).
  unfold public_templates in Hfound. rewrite Hfound.
  cbn [default_to]. rewrite Hconfig. unfold sbind, pure. cbn [get spread].
  reflexivity.
Qed.

Lemma merged_lookup (config custom : gmap string value) (key : string) :
  (custom ∪ config) !! key
  = match custom !! key with
    | Some v => Some v
    | None => config !! key
    end.
Proof.
  rewrite lookup_union. destruct (custom !! key), (config !! key); reflexivity.
Qed.

Lemma truthy_text (o : option string) (fallback : string) :
  js_or (default VUndef (VStr <$> o)) (VStr fallback)
  = VStr (default fallback (given_text o)).
Proof.
  destruct o as [s|]; [|reflexivity].
  unfold js_or, given_text. simpl. destruct (String.eqb s ""); reflexivity.
Qed.

Lemma truthy_description (o fallback : option string) :
  js_or (default VUndef (VStr <$> o)) (text_or_null fallback)
  = text_or_null (match given_text o with
                  | Some text => Some text
                  | None => fallback
                  end).
Proof.
  destruct o as [s|]; [|reflexivity].
  unfold js_or, given_text. simpl. destruct (String.eqb s ""); reflexivity.
Qed.

Lemma truthy_VInt (z : Z) : truthy (VInt z) = negb (z =? 0)%Z.
Proof.
  unfold VInt, truthy, number_is_zero, Qeq_bool. simpl.
  rewrite Z.mul_1_r. reflexivity.
Qed.

Lemma truthy_integer (o : option Z) :
  js_or (js_or (default VUndef (VInt <$> o)) (VInt 1)) (VInt 1)
  = VInt (default 1%Z (given_integer o)).
Proof.
  destruct o as [z|]; [|reflexivity].
  change (default VUndef (VInt <$> Some z)) with (VInt z).
  unfold js_or at 2, given_integer. rewrite truthy_VInt.
  destruct (Z.eqb_spec z 0) as [->|Hz]; [reflexivity|].
  cbn [negb default from_option id]. unfold js_or. rewrite truthy_VInt.
  apply Z.eqb_neq in Hz. rewrite Hz. reflexivity.
Qed.

Lemma bind_param_text_or_null (o : option string) :
  bind_param pg_text (text_or_null o) = Some o.
Proof.
  destruct o as [s|]; [|reflexivity].
  unfold bind_param. simpl. rewrite pg_text_string. reflexivity.
Qed.

Lemma bind_param_VStr (s : string) : bind_param pg_text (VStr s) = Some (Some s).
Proof. unfold bind_param. simpl. rewrite pg_text_string. reflexivity. Qed.

Lemma bind_param_VInt (z : Z) :
  (- 2 ^ 31 <= z < 2 ^ 31)%Z -> bind_param pg_integer (VInt z) = Some (Some z).
Proof.
  intros Hfit. unfold bind_param. change (nullish (VInt z)) with false. cbv iota.
  rewrite (pg_integer_int z Hfit). reflexivity.
Qed.

Lemma given_integer_fits (o : option Z) :
  (forall p, o = Some p -> (- 2 ^ 31 <= p < 2 ^ 31)%Z) ->
  (- 2 ^ 31 <= default 1 (given_integer o) < 2 ^ 31)%Z.
Proof.
  intros Hfit. destruct o as [z|]; simpl.
  - destruct (z =? 0)%Z; simpl; [lia|]. apply Hfit. reflexivity.
  - lia.
Qed.

Lemma get_rule_data (type name description config prio : value) :
  let ruleData := obj [("rule_type", type); ("rule_name", name);
                       ("rule_description", description);
                       ("rule_config", config); ("priority", prio)] in
  get ruleData "rule_type" = Return type /\
  get ruleData "rule_name" = Return name /\
  get ruleData "rule_description" = Return description /\
  get ruleData "rule_config" = Return config /\
  get ruleData "priority" = Return prio.
Proof. repeat split; reflexivity. Qed.

(** From a template and typed customizations to the stored row. *)
Lemma createRuleFromTemplate_persists templateId userId (d : db)
    (template : template_row) (more : list template_row)
    (config custom : gmap string value)
    (type name description : option string) (prio : option Z) (rest : list bool) :
  faults d = false :: false :: rest ->
  public_templates templateId d = template :: more ->
  template_config template = VObj config ->
  config !! "rule_type" = VStr <$> type ->
  custom !! "rule_name" = VStr <$> name ->
  custom !! "rule_description" = VStr <$> description ->
  custom !! "priority" = VInt <$> prio ->
  (forall p, prio = Some p -> (- 2 ^ 31 <= p < 2 ^ 31)%Z) ->
  json_data (VObj custom) ->
  json_data (VObj config) ->
  existsb (fun row => String.eqb (id row) (uuidv4 (issued d))) (privacy_rules d) = false ->
  let row := template_rule_claim (uuidv4 (issued d)) userId (now d) template config custom
               type name description prio in
  exists d',
    createRuleFromTemplate templateId userId (VObj custom) d = (Return row, d') /\
    privacy_rules d' = privacy_rules d ++ [row] /\
    (hd false rest = false ->
     rule_audit_log d'
     = rule_audit_log d
       ++ [{| audit_rule_id := uuidv4 (issued d); audit_action := "CREATE";
              audit_user_id := userId;
              changes := rule_data (template_rule_data template config custom);
              ip_address := None; user_agent := None;
              audit_created_at := now d |}]).
Proof.
  intros Hfaults Hfound Hconfig Htype Hname Hdescription Hprio Hfit Hcustom Hjson Hfresh row.
  pose proof (jsonify_json_data _ (json_data_union custom config Hcustom Hjson)) as Hstored.
  assert (Hok : next_query_succeeds d)
    by (unfold next_query_succeeds; rewrite Hfaults; reflexivity).
  rewrite (createRuleFromTemplate_delegates _ _ _ _ _ _ _ Hok Hfound Hconfig).
  unfold createRule. rewrite stry_catch_rethrow.
  unfold template_rule_data at 1 2 3 4 5.
  match goal with
  | |- context [get (obj [("rule_type", ?a); ("rule_name", ?b);
                          ("rule_description", ?c); ("rule_config", ?e);
                          ("priority", ?f)]) "rule_type"] =>
      destruct (get_rule_data a b c e f) as (G1 & G2 & G3 & G4 & G5)
  end.
  cbv zeta in G1, G2, G3, G4, G5.
  unfold sbind, fresh_uuid, pure. rewrite G1, G2, G3, G4, G5.
  rewrite Htype, Hname, Hdescription, Hprio.
  rewrite !truthy_text, truthy_description, truthy_integer.
  destruct d as [rules templates audit schedule n t].
  cbn [faults privacy_rules issued now] in Hfaults, Hfresh, row |- *. subst schedule.
  unfold after_query, with_issued, with_faults, query.
  cbn [faults privacy_rules issued now rule_templates rule_audit_log tail].
  unfold insert_rule.
  rewrite !bind_param_VStr, bind_param_text_or_null,
    (bind_param_VInt _ (given_integer_fits prio Hfit)).
  cbn [faults privacy_rules issued now rule_templates rule_audit_log
         with_faults with_rules with_audit with_issued].
  rewrite Hfresh. cbv iota. rewrite Hstored.
  unfold logAudit, stry_catch, query, insert_audit, with_rules, with_audit, with_faults,
    sreturn.
  cbn [faults privacy_rules issued now rule_templates rule_audit_log].
  destruct rest as [|[|] rest]; eexists; (split; [reflexivity|]);
    (split; [reflexivity|]); cbn [hd]; intros Haudit;
    try discriminate Haudit; reflexivity.
Qed.

(** C5, amended.  [createRuleFromTemplate] fails with "Template not found"
    when no public template has the id.  Otherwise it hands to [createRule],
    the path of a direct creation with its insert and its audit record, a
    rule whose configuration is the template's configuration with every key
    of the customizations laid over it; whose type is the type embedded in
    the template's configuration, or "custom"; whose name and description
    are those of the customizations when given, else the template's; and
    whose priority is that of the customizations when given, else 1.  With
    typed fields, a configuration and customizations that are JSON data and
    a store that answers, the row of that rule is stored and returned, its
    configuration being that merge, and the creation is audited. *)
Theorem template_rule_takes_customizations :
  (forall templateId userId customizations (d : db),
      next_query_succeeds d ->
      public_templates templateId d = [] ->
      createRuleFromTemplate templateId userId customizations d
      = (Throw template_not_found, after_query d)) /\
  (forall templateId userId (d : db) template more (config custom : gmap string value),
      next_query_succeeds d ->
      public_templates templateId d = template :: more ->
      template_config template = VObj config ->
      createRuleFromTemplate templateId userId (VObj custom) d
      = createRule (template_rule_data template config custom) userId None None
          (after_query d) /\
      (forall key,
          (custom ∪ config) !! key
          = match custom !! key with
            | Some v => Some v
            | None => config !! key
            end)) /\
  (forall templateId userId (d : db) template more (config custom : gmap string value)
          (type name description : option string) (prio : option Z) rest,
      faults d = false :: false :: rest ->
      public_templates templateId d = template :: more ->
      template_config template = VObj config ->
      config !! "rule_type" = VStr <$> type ->
      custom !! "rule_name" = VStr <$> name ->
      custom !! "rule_description" = VStr <$> description ->
      custom !! "priority" = VInt <$> prio ->
      (forall p, prio = Some p -> (- 2 ^ 31 <= p < 2 ^ 31)%Z) ->
      json_data (VObj custom) ->
      json_data (VObj config) ->
      existsb (fun row => String.eqb (id row) (uuidv4 (issued d))) (privacy_rules d)
      = false ->
      let row := template_rule_claim (uuidv4 (issued d)) userId (now d) template config
                   custom type name description prio in
      exists d',
        createRuleFromTemplate templateId userId (VObj custom) d = (Return row, d') /\
        privacy_rules d' = privacy_rules d ++ [row] /\
        (hd false rest = false ->
         rule_audit_log d'
         = rule_audit_log d
           ++ [{| audit_rule_id := uuidv4 (issued d); audit_action := "CREATE";
                  audit_user_id := userId;
                  changes := rule_data (template_rule_data template config custom);
                  ip_address := None; user_agent := None;
                  audit_created_at := now d |}])).
Proof.
  split; [exact createRuleFromTemplate_missing|]. split.
  - intros templateId userId d template more config custom Hok Hfound Hconfig.
    split; [apply (createRuleFromTemplate_delegates _ _ _ _ more); assumption|].
    apply merged_lookup.
  - exact createRuleFromTemplate_persists.
Qed.

End TemplateFacts.

(** C5, as the specification states it, fails for the priority: the rule made
    from a template whose configuration carries priority 7, with no priority
    among the customizations, has priority 1. *)
Lemma template_priority_is_not_inherited :
  get (template_config sample_template) "priority" = Return (VInt 7) /\
  exists row d',
    createRuleFromTemplate (H := Small.runtime) "t1" "u1" (obj []) template_db
    = (Return row, d') /\
    priority row = 1%Z /\ priority row <> 7%Z.
Proof.
  split; [reflexivity|].
  eexists. eexists. split; [vm_compute; reflexivity|].
  split; [reflexivity|discriminate].
Qed.

(** C5 on the small runtime: the template allows, the customization blocks,
    and the stored rule blocks. *)
Lemma template_rule_takes_customizations_witness :
  let custom : gmap string value := list_to_map [("action", VStr "block")] in
  (public_templates "t1" template_db = [sample_template] /\
   faults template_db = [false; false] /\
   json_data (VObj custom) /\ json_data (template_config sample_template) /\
   get (template_config sample_template) "action" = Return (VStr "allow")) /\
  exists row d',
    createRuleFromTemplate (H := Small.runtime) "t1" "u1" (VObj custom) template_db
    = (Return row, d') /\
    privacy_rules d' = [row] /\
    length (rule_audit_log d') = 1 /\
    rule_type row = "keyword_filter" /\
    rule_name row = "Spam filter" /\
    priority row = 1%Z /\
    get (rule_config row) "action" = Return (VStr "block") /\
    get (rule_config row) "keywords" = Return (VArr [VStr "spam"]).
Proof.
  intros custom.
  assert (Hconfig : template_config sample_template
                    = VObj (list_to_map
                              [("rule_type", VStr "keyword_filter");
                               ("keywords", VArr [VStr "spam"]);
                               ("action", VStr "allow"); ("priority", VInt 7)]))
    by reflexivity.
  assert (Hfit : forall p : Z, @None Z = Some p -> (- 2 ^ 31 <= p < 2 ^ 31)%Z)
    by (intros p Hp; discriminate Hp).
  assert (Hcustom : json_data (VObj custom))
    by (apply (json_data_obj [("action", VStr "block")]); repeat constructor).
  assert (Hjson : json_data
                    (VObj (list_to_map
                             [("rule_type", VStr "keyword_filter");
                              ("keywords", VArr [VStr "spam"]);
                              ("action", VStr "allow"); ("priority", VInt 7)])))
    by (apply (json_data_obj [("rule_type", VStr "keyword_filter");
                              ("keywords", VArr [VStr "spam"]);
                              ("action", VStr "allow"); ("priority", VInt 7)]);
        repeat constructor).
  destruct (proj2 (proj2 (template_rule_takes_customizations (H := Small.runtime)))
              "t1" "u1" template_db sample_template [] _ custom
              (Some "keyword_filter") None None None [] eq_refl eq_refl Hconfig
              eq_refl eq_refl eq_refl eq_refl Hfit Hcustom Hjson eq_refl)
    as (d' & Hrun & Hrules & Haudit).
  split; [split; [reflexivity|]; split; [reflexivity|]; split; [exact Hcustom|];
          split; [exact Hjson | reflexivity]|].
  eexists. exists d'. split; [exact Hrun|].
  split; [exact Hrules|].
  split; [rewrite (Haudit eq_refl); reflexivity|].
  repeat split; reflexivity.
Defined.

(** C4 on the small runtime: a rule of a type the evaluator does not know,
    and a keyword rule whose configuration is [null], which makes the
    keyword evaluator throw. *)
Lemma evaluateRule_never_raises_witness :
  let message := obj [("text", VStr "hello")] in
  let custom := sample_rule "r5" "u1" (obj []) 1 true in
  let broken := sample_rule "r6" "u1" VNull 1 true in
  (evaluateKeywordFilter (H := Small.runtime) (rule_config broken) message
   = Throw TypeError) /\
  evaluateRule (H := Small.runtime) broken message = Return evaluation_error /\
  evaluateRule (H := Small.runtime)
    {| id := "r5"; user_id := "u1"; rule_type := "custom"; rule_name := "mine";
       rule_description := None; rule_config := obj []; priority := 1;
       is_active := true; created_at := 0; updated_at := 0;
       created_by := None; updated_by := None |} message
  = Return unknown_type.
Proof.
  intros message custom broken.
  assert (Hthrow : evaluateKeywordFilter (H := Small.runtime) (rule_config broken) message
                   = Throw TypeError) by reflexivity.
  split; [exact Hthrow|]. split.
  - exact (proj1 (proj2 (proj2 (evaluateRule_never_raises (H := Small.runtime)
                                  broken message)))
             TypeError eq_refl Hthrow).
  - apply (proj1 (proj2 (evaluateRule_never_raises (H := Small.runtime) _ message)));
      discriminate.
Defined.

(** * Further properties of the service *)

(** ** Listings *)

Lemma insert_ordered_perm (x : rule_row) (l : list rule_row) :
  insert_ordered x l ≡ₚ x :: l.
Proof.
  induction l as [|y l IH]; simpl; [reflexivity|].
  destruct (sorts_before y x); [|reflexivity].
  rewrite IH. apply Permutation_swap.
Qed.

Lemma order_by_priority_perm (l : list rule_row) : order_by_priority l ≡ₚ l.
Proof.
  induction l as [|x l IH]; simpl; [reflexivity|].
  rewrite insert_ordered_perm, IH. reflexivity.
Qed.

Lemma sorts_before_ranked (a b : rule_row) : sorts_before a b = true -> ranked a b.
Proof.
  unfold sorts_before, ranked. intros Hb.
  apply orb_true_iff in Hb as [Hb|Hb].
  - left. apply Z.ltb_lt. exact Hb.
  - apply andb_true_iff in Hb as [He Hc].
    apply Z.eqb_eq in He. apply Z.ltb_lt in Hc. right. split; lia.
Qed.

Lemma not_sorts_before_ranked (a b : rule_row) : sorts_before a b = false -> ranked b a.
Proof.
  unfold sorts_before, ranked. intros Hb.
  apply orb_false_iff in Hb as [Hp Hb]. apply Z.ltb_ge in Hp.
  apply andb_false_iff in Hb as [He|Hc].
  - apply Z.eqb_neq in He. left. lia.
  - apply Z.ltb_ge in Hc.
    destruct (Z.eq_dec (priority a) (priority b)) as [Heq|Hne]; [right|left]; lia.
Qed.

Lemma ranked_trans (a b c : rule_row) : ranked a b -> ranked b c -> ranked a c.
Proof. unfold ranked. lia. Qed.

Lemma insert_ordered_sorted (x : rule_row) (l : list rule_row) :
  StronglySorted ranked l -> StronglySorted ranked (insert_ordered x l).
Proof.
  induction 1 as [|y l Hsorted IH Hy]; simpl.
  - repeat constructor.
  - destruct (sorts_before y x) eqn:Hb.
    + constructor; [exact IH|].
      rewrite Forall_forall. intros z Hz.
      rewrite insert_ordered_perm in Hz. apply elem_of_cons in Hz as [->|Hz].
      * apply sorts_before_ranked. exact Hb.
      * rewrite Forall_forall in Hy. apply Hy. exact Hz.
    + assert (Hxy : ranked x y) by (apply not_sorts_before_ranked; exact Hb).
      constructor; [constructor; assumption|].
      constructor; [exact Hxy|].
      eapply Forall_impl; [exact Hy|]. intros z Hz. exact (ranked_trans _ _ _ Hxy Hz).
Qed.

Lemma order_by_priority_sorted (l : list rule_row) :
  StronglySorted ranked (order_by_priority l).
Proof.
  induction l as [|x l IH]; simpl; [constructor|].
  apply insert_ordered_sorted. exact IH.
Qed.

Lemma same_tables_refl (d : db) : same_tables d d.
Proof. repeat split. Qed.

Lemma same_tables_trans (a b c : db) :
  same_tables a b -> same_tables b c -> same_tables a c.
Proof.
  unfold same_tables. intros (-> & -> & -> & -> & ->) (-> & -> & -> & -> & ->).
  repeat split.
Qed.

Lemma same_tables_with_faults (s : list bool) (d : db) : same_tables d (with_faults s d).
Proof. repeat split. Qed.

(** A query whose statement only reads, only reads. *)
Lemma query_same_tables {A} (statement : db -> outcome A * db) (d : db) :
  (forall x, same_tables x (snd (statement x))) ->
  same_tables d (snd (query statement d)).
Proof.
  intros Hreads. unfold query.
  destruct (faults d) as [|[|] rest]; simpl.
  - apply Hreads.
  - apply same_tables_with_faults.
  - eapply same_tables_trans; [apply same_tables_with_faults | apply Hreads].
Qed.

(** A query either fails with the error of the store or returns what its
    statement returns on the same tables. *)
Lemma query_returns {A} (statement : db -> outcome A * db) (d d' : db) (a : A) :
  query statement d = (Return a, d') ->
  exists x, same_tables d x /\ statement x = (Return a, d').
Proof.
  unfold query. destruct (faults d) as [|[|] rest]; intros Hq.
  - exists d. split; [apply same_tables_refl | exact Hq].
  - discriminate Hq.
  - exists (with_faults rest d). split; [apply same_tables_with_faults | exact Hq].
Qed.

Section ListingFacts.
Context `{Runtime}.

Lemma select_user_rules_reads userId type_filter active_filter (x : db) :
  same_tables x (snd (select_user_rules userId type_filter active_filter x)).
Proof.
  unfold select_user_rules.
  destruct (from_option (bind_param pg_text) (Some None) type_filter);
    [destruct (from_option (bind_param pg_boolean) (Some None) active_filter)|];
    apply same_tables_refl.
Qed.

Lemma select_user_rules_returns userId type_filter active_filter (x x' : db) rows :
  select_user_rules userId type_filter active_filter x = (Return rows, x') ->
  exists keep,
    rows = order_by_priority (List.filter keep (privacy_rules x))
    /\ (forall row, keep row = true -> user_id row = userId).
Proof.
  unfold select_user_rules.
  destruct (from_option (bind_param pg_text) (Some None) type_filter) as [type|];
    [|discriminate].
  destruct (from_option (bind_param pg_boolean) (Some None) active_filter) as [active|];
    [|discriminate].
  intros Hsel. injection Hsel as <- _.
  eexists. split; [reflexivity|].
  intros row Hkeep. apply andb_true_iff in Hkeep as [Hkeep _].
  apply andb_true_iff in Hkeep as [Hkeep _].
  apply String.eqb_eq. exact Hkeep.
Qed.

Lemma getUserRules_selects (userId : string) (filters : value) (d d' : db) rows :
  getUserRules userId filters d = (Return rows, d') ->
  exists keep,
    rows = order_by_priority (List.filter keep (privacy_rules d))
    /\ (forall row, keep row = true -> user_id row = userId).
Proof.
  unfold getUserRules, stry_catch, sbind, pure, sthrow.
  destruct (get (default_to (obj []) filters) "rule_type") as [by_type|e]; [|discriminate].
  destruct (get (default_to (obj []) filters) "is_active") as [by_active|e]; [|discriminate].
  match goal with
  | |- context [query ?s d] => destruct (query s d) as [[rows'|e] x] eqn:Hq
  end; [|discriminate].
  intros Hret. injection Hret as <- <-.
  apply query_returns in Hq as (x0 & Hsame & Hsel).
  apply select_user_rules_returns in Hsel as (keep & -> & Hkeep).
  exists keep. destruct Hsame as (-> & _). split; [reflexivity | exact Hkeep].
Qed.

(** X1.  Whatever the filters are, a listing that [getUserRules] returns
    is ordered by priority, highest first, and among equal priorities by
    creation time, newest first; every row of it belongs to the user asked
    for and is a row of the table. *)
Theorem getUserRules_sorted_and_scoped
    (userId : string) (filters : value) (d d' : db) (rows : list rule_row) :
  getUserRules userId filters d = (Return rows, d') ->
  StronglySorted ranked rows
  /\ Forall (fun row => user_id row = userId /\ row ∈ privacy_rules d) rows.
Proof.
  intros Hget. apply getUserRules_selects in Hget as (keep & -> & Hkeep).
  split; [apply order_by_priority_sorted|].
  rewrite Forall_forall. intros row Hrow.
  rewrite order_by_priority_perm in Hrow.
  apply list_elem_of_In, List.filter_In in Hrow as [Hin Hk].
  split; [apply Hkeep; exact Hk | apply list_elem_of_In; exact Hin].
Qed.

Lemma get_filters (f : rule_filters) :
  get (default_to (obj []) (filters_object f)) "rule_type"
  = Return (default VUndef (VStr <$> by_type f))
  /\ get (default_to (obj []) (filters_object f)) "is_active"
     = Return (default VUndef (VBool <$> by_active f)).
Proof. destruct f as [[type|] [active|]]; split; reflexivity. Qed.

(** X2.  With filters of the types the routes pass, the listing is the
    rows of the user that have the type asked for and the activity asked
    for, in the order of the store.  A filter on inactive rules is
    honoured; a type that is the empty text is no filter. *)
Theorem getUserRules_filters (userId : string) (f : rule_filters) (d : db) :
  next_query_succeeds d ->
  getUserRules userId (filters_object f) d
  = (Return (order_by_priority (List.filter (listed userId f) (privacy_rules d))),
     after_query d).
Proof.
  intros Hok. unfold getUserRules, stry_catch, sbind, pure.
  destruct (get_filters f) as [-> ->].
  rewrite (query_succeeds _ d Hok).
  assert (Htype : (if truthy (default VUndef (VStr <$> by_type f))
                   then Some (default VUndef (VStr <$> by_type f)) else None)
                  = VStr <$> given_text (by_type f)).
  { destruct (by_type f) as [type|]; [|reflexivity].
    unfold given_text. change (default VUndef (VStr <$> Some type)) with (VStr type).
    cbn [truthy]. destruct (String.eqb type ""); reflexivity. }
  rewrite Htype. clear Htype.
  unfold select_user_rules, listed.
  destruct (given_text (by_type f)) as [type|], (by_active f) as [active|];
    cbn [fmap option_fmap option_map default from_option];
    unfold Datatypes.id; cbn [from_option];
    unfold bind_param; cbn [nullish];
    rewrite ?pg_text_string, ?pg_boolean_bool; reflexivity.
Qed.

Lemma getUserRules_reads (userId : string) (filters : value) (d : db) :
  same_tables d (snd (getUserRules userId filters d)).
Proof.
  unfold getUserRules, stry_catch, sbind, pure, sthrow.
  destruct (get (default_to (obj []) filters) "rule_type") as [by_type|e];
    [|apply same_tables_refl].
  destruct (get (default_to (obj []) filters) "is_active") as [by_active|e];
    [|apply same_tables_refl].
  match goal with
  | |- context [query ?s d] =>
      pose proof (query_same_tables s d (select_user_rules_reads _ _ _)) as Hq;
      destruct (query s d) as [[rows|e] x]
  end; exact Hq.
Qed.

End ListingFacts.

Lemma getUserRules_sorted_and_scoped_witness :
  exists rows d',
    getUserRules (H := Small.runtime) "u1" (obj [("rule_type", VStr "keyword_filter")])
      sample_db = (Return rows, d')
    /\ StronglySorted ranked rows
    /\ Forall (fun row => user_id row = "u1" /\ row ∈ privacy_rules sample_db) rows.
Proof.
  eexists _, _. split; [vm_compute; reflexivity|].
  eapply (getUserRules_sorted_and_scoped (H := Small.runtime) "u1"
            (obj [("rule_type", VStr "keyword_filter")]) sample_db).
  vm_compute. reflexivity.
Defined.

Lemma getUserRules_filters_witness :
  next_query_succeeds sample_db
  /\ getUserRules (H := Small.runtime) "u1"
       (filters_object {| by_type := None; by_active := Some false |}) sample_db
     = (Return (order_by_priority
                  (List.filter (listed "u1" {| by_type := None; by_active := Some false |})
                     (privacy_rules sample_db))),
        after_query sample_db).
Proof.
  split; [reflexivity|].
  apply (getUserRules_filters (H := Small.runtime) "u1"
           {| by_type := None; by_active := Some false |} sample_db).
  reflexivity.
Defined.

(** ** Creating, reading and deleting a rule *)

Lemma query_cases {A} (statement : db -> outcome A * db) (d : db) :
  (next_query_succeeds d /\ query statement d = statement (after_query d))
  \/ query statement d = (Throw StoreError, after_query d).
Proof.
  unfold query, after_query, next_query_succeeds.
  destruct d as [rules templates audit schedule n t]; simpl.
  destruct schedule as [|[|] rest]; simpl; [left | right | left]; try split; reflexivity.
Qed.

Lemma filter_hit_none {A} (hit : A -> bool) (l : list A) :
  List.filter hit l = [] -> List.filter (fun x => negb (hit x)) l = l.
Proof.
  induction l as [|x l IH]; simpl; [reflexivity|].
  destruct (hit x); [discriminate|]. intros Hnone. simpl. rewrite (IH Hnone). reflexivity.
Qed.

Lemma filter_head {A} (hit : A -> bool) (l : list A) (x : A) (more : list A) :
  List.filter hit l = x :: more -> hit x = true /\ In x l.
Proof.
  intros Hf. assert (Hin : In x (List.filter hit l)) by (rewrite Hf; left; reflexivity).
  apply List.filter_In in Hin as [Hin Hhit]. split; assumption.
Qed.

Lemma owned_by_spec ruleId userId row :
  owned_by ruleId userId row = true <-> id row = ruleId /\ user_id row = userId.
Proof.
  unfold owned_by. rewrite andb_true_iff, !String.eqb_eq. reflexivity.
Qed.

Section RuleFacts.
Context `{Runtime}.

Lemma logAudit_effect ruleId action userId what ip ua (d : db) :
  exists d',
    logAudit ruleId action userId what ip ua d = (Return tt, d')
    /\ privacy_rules d' = privacy_rules d
    /\ rule_templates d' = rule_templates d
    /\ issued d' = issued d /\ now d' = now d
    /\ (rule_audit_log d' = rule_audit_log d
        \/ rule_audit_log d'
           = rule_audit_log d ++ [audit_entry ruleId action userId what ip ua (now d)])
    /\ (next_query_succeeds d ->
        rule_audit_log d'
        = rule_audit_log d ++ [audit_entry ruleId action userId what ip ua (now d)]).
Proof.
  unfold logAudit, stry_catch, query, insert_audit, sreturn, next_query_succeeds.
  destruct (faults d) as [|[|] rest]; simpl; eexists; (split; [reflexivity|]);
    repeat split; try (right; reflexivity); try (left; reflexivity);
    try reflexivity; intros; try discriminate; reflexivity.
Qed.

(** What the INSERT statement does. *)
Lemma insert_rule_effect ruleId userId type name description config prio (x : db) :
  match insert_rule ruleId userId type name description config prio x with
  | (Return row, x') =>
      x' = with_rules (privacy_rules x ++ [row]) x
      /\ id row = ruleId /\ user_id row = userId /\ is_active row = true
      /\ created_at row = now x /\ updated_at row = now x
      /\ created_by row = Some userId /\ updated_by row = None
      /\ (rule_config row = jsonify config /\ config <> VUndef)
      /\ bind_param pg_text type = Some (Some (rule_type row))
      /\ bind_param pg_text name = Some (Some (rule_name row))
      /\ bind_param pg_text description = Some (rule_description row)
      /\ bind_param pg_integer prio = Some (Some (priority row))
      /\ existsb (fun r => String.eqb (id r) ruleId) (privacy_rules x) = false
  | (Throw e, x') => x' = x
  end.
Proof.
  unfold insert_rule.
  destruct (bind_param pg_text type) as [[t|]|]; try reflexivity.
  destruct (bind_param pg_text name) as [[n|]|]; try reflexivity.
  destruct (bind_param pg_text description) as [dsc|]; try reflexivity.
  destruct (bind_param pg_integer prio) as [[p|]|]; try reflexivity.
  destruct (existsb _ _) eqn:Htaken; [reflexivity|].
  destruct config; try reflexivity; cbn; repeat split; try reflexivity; discriminate.
Qed.

(** The shape of every run of [createRule]. *)
Lemma createRule_effect ruleData userId ip ua (d : db) :
  (exists e d', createRule ruleData userId ip ua d = (Throw e, d')
                /\ privacy_rules d' = privacy_rules d
                /\ rule_templates d' = rule_templates d
                /\ rule_audit_log d' = rule_audit_log d)
  \/ (exists row d' type name description config prio,
        createRule ruleData userId ip ua d = (Return row, d')
        /\ privacy_rules d' = privacy_rules d ++ [row]
        /\ rule_templates d' = rule_templates d
        /\ issued d' = S (issued d) /\ now d' = now d
        /\ (rule_audit_log d' = rule_audit_log d
            \/ rule_audit_log d'
               = rule_audit_log d
                 ++ [audit_entry (id row) "CREATE" userId (rule_data ruleData) ip ua (now d)])
        /\ (hd false (tail (faults d)) = false ->
            rule_audit_log d'
            = rule_audit_log d
              ++ [audit_entry (id row) "CREATE" userId (rule_data ruleData) ip ua (now d)])
        /\ id row = uuidv4 (issued d) /\ user_id row = userId /\ is_active row = true
        /\ created_at row = now d /\ updated_at row = now d
        /\ created_by row = Some userId /\ updated_by row = None
        /\ get ruleData "rule_type" = Return type
        /\ get ruleData "rule_name" = Return name
        /\ get ruleData "rule_description" = Return description
        /\ get ruleData "rule_config" = Return config
        /\ get ruleData "priority" = Return prio
        /\ (rule_config row = jsonify config /\ config <> VUndef)
        /\ bind_param pg_text type = Some (Some (rule_type row))
        /\ bind_param pg_text name = Some (Some (rule_name row))
        /\ bind_param pg_text description = Some (rule_description row)
        /\ bind_param pg_integer (js_or prio (VInt 1)) = Some (Some (priority row))
        /\ existsb (fun r => String.eqb (id r) (id row)) (privacy_rules d) = false).
Proof.
  remember (createRule ruleData userId ip ua d) as run eqn:Hrun.
  unfold createRule in Hrun. rewrite stry_catch_rethrow in Hrun.
  unfold sbind at 1 in Hrun. unfold fresh_uuid in Hrun.
  unfold sbind at 1 in Hrun. unfold pure at 1 in Hrun.
  destruct (get ruleData "rule_type") as [type|e];
    [|left; eexists _, _; split; [exact Hrun | repeat split]].
  unfold sbind at 1 in Hrun. unfold pure at 1 in Hrun.
  destruct (get ruleData "rule_name") as [name|e];
    [|left; eexists _, _; split; [exact Hrun | repeat split]].
  unfold sbind at 1 in Hrun. unfold pure at 1 in Hrun.
  destruct (get ruleData "rule_description") as [description|e];
    [|left; eexists _, _; split; [exact Hrun | repeat split]].
  unfold sbind at 1 in Hrun. unfold pure at 1 in Hrun.
  destruct (get ruleData "rule_config") as [config|e];
    [|left; eexists _, _; split; [exact Hrun | repeat split]].
  unfold sbind at 1 in Hrun. unfold pure at 1 in Hrun.
  destruct (get ruleData "priority") as [prio|e];
    [|left; eexists _, _; split; [exact Hrun | repeat split]].
  unfold sbind at 1 in Hrun.
  set (statement := insert_rule (uuidv4 (issued d)) userId type name description config
                      (js_or prio (VInt 1))) in Hrun.
  destruct (query_cases statement (with_issued (S (issued d)) d)) as [[_ Hq]|Hq];
    rewrite Hq in Hrun; clear Hq.
  2:{ left. eexists _, _. split; [exact Hrun | repeat split]. }
  pose proof (insert_rule_effect (uuidv4 (issued d)) userId type name description config
                (js_or prio (VInt 1)) (after_query (with_issued (S (issued d)) d))) as Heff.
  fold statement in Heff.
  destruct (statement (after_query (with_issued (S (issued d)) d))) as [[row|e] x'].
  2:{ left. eexists _, _. split; [eassumption|]. subst x'. repeat split; reflexivity. }
  destruct Heff as (-> & Hid & Huser & Hactive & Hcreated & Hupdated & Hby & Hupd
                    & (Hconfig & Hgiven) & Htype & Hname & Hdesc & Hprio & Hfresh).
  unfold sbind in Hrun.
  match type of Hrun with
  | context [logAudit ?r ?a ?u ?c ?i ?g ?x] =>
      destruct (logAudit_effect r a u c i g x)
        as (d' & Hlog & Hr' & Ht' & Hi' & Hn' & Hl' & Hok')
  end.
  rewrite Hlog in Hrun. unfold sreturn in Hrun.
  right. exists row, d', type, name, description, config, prio.
  cbn [privacy_rules rule_templates rule_audit_log issued now faults
       with_rules with_issued with_faults after_query] in *.
  split; [exact Hrun|].
  rewrite Hid.
  repeat split; try assumption; try congruence.
Qed.


(** What the UPDATE statement does, whatever its parameters are. *)
Lemma update_rule_effect name description config prio active userId ruleId (x : db) :
  match update_rule name description config prio active userId ruleId x with
  | (Return rows, x') =>
      exists set : rule_row -> rule_row,
        rows = map set (List.filter (owned_by ruleId userId) (privacy_rules x))
        /\ x' = with_rules
                  (map (fun row => if owned_by ruleId userId row then set row else row)
                     (privacy_rules x)) x
        /\ (forall row, same_identity row (set row)
                        /\ updated_at (set row) = now x
                        /\ updated_by (set row) = Some userId)
  | (Throw e, x') => x' = x
  end.
Proof.
  unfold update_rule.
  destruct (bind_param pg_text name) as [n|]; try reflexivity.
  destruct (bind_param pg_text description) as [dsc|]; try reflexivity.
  destruct (bind_param pg_integer prio) as [p|]; try reflexivity.
  destruct (bind_param pg_boolean active) as [a|]; try reflexivity.
  eexists. split; [reflexivity|]. split; [reflexivity|].
  intros row. repeat split.
Qed.

(** The shape of every run of [updateRule]. *)
Lemma updateRule_effect ruleId updates userId ip ua (d : db) :
  (exists e d', updateRule ruleId updates userId ip ua d = (Throw e, d')
                /\ privacy_rules d' = privacy_rules d
                /\ rule_templates d' = rule_templates d
                /\ rule_audit_log d' = rule_audit_log d)
  \/ (exists row d' (set : rule_row -> rule_row) old more,
        updateRule ruleId updates userId ip ua d = (Return row, d')
        /\ List.filter (owned_by ruleId userId) (privacy_rules d) = old :: more
        /\ row = set old
        /\ privacy_rules d'
           = map (fun r => if owned_by ruleId userId r then set r else r) (privacy_rules d)
        /\ (forall r, same_identity r (set r)
                      /\ updated_at (set r) = now d /\ updated_by (set r) = Some userId)
        /\ rule_templates d' = rule_templates d
        /\ issued d' = issued d /\ now d' = now d
        /\ (rule_audit_log d' = rule_audit_log d
            \/ rule_audit_log d'
               = rule_audit_log d
                 ++ [audit_entry ruleId "UPDATE" userId (updates_made updates) ip ua (now d)])
        /\ (hd false (tail (faults d)) = false ->
            rule_audit_log d'
            = rule_audit_log d
              ++ [audit_entry ruleId "UPDATE" userId (updates_made updates) ip ua (now d)])).
Proof.
  remember (updateRule ruleId updates userId ip ua d) as run eqn:Hrun.
  unfold updateRule in Hrun. rewrite stry_catch_rethrow in Hrun.
  unfold sbind at 1 in Hrun. unfold pure at 1 in Hrun.
  destruct (get updates "rule_name") as [name|e];
    [|left; eexists _, _; split; [exact Hrun | repeat split]].
  unfold sbind at 1 in Hrun. unfold pure at 1 in Hrun.
  destruct (get updates "rule_description") as [description|e];
    [|left; eexists _, _; split; [exact Hrun | repeat split]].
  unfold sbind at 1 in Hrun. unfold pure at 1 in Hrun.
  destruct (get updates "rule_config") as [config|e];
    [|left; eexists _, _; split; [exact Hrun | repeat split]].
  unfold sbind at 1 in Hrun. unfold pure at 1 in Hrun.
  destruct (get updates "priority") as [prio|e];
    [|left; eexists _, _; split; [exact Hrun | repeat split]].
  unfold sbind at 1 in Hrun. unfold pure at 1 in Hrun.
  destruct (get updates "is_active") as [active|e];
    [|left; eexists _, _; split; [exact Hrun | repeat split]].
  unfold sbind at 1 in Hrun.
  set (statement := update_rule name description
                      (if truthy config then config else VNull) prio active userId ruleId)
    in Hrun.
  destruct (query_cases statement d) as [[_ Hq]|Hq]; rewrite Hq in Hrun; clear Hq.
  2:{ left. eexists _, _. split; [exact Hrun | repeat split]. }
  pose proof (update_rule_effect name description
                (if truthy config then config else VNull) prio active userId ruleId
                (after_query d)) as Heff.
  fold statement in Heff.
  destruct (statement (after_query d)) as [[rows|e] x'].
  2:{ left. eexists _, _. split; [exact Hrun|]. subst x'. repeat split. }
  destruct Heff as (set & -> & -> & Hset).
  change (privacy_rules (after_query d)) with (privacy_rules d) in *.
  change (now (after_query d)) with (now d) in *.
  destruct (List.filter (owned_by ruleId userId) (privacy_rules d)) as [|old more] eqn:Hhit;
    cbn [map] in Hrun.
  { left. eexists _, _. split; [exact Hrun|].
    cbn [snd privacy_rules rule_templates rule_audit_log with_rules after_query with_faults].
    split; [apply map_no_hit; exact Hhit | split; reflexivity]. }
  unfold sbind in Hrun.
  match type of Hrun with
  | context [logAudit ?r ?a ?u ?c ?i ?g ?x] =>
      destruct (logAudit_effect r a u c i g x)
        as (d' & Hlog & Hr' & Ht' & Hi' & Hn' & Hl' & Hok')
  end.
  rewrite Hlog in Hrun. unfold sreturn in Hrun.
  right. exists (set old), d', set, old, more.
  cbn [privacy_rules rule_templates rule_audit_log issued now faults
       with_rules with_issued with_faults after_query] in *.
  split; [exact Hrun|].
  repeat split; try assumption; try congruence; apply Hset.
Qed.

(** The shape of every run of [deleteRule]. *)
Lemma deleteRule_effect ruleId userId ip ua (d : db) :
  (exists e d', deleteRule ruleId userId ip ua d = (Throw e, d')
                /\ privacy_rules d' = privacy_rules d
                /\ rule_templates d' = rule_templates d
                /\ rule_audit_log d' = rule_audit_log d)
  \/ (exists row d' more,
        deleteRule ruleId userId ip ua d = (Return row, d')
        /\ List.filter (owned_by ruleId userId) (privacy_rules d) = row :: more
        /\ privacy_rules d'
           = List.filter (fun r => negb (owned_by ruleId userId r)) (privacy_rules d)
        /\ rule_templates d' = rule_templates d
        /\ issued d' = issued d /\ now d' = now d
        /\ (rule_audit_log d' = rule_audit_log d
            \/ rule_audit_log d'
               = rule_audit_log d
                 ++ [audit_entry ruleId "DELETE" userId (deleted_rule row) ip ua (now d)])
        /\ (hd false (tail (faults d)) = false ->
            rule_audit_log d'
            = rule_audit_log d
              ++ [audit_entry ruleId "DELETE" userId (deleted_rule row) ip ua (now d)])).
Proof.
  remember (deleteRule ruleId userId ip ua d) as run eqn:Hrun.
  unfold deleteRule in Hrun. rewrite stry_catch_rethrow in Hrun.
  unfold sbind at 1 in Hrun.
  destruct (query_cases (delete_rule ruleId userId) d) as [[_ Hq]|Hq];
    rewrite Hq in Hrun; clear Hq.
  2:{ left. eexists _, _. split; [exact Hrun | repeat split]. }
  unfold delete_rule in Hrun.
  change (privacy_rules (after_query d)) with (privacy_rules d) in *.
  destruct (List.filter (owned_by ruleId userId) (privacy_rules d)) as [|row more] eqn:Hhit.
  { left. eexists _, _. split; [exact Hrun|].
    cbn [snd privacy_rules rule_templates rule_audit_log with_rules after_query with_faults].
    split; [apply filter_hit_none; exact Hhit | split; reflexivity]. }
  unfold sbind in Hrun.
  match type of Hrun with
  | context [logAudit ?r ?a ?u ?c ?i ?g ?x] =>
      destruct (logAudit_effect r a u c i g x)
        as (d' & Hlog & Hr' & Ht' & Hi' & Hn' & Hl' & Hok')
  end.
  rewrite Hlog in Hrun. unfold sreturn in Hrun.
  right. exists row, d', more.
  cbn [privacy_rules rule_templates rule_audit_log issued now faults
       with_rules with_issued with_faults after_query] in *.
  split; [exact Hrun|].
  repeat split; try assumption; try congruence.
Qed.

(** [createRuleFromTemplate] fails before it creates anything, or creates
    the rule it has put together. *)
Lemma createRuleFromTemplate_effect templateId userId customizations (d : db) :
  (exists e, createRuleFromTemplate templateId userId customizations d
             = (Throw e, after_query d))
  \/ (exists ruleData,
        createRuleFromTemplate templateId userId customizations d
        = createRule ruleData userId None None (after_query d)).
Proof.
  remember (createRuleFromTemplate templateId userId customizations d) as run eqn:Hrun.
  unfold createRuleFromTemplate in Hrun. rewrite stry_catch_rethrow in Hrun.
  unfold sbind at 1 in Hrun.
  destruct (query_cases (select_public_template templateId) d) as [[_ Hq]|Hq];
    rewrite Hq in Hrun; clear Hq.
  2:{ left. eexists. exact Hrun. }
  unfold select_public_template in Hrun.
  destruct (List.filter _ (rule_templates (after_query d))) as [|template more].
  { left. eexists. exact Hrun. }
  unfold sbind at 1 in Hrun. unfold pure at 1 in Hrun.
  destruct (get (template_config template) "rule_type") as [type|e];
    [|left; eexists; exact Hrun].
  unfold sbind at 1 in Hrun. unfold pure at 1 in Hrun.
  destruct (get (default_to (obj []) customizations) "rule_name") as [name|e];
    [|left; eexists; exact Hrun].
  unfold sbind at 1 in Hrun. unfold pure at 1 in Hrun.
  destruct (get (default_to (obj []) customizations) "rule_description") as [description|e];
    [|left; eexists; exact Hrun].
  unfold sbind at 1 in Hrun. unfold pure at 1 in Hrun.
  destruct (get (default_to (obj []) customizations) "priority") as [prio|e];
    [|left; eexists; exact Hrun].
  right. eexists. exact Hrun.
Qed.

End RuleFacts.

(** ** What every mutation keeps *)

Lemma others_after_insert (userId : string) (row : rule_row) (l : list rule_row) :
  user_id row = userId ->
  List.filter (fun r => negb (String.eqb (user_id r) userId)) (l ++ [row])
  = List.filter (fun r => negb (String.eqb (user_id r) userId)) l.
Proof.
  intros Huser. rewrite List.filter_app. simpl.
  rewrite Huser, String.eqb_refl. simpl. apply app_nil_r.
Qed.

Lemma others_after_update (ruleId userId : string) (set : rule_row -> rule_row)
    (l : list rule_row) :
  (forall r, user_id (set r) = user_id r) ->
  List.filter (fun r => negb (String.eqb (user_id r) userId))
    (map (fun r => if owned_by ruleId userId r then set r else r) l)
  = List.filter (fun r => negb (String.eqb (user_id r) userId)) l.
Proof.
  intros Hset. induction l as [|r l IH]; simpl; [reflexivity|].
  destruct (owned_by ruleId userId r) eqn:Hhit.
  - apply owned_by_spec in Hhit as [_ Huser].
    rewrite Hset, Huser, String.eqb_refl. simpl. exact IH.
  - rewrite IH. reflexivity.
Qed.

Lemma others_after_delete (ruleId userId : string) (l : list rule_row) :
  List.filter (fun r => negb (String.eqb (user_id r) userId))
    (List.filter (fun r => negb (owned_by ruleId userId r)) l)
  = List.filter (fun r => negb (String.eqb (user_id r) userId)) l.
Proof.
  induction l as [|r l IH]; simpl; [reflexivity|].
  destruct (owned_by ruleId userId r) eqn:Hhit; simpl.
  - apply owned_by_spec in Hhit as [_ Huser].
    rewrite Huser, String.eqb_refl. simpl. exact IH.
  - rewrite IH. reflexivity.
Qed.

Lemma ids_after_update (hit : rule_row -> bool) (set : rule_row -> rule_row)
    (l : list rule_row) :
  (forall r, id (set r) = id r) ->
  map id (map (fun r => if hit r then set r else r) l) = map id l.
Proof.
  intros Hset. induction l as [|r l IH]; simpl; [reflexivity|].
  rewrite IH. destruct (hit r); [rewrite Hset|]; reflexivity.
Qed.

Lemma ids_after_delete (keep : rule_row -> bool) (l : list rule_row) :
  NoDup (map id l) -> NoDup (map id (List.filter keep l)).
Proof.
  induction l as [|r l IH]; simpl; [intros; constructor|].
  intros Hnodup. apply NoDup_cons in Hnodup as [Hfresh Hnodup].
  destruct (keep r); simpl; [|apply IH; exact Hnodup].
  apply NoDup_cons. split; [|apply IH; exact Hnodup].
  intros Hin. apply Hfresh.
  apply list_elem_of_In, in_map_iff in Hin as (r' & Hid & Hin).
  apply List.filter_In in Hin as [Hin _].
  apply list_elem_of_In, in_map_iff. exists r'. split; assumption.
Qed.

Lemma ids_after_insert (row : rule_row) (l : list rule_row) :
  existsb (fun r => String.eqb (id r) (id row)) l = false ->
  NoDup (map id l) -> NoDup (map id (l ++ [row])).
Proof.
  intros Hfresh Hnodup. rewrite map_app. apply NoDup_app.
  split; [exact Hnodup|]. split; [|apply NoDup_singleton].
  intros i Hin Hrow. apply list_elem_of_singleton in Hrow. subst i.
  apply list_elem_of_In, in_map_iff in Hin as (r & Hid & Hin).
  assert (Htaken : existsb (fun r => String.eqb (id r) (id row)) l = true).
  { apply existsb_exists. exists r. split; [exact Hin | apply String.eqb_eq; exact Hid]. }
  congruence.
Qed.

Section MutationFacts.
Context `{Runtime}.

Lemma createRule_mutated (m : mutation) ruleData userId ip ua (x d : db) :
  recorded_as m = "CREATE" ->
  privacy_rules x = privacy_rules d -> rule_templates x = rule_templates d ->
  rule_audit_log x = rule_audit_log d -> now x = now d ->
  (faults d = [] -> faults x = []) ->
  (exists e d', createRule ruleData userId ip ua x = (Throw e, d')
                /\ untouched d (Throw e : outcome rule_row, d'))
  \/ (exists row d', createRule ruleData userId ip ua x = (Return row, d')
                     /\ mutated m userId d row d').
Proof.
  intros Hm Hrules Htemplates Hlog Hnow Hfaults.
  destruct (createRule_effect ruleData userId ip ua x)
    as [(e & d' & Hrun & Hr & Ht & Hl)
       |(row & d' & type & name & description & config & prio & Hrun & Hr & Ht & Hi & Hn
         & Hl & Hok & Hid & Huser & _ & _ & _ & _ & _ & _ & _ & _ & _ & _ & _ & _ & _ & _
         & _ & Hfresh)].
  - left. exists e, d'. split; [exact Hrun|]. unfold untouched. simpl.
    repeat split; congruence.
  - right. exists row, d'. split; [exact Hrun|]. unfold mutated. rewrite Hm.
    rewrite <- Hrules, <- Hlog, <- Hnow.
    split; [exact Huser|]. split; [congruence|]. split; [congruence|].
    split; [destruct Hl as [Hl|Hl]; [left; exact Hl | right; eexists _, _, _; exact Hl]|].
    split; [|left; split; assumption].
    intros Hnone. eexists _, _, _. apply Hok. rewrite (Hfaults Hnone). reflexivity.
Qed.

(** The shape of every run of a mutation: it fails and changes nothing, or
    it returns a row and has changed the store as [mutated] says. *)
Lemma perform_effect (m : mutation) (userId : string) (d : db) :
  (exists e d', perform m userId d = (Throw e, d')
                /\ untouched d (Throw e : outcome rule_row, d'))
  \/ (exists row d', perform m userId d = (Return row, d')
                     /\ mutated m userId d row d').
Proof.
  destruct m as [ruleData ip ua|ruleId updates ip ua|ruleId ip ua|templateId custom].
  - apply createRule_mutated; auto.
  - cbn [perform].
    destruct (updateRule_effect ruleId updates userId ip ua d)
      as [(e & d' & Hrun & Hr & Ht & Hl)
         |(row & d' & set & old & more & Hrun & Hhit & -> & Hr & Hset & Ht & Hi & Hn
           & Hl & Hok)].
    + left. exists e, d'. split; [exact Hrun|]. repeat split; assumption.
    + right. exists (set old), d'. split; [exact Hrun|].
      apply filter_head in Hhit as [Hhit _]. apply owned_by_spec in Hhit as [Hid Huser].
      destruct (Hset old) as ((Hid' & Huser' & _) & _).
      unfold mutated. cbn [recorded_as]. rewrite Hid', Hid.
      split; [congruence|]. split; [exact Ht|]. split; [exact Hn|].
      split; [destruct Hl as [Hl|Hl]; [left; exact Hl | right; eexists _, _, _; exact Hl]|].
      split; [intros Hnone; eexists _, _, _; apply Hok; rewrite Hnone; reflexivity|].
      right. left. exists ruleId, set. split; [exact Hr|]. intros r. apply Hset.
  - cbn [perform].
    destruct (deleteRule_effect ruleId userId ip ua d)
      as [(e & d' & Hrun & Hr & Ht & Hl)
         |(row & d' & more & Hrun & Hhit & Hr & Ht & Hi & Hn & Hl & Hok)].
    + left. exists e, d'. split; [exact Hrun|]. repeat split; assumption.
    + right. exists row, d'. split; [exact Hrun|].
      apply filter_head in Hhit as [Hhit _]. apply owned_by_spec in Hhit as [Hid Huser].
      unfold mutated. cbn [recorded_as]. rewrite Hid.
      split; [exact Huser|]. split; [exact Ht|]. split; [exact Hn|].
      split; [destruct Hl as [Hl|Hl]; [left; exact Hl | right; eexists _, _, _; exact Hl]|].
      split; [intros Hnone; eexists _, _, _; apply Hok; rewrite Hnone; reflexivity|].
      right. right. exists ruleId. exact Hr.
  - cbn [perform].
    destruct (createRuleFromTemplate_effect templateId userId custom d)
      as [[e Hrun]|[ruleData Hrun]]; rewrite Hrun.
    + left. exists e, (after_query d). split; [reflexivity|]. repeat split.
    + apply createRule_mutated; try reflexivity.
      intros Hnone. cbn [faults after_query with_faults]. rewrite Hnone. reflexivity.
Qed.

(** X3.  A mutation that fails has changed nothing: the rules, the
    templates and the audit log are what they were, whether the failure is
    the store's, a missing rule or template, or rule data the store
    rejects. *)
Theorem failed_mutation_changes_nothing
    (m : mutation) (userId : string) (d d' : db) (e : error) :
  perform m userId d = (Throw e, d') ->
  privacy_rules d' = privacy_rules d
  /\ rule_templates d' = rule_templates d
  /\ rule_audit_log d' = rule_audit_log d.
Proof.
  intros Hrun.
  destruct (perform_effect m userId d) as [(e' & x & Hx & Hsame)|(row & x & Hx & _)];
    rewrite Hx in Hrun; [|discriminate].
  injection Hrun as _ <-. exact Hsame.
Qed.

Lemma perform_spares_others (m : mutation) (userId : string) (d : db) :
  rows_of_others userId (snd (perform m userId d)) = rows_of_others userId d.
Proof.
  destruct (perform_effect m userId d)
    as [(e & d' & -> & Hr & _)
       |(row & d' & -> & Huser & _ & _ & _ & _ & Hrules)]; simpl in *.
  - unfold rows_of_others. rewrite Hr. reflexivity.
  - unfold rows_of_others.
    destruct Hrules as [[-> _]|[(ruleId & set & -> & Hset)|(ruleId & ->)]].
    + apply others_after_insert. exact Huser.
    + apply others_after_update. intros r. apply (Hset r).
    + apply others_after_delete.
Qed.

(** X4.  No mutation touches what belongs to others: after any of them,
    failed or not, the rules of every other user are the rows they were, in
    the order they were, and so are the templates. *)
Theorem mutation_spares_other_users (m : mutation) (userId : string) (d : db) :
  rows_of_others userId (snd (perform m userId d)) = rows_of_others userId d
  /\ rule_templates (snd (perform m userId d)) = rule_templates d.
Proof.
  split; [apply perform_spares_others|].
  destruct (perform_effect m userId d)
    as [(e & d' & -> & _ & Ht & _)|(row & d' & -> & _ & Ht & _)]; exact Ht.
Qed.

(** X5.  The identifiers of the rules stay unique: when no two rules
    share an id, no mutation makes two of them share one. *)
Theorem mutation_keeps_ids_unique (m : mutation) (userId : string) (d : db) :
  NoDup (map id (privacy_rules d)) ->
  NoDup (map id (privacy_rules (snd (perform m userId d)))).
Proof.
  intros Hnodup.
  destruct (perform_effect m userId d)
    as [(e & d' & -> & Hr & _)
       |(row & d' & -> & _ & _ & _ & _ & _ & Hrules)]; simpl in *.
  - rewrite Hr. exact Hnodup.
  - destruct Hrules as [[-> Hfresh]|[(ruleId & set & -> & Hset)|(ruleId & ->)]].
    + apply ids_after_insert; assumption.
    + rewrite ids_after_update; [exact Hnodup|]. intros r. apply (Hset r).
    + apply ids_after_delete. exact Hnodup.
Qed.

(** X6.  The audit log only grows, by one entry at most for a mutation:
    the entries it had stay, in their order, and the entry added, if any,
    names the caller, the rule the mutation returned, the kind of the
    mutation and the current time.  A failed mutation adds none. *)
Theorem audit_log_is_append_only (m : mutation) (userId : string) (d : db) :
  exists added,
    rule_audit_log (snd (perform m userId d)) = rule_audit_log d ++ added
    /\ (length added <= 1)%nat
    /\ Forall (fun entry =>
                 audit_user_id entry = userId
                 /\ audit_action entry = recorded_as m
                 /\ audit_created_at entry = now d
                 /\ exists row, fst (perform m userId d) = Return row
                                /\ audit_rule_id entry = id row) added.
Proof.
  destruct (perform_effect m userId d)
    as [(e & d' & -> & _ & _ & Hl)
       |(row & d' & -> & _ & _ & _ & [Hl|(what & ip & ua & Hl)] & _)]; simpl in *.
  - exists []. rewrite app_nil_r. split; [exact Hl|]. split; [simpl; lia | constructor].
  - exists []. rewrite app_nil_r. split; [exact Hl|]. split; [simpl; lia | constructor].
  - eexists. split; [exact Hl|]. split; [simpl; lia|].
    repeat constructor. exists row. split; reflexivity.
Qed.

(** X7.  When no fault of the store is scheduled, a mutation that
    succeeds is recorded: the audit log ends with an entry for the rule
    returned, under the kind of the mutation and the name of the caller. *)
Theorem successful_mutation_is_recorded
    (m : mutation) (userId : string) (d d' : db) (row : rule_row) :
  faults d = [] ->
  perform m userId d = (Return row, d') ->
  exists entry,
    rule_audit_log d' = rule_audit_log d ++ [entry]
    /\ audit_rule_id entry = id row
    /\ audit_action entry = recorded_as m
    /\ audit_user_id entry = userId
    /\ audit_created_at entry = now d.
Proof.
  intros Hnone Hrun.
  destruct (perform_effect m userId d) as [(e' & x & Hx & _)|(row' & x & Hx & Hm)];
    rewrite Hx in Hrun; [discriminate|].
  injection Hrun as <- <-.
  destruct Hm as (_ & _ & _ & _ & Hok & _).
  destruct (Hok Hnone) as (what & ip & ua & Hl).
  eexists. split; [exact Hl|]. repeat split.
Qed.

End MutationFacts.

Lemma failed_mutation_changes_nothing_witness :
  exists e d',
    perform (H := Small.runtime) (Delete "r1" None None) "u2" sample_db = (Throw e, d')
    /\ privacy_rules d' = privacy_rules sample_db
    /\ rule_templates d' = rule_templates sample_db
    /\ rule_audit_log d' = rule_audit_log sample_db.
Proof.
  eexists _, _. split; [vm_compute; reflexivity|].
  eapply (failed_mutation_changes_nothing (H := Small.runtime)
            (Delete "r1" None None) "u2" sample_db).
  vm_compute. reflexivity.
Defined.

Lemma mutation_keeps_ids_unique_witness :
  NoDup (map id (privacy_rules sample_db))
  /\ NoDup (map id (privacy_rules
                      (snd (perform (H := Small.runtime)
                              (Create sample_rule_data None None) "u1" sample_db)))).
Proof.
  assert (Hunique : NoDup (map id (privacy_rules sample_db))).
  { apply (bool_decide_eq_true_1 _). vm_compute. reflexivity. }
  split; [exact Hunique|].
  apply (mutation_keeps_ids_unique (H := Small.runtime)
           (Create sample_rule_data None None) "u1" sample_db Hunique).
Defined.

Lemma successful_mutation_is_recorded_witness :
  faults (after_query sample_db) = []
  /\ exists row d',
       perform (H := Small.runtime) (Create sample_rule_data None None) "u1"
         (after_query sample_db) = (Return row, d')
       /\ exists entry,
            rule_audit_log d' = rule_audit_log (after_query sample_db) ++ [entry]
            /\ audit_rule_id entry = id row
            /\ audit_action entry = "CREATE"
            /\ audit_user_id entry = "u1"
            /\ audit_created_at entry = now (after_query sample_db).
Proof.
  split; [reflexivity|].
  eexists _, _. split; [vm_compute; reflexivity|].
  eapply (successful_mutation_is_recorded (H := Small.runtime)
            (Create sample_rule_data None None) "u1" (after_query sample_db));
    [reflexivity | vm_compute; reflexivity].
Defined.

(** ** Reading back what a mutation did *)

Lemma filter_updated (ruleId userId : string) (set : rule_row -> rule_row)
    (l : list rule_row) :
  (forall r, same_identity r (set r)) ->
  List.filter (owned_by ruleId userId)
    (map (fun r => if owned_by ruleId userId r then set r else r) l)
  = map set (List.filter (owned_by ruleId userId) l).
Proof.
  intros Hset. induction l as [|r l IH]; simpl; [reflexivity|].
  destruct (owned_by ruleId userId r) eqn:Hhit.
  - assert (Hhit' : owned_by ruleId userId (set r) = true).
    { apply owned_by_spec. apply owned_by_spec in Hhit as [Hid Huser].
      destruct (Hset r) as (Hid' & Huser' & _). split; congruence. }
    rewrite Hhit'. simpl. rewrite IH. reflexivity.
  - rewrite Hhit. exact IH.
Qed.

Lemma filter_deleted {A} (hit : A -> bool) (l : list A) :
  List.filter hit (List.filter (fun x => negb (hit x)) l) = [].
Proof.
  induction l as [|x l IH]; simpl; [reflexivity|].
  destruct (hit x) eqn:Hhit; simpl; [exact IH|]. rewrite Hhit. exact IH.
Qed.

Lemma filter_fresh (ruleId userId : string) (l : list rule_row) :
  existsb (fun r => String.eqb (id r) ruleId) l = false ->
  List.filter (owned_by ruleId userId) l = [].
Proof.
  induction l as [|r l IH]; simpl; [reflexivity|].
  intros Hfresh. apply orb_false_iff in Hfresh as [Hr Hl].
  unfold owned_by at 1. rewrite Hr. simpl. apply IH. exact Hl.
Qed.

Section ReadBack.
Context `{Runtime}.

Lemma getRule_runs (ruleId userId : string) (d : db) :
  next_query_succeeds d ->
  getRule ruleId userId d
  = (match List.filter (owned_by ruleId userId) (privacy_rules d) with
     | [] => Throw rule_not_found
     | row :: _ => Return row
     end, after_query d).
Proof.
  intros Hok. unfold getRule. rewrite stry_catch_rethrow. unfold sbind.
  rewrite (query_succeeds _ d Hok). unfold select_rule.
  change (privacy_rules (after_query d)) with (privacy_rules d).
  destruct (List.filter (owned_by ruleId userId) (privacy_rules d)); reflexivity.
Qed.

(** X8.  When the store answers, [getRule] returns a row of the table
    that has the id and the owner asked for, or fails with "Rule not found"
    and the table has no such row: a rule of somebody else is reported as a
    rule that does not exist. *)
Theorem getRule_scoped (ruleId userId : string) (d : db) :
  next_query_succeeds d ->
  (exists row,
     getRule ruleId userId d = (Return row, after_query d)
     /\ id row = ruleId /\ user_id row = userId /\ row ∈ privacy_rules d)
  \/ (getRule ruleId userId d = (Throw rule_not_found, after_query d)
      /\ Forall (fun row => ~ (id row = ruleId /\ user_id row = userId))
           (privacy_rules d)).
Proof.
  intros Hok. rewrite (getRule_runs ruleId userId d Hok).
  destruct (List.filter (owned_by ruleId userId) (privacy_rules d)) as [|row more] eqn:Hhit.
  - right. split; [reflexivity|]. rewrite Forall_forall. intros row Hin Hrow.
    apply owned_by_spec in Hrow.
    assert (Hfound : In row (List.filter (owned_by ruleId userId) (privacy_rules d))).
    { apply List.filter_In. split; [apply list_elem_of_In; exact Hin | exact Hrow]. }
    rewrite Hhit in Hfound. exact Hfound.
  - left. exists row. split; [reflexivity|].
    apply filter_head in Hhit as [Hrow Hin]. apply owned_by_spec in Hrow as [Hid Huser].
    repeat split; [exact Hid | exact Huser | apply list_elem_of_In; exact Hin].
Qed.

Lemma createRule_readback ruleData userId ip ua (x d' : db) (row : rule_row) :
  createRule ruleData userId ip ua x = (Return row, d') ->
  List.filter (owned_by (id row) userId) (privacy_rules d') = [row].
Proof.
  intros Hrun.
  destruct (createRule_effect ruleData userId ip ua x)
    as [(e & x' & Hx & _)
       |(row' & x' & type & name & description & config & prio & Hx & Hr & _ & _ & _
         & _ & _ & _ & Huser & _ & _ & _ & _ & _ & _ & _ & _ & _ & _ & _ & _ & _ & _
         & _ & Hfresh)];
    rewrite Hx in Hrun; [discriminate|].
  injection Hrun as <- <-.
  rewrite Hr, List.filter_app, (filter_fresh _ _ _ Hfresh). simpl.
  assert (Hown : owned_by (id row') userId row' = true)
    by (apply owned_by_spec; split; [reflexivity | exact Huser]).
  rewrite Hown. reflexivity.
Qed.

(** X9.  What a mutation returns is what a reader then finds: after a
    rule has been created (from rule data or from a template) or updated,
    [getRule] with the id of the returned row and the caller returns that
    very row; after it has been deleted, [getRule] fails with
    "Rule not found". *)
Theorem mutation_then_getRule
    (m : mutation) (userId : string) (d d' : db) (row : rule_row) :
  perform m userId d = (Return row, d') ->
  next_query_succeeds d' ->
  getRule (id row) userId d'
  = (match m with
     | Delete _ _ _ => Throw rule_not_found
     | _ => Return row
     end, after_query d').
Proof.
  intros Hrun Hok. rewrite (getRule_runs (id row) userId d' Hok).
  destruct m as [ruleData ip ua|ruleId updates ip ua|ruleId ip ua|templateId custom];
    cbn [perform] in Hrun.
  - rewrite (createRule_readback _ _ _ _ _ _ _ Hrun). reflexivity.
  - destruct (updateRule_effect ruleId updates userId ip ua d)
      as [(e & x & Hx & _)
         |(row' & x & set & old & more & Hx & Hhit & -> & Hr & Hset & _)];
      rewrite Hx in Hrun; [discriminate|].
    injection Hrun as <- <-.
    pose proof (filter_head _ _ _ _ Hhit) as [Hold _].
    apply owned_by_spec in Hold as [Hid _].
    destruct (Hset old) as ((Hid' & _) & _).
    rewrite Hid', Hid, Hr, filter_updated, Hhit; [reflexivity|].
    intros r. apply (Hset r).
  - destruct (deleteRule_effect ruleId userId ip ua d)
      as [(e & x & Hx & _)|(row' & x & more & Hx & Hhit & Hr & _)];
      rewrite Hx in Hrun; [discriminate|].
    injection Hrun as <- <-.
    pose proof (filter_head _ _ _ _ Hhit) as [Hold _].
    apply owned_by_spec in Hold as [Hid _].
    rewrite Hid, Hr, filter_deleted. reflexivity.
  - destruct (createRuleFromTemplate_effect templateId userId custom d)
      as [[e Hx]|[ruleData Hx]]; rewrite Hx in Hrun; [discriminate|].
    rewrite (createRule_readback _ _ _ _ _ _ _ Hrun). reflexivity.
Qed.

(** X10.  A rule that [createRule] returns is the row added at the end
    of the table: it has the identifier just drawn, belongs to the caller
    and names them as its creator, is active, carries the current time as
    its creation and update time and has no updater; its priority is 1 when
    the rule data has no priority or a priority of 0. *)
Theorem createRule_fills_defaults
    (ruleData : value) (userId : string) ip ua (d d' : db) (row : rule_row) :
  createRule ruleData userId ip ua d = (Return row, d') ->
  privacy_rules d' = privacy_rules d ++ [row]
  /\ id row = uuidv4 (issued d) /\ user_id row = userId /\ is_active row = true
  /\ created_at row = now d /\ updated_at row = now d
  /\ created_by row = Some userId /\ updated_by row = None
  /\ (forall given, get ruleData "priority" = Return given -> truthy given = false ->
      priority row = 1%Z).
Proof.
  intros Hrun.
  destruct (createRule_effect ruleData userId ip ua d)
    as [(e & x' & Hx & _)
       |(row' & x' & type & name & description & config & prio & Hx & Hr & _ & _ & _
         & _ & _ & Hid & Huser & Hactive & Hcreated & Hupdated & Hby & Hupd & _ & _ & _
         & _ & Hprio & _ & _ & _ & _ & Hbound & _)];
    rewrite Hx in Hrun; [discriminate|].
  injection Hrun as <- <-.
  repeat split; try assumption.
  intros given Hgiven Hfalsy. rewrite Hprio in Hgiven. injection Hgiven as ->.
  unfold js_or in Hbound. rewrite Hfalsy in Hbound.
  rewrite bind_param_VInt in Hbound by lia. congruence.
Qed.

(** X11.  [createRule] stores no rule without a type, a name and a
    configuration, validated or not: when it returns, the rule data has a
    [rule_type] and a [rule_name] that are neither undefined nor null and a
    [rule_config] that is not undefined; when that configuration is JSON
    data, it is the stored configuration. *)
Theorem createRule_needs_type_name_config
    (ruleData : value) (userId : string) ip ua (d d' : db) (row : rule_row) :
  createRule ruleData userId ip ua d = (Return row, d') ->
  exists type name config,
    get ruleData "rule_type" = Return type /\ nullish type = false
    /\ get ruleData "rule_name" = Return name /\ nullish name = false
    /\ get ruleData "rule_config" = Return config /\ config <> VUndef
    /\ (json_data config -> rule_config row = config).
Proof.
  intros Hrun.
  destruct (createRule_effect ruleData userId ip ua d)
    as [(e & x' & Hx & _)
       |(row' & x' & type & name & description & config & prio & Hx & _ & _ & _ & _
         & _ & _ & _ & _ & _ & _ & _ & _ & _ & Htype & Hname & _ & Hconfig & _
         & (Hstored & Hgiven) & Htext & Hntext & _)];
    rewrite Hx in Hrun; [discriminate|].
  injection Hrun as <- <-.
  exists type, name, config.
  unfold bind_param in Htext, Hntext.
  destruct (nullish type); [discriminate|]. destruct (nullish name); [discriminate|].
  repeat split; try assumption.
  intros Hjson. rewrite Hstored. apply jsonify_json_data. exact Hjson.
Qed.

(** X12.  Whatever the update carries, [updateRule] cannot give a rule
    another id, owner, type, creation time or creator, and adds or removes
    no row: the table after it lines up with the table before it, row by
    row, each row with the identity it had and the rows that are not the
    caller's rule with this id untouched.  The row returned has the id asked
    for, belongs to the caller, names them as its updater and carries the
    current time as its update time. *)
Theorem updateRule_keeps_identity
    (ruleId : string) (updates : value) (userId : string) ip ua
    (d d' : db) (row : rule_row) :
  updateRule ruleId updates userId ip ua d = (Return row, d') ->
  id row = ruleId /\ user_id row = userId
  /\ updated_by row = Some userId /\ updated_at row = now d
  /\ Forall2 (fun old new =>
                same_identity old new
                /\ (~ (id old = ruleId /\ user_id old = userId) -> new = old))
       (privacy_rules d) (privacy_rules d').
Proof.
  intros Hrun.
  destruct (updateRule_effect ruleId updates userId ip ua d)
    as [(e & x & Hx & _)
       |(row' & x & set & old & more & Hx & Hhit & -> & Hr & Hset & _)];
    rewrite Hx in Hrun; [discriminate|].
  injection Hrun as <- <-.
  apply filter_head in Hhit as [Hold _]. apply owned_by_spec in Hold as [Hid Huser].
  destruct (Hset old) as ((Hid' & Huser' & _) & Hat & Hby).
  split; [congruence|]. split; [congruence|]. split; [exact Hby|]. split; [exact Hat|].
  rewrite Hr. clear Hr. induction (privacy_rules d) as [|r l IH]; simpl; constructor.
  - destruct (owned_by ruleId userId r) eqn:Hown.
    + split; [apply (Hset r)|]. intros Hnot. apply owned_by_spec in Hown. contradiction.
    + split; [repeat split | reflexivity].
  - exact IH.
Qed.

End ReadBack.

Lemma getRule_scoped_witness :
  next_query_succeeds sample_db
  /\ ((exists row,
         getRule "r1" "u2" sample_db = (Return row, after_query sample_db)
         /\ id row = "r1" /\ user_id row = "u2" /\ row ∈ privacy_rules sample_db)
      \/ (getRule "r1" "u2" sample_db = (Throw rule_not_found, after_query sample_db)
          /\ Forall (fun row => ~ (id row = "r1" /\ user_id row = "u2"))
               (privacy_rules sample_db))).
Proof.
  split; [reflexivity|].
  apply (getRule_scoped "r1" "u2" sample_db). reflexivity.
Defined.

Lemma mutation_then_getRule_witness :
  exists row d',
    perform (H := Small.runtime) (Update "r3" (obj [("priority", VInt 2)]) None None)
      "u1" sample_db = (Return row, d')
    /\ next_query_succeeds d'
    /\ getRule (id row) "u1" d' = (Return row, after_query d').
Proof.
  eexists _, _. split; [vm_compute; reflexivity|]. split; [reflexivity|].
  apply (mutation_then_getRule (H := Small.runtime)
           (Update "r3" (obj [("priority", VInt 2)]) None None) "u1" sample_db);
    [vm_compute; reflexivity | reflexivity].
Defined.

Lemma createRule_fills_defaults_witness :
  exists row d',
    createRule (H := Small.runtime) sample_rule_data "u1" None None sample_db
    = (Return row, d')
    /\ privacy_rules d' = privacy_rules sample_db ++ [row]
    /\ id row = uuidv4 (Runtime := Small.runtime) (issued sample_db)
    /\ user_id row = "u1" /\ is_active row = true
    /\ created_at row = now sample_db /\ updated_at row = now sample_db
    /\ created_by row = Some "u1" /\ updated_by row = None
    /\ (forall given, get sample_rule_data "priority" = Return given ->
        truthy given = false -> priority row = 1%Z).
Proof.
  eexists _, _. split; [vm_compute; reflexivity|].
  eapply (createRule_fills_defaults (H := Small.runtime) sample_rule_data "u1" None None
            sample_db).
  vm_compute. reflexivity.
Defined.

Lemma createRule_needs_type_name_config_witness :
  exists row d',
    createRule (H := Small.runtime) sample_rule_data "u1" None None sample_db
    = (Return row, d')
    /\ exists type name config,
         get sample_rule_data "rule_type" = Return type /\ nullish type = false
         /\ get sample_rule_data "rule_name" = Return name /\ nullish name = false
         /\ get sample_rule_data "rule_config" = Return config /\ config <> VUndef
         /\ (json_data config -> rule_config row = config).
Proof.
  eexists _, _. split; [vm_compute; reflexivity|].
  eapply (createRule_needs_type_name_config (H := Small.runtime) sample_rule_data "u1"
            None None sample_db).
  vm_compute. reflexivity.
Defined.

Lemma updateRule_keeps_identity_witness :
  let updates := obj [("id", VStr "r2"); ("user_id", VStr "u2"); ("priority", VInt 2)] in
  exists row d',
    updateRule (H := Small.runtime) "r3" updates "u1" None None sample_db
    = (Return row, d')
    /\ id row = "r3" /\ user_id row = "u1"
    /\ updated_by row = Some "u1" /\ updated_at row = now sample_db
    /\ Forall2 (fun old new =>
                  same_identity old new
                  /\ (~ (id old = "r3" /\ user_id old = "u1") -> new = old))
         (privacy_rules sample_db) (privacy_rules d').
Proof.
  intros updates. eexists _, _. split; [vm_compute; reflexivity|].
  eapply (updateRule_keeps_identity (H := Small.runtime) "r3" updates "u1" None None
            sample_db).
  vm_compute. reflexivity.
Defined.

(** ** Reading the audit log and the templates *)

Lemma insert_by_perm {A} (before : A -> A -> bool) (x : A) (l : list A) :
  insert_by before x l ≡ₚ x :: l.
Proof.
  induction l as [|y l IH]; simpl; [reflexivity|].
  destruct (before y x); [|reflexivity].
  rewrite IH. apply Permutation_swap.
Qed.

Lemma order_by_perm {A} (before : A -> A -> bool) (l : list A) :
  order_by before l ≡ₚ l.
Proof.
  induction l as [|x l IH]; simpl; [reflexivity|].
  rewrite insert_by_perm, IH. reflexivity.
Qed.

Lemma order_by_sorted {A} (before : A -> A -> bool) (R : A -> A -> Prop) (l : list A) :
  (forall a b, before a b = true -> R a b) ->
  (forall a b, before a b = false -> R b a) ->
  (forall a b c, R a b -> R b c -> R a c) ->
  StronglySorted R (order_by before l).
Proof.
  intros Hyes Hno Htrans.
  assert (Hinsert : forall x k, StronglySorted R k -> StronglySorted R (insert_by before x k)).
  { intros x k. induction 1 as [|y k Hsorted IH Hy]; simpl.
    - repeat constructor.
    - destruct (before y x) eqn:Hb.
      + constructor; [exact IH|].
        rewrite Forall_forall. intros z Hz.
        rewrite insert_by_perm in Hz. apply elem_of_cons in Hz as [->|Hz].
        * apply Hyes. exact Hb.
        * rewrite Forall_forall in Hy. apply Hy. exact Hz.
      + assert (Hxy : R x y) by (apply Hno; exact Hb).
        constructor; [constructor; assumption|].
        constructor; [exact Hxy|].
        eapply Forall_impl; [exact Hy|]. intros z Hz. exact (Htrans _ _ _ Hxy Hz). }
  induction l as [|x l IH]; simpl; [constructor|].
  apply Hinsert. exact IH.
Qed.

Lemma take_sorted {A} (R : A -> A -> Prop) (n : nat) (l : list A) :
  StronglySorted R l -> StronglySorted R (take n l).
Proof.
  intros Hsorted. revert n.
  induction Hsorted as [|x l Hsorted IH Hx]; intros [|n]; simpl; try constructor.
  - apply IH.
  - apply Forall_take. exact Hx.
Qed.

Lemma newer_sorted (l : list audit_row) : StronglySorted not_older (order_by newer l).
Proof.
  apply order_by_sorted; unfold newer, not_older.
  - intros a b Hb. apply Z.ltb_lt in Hb. lia.
  - intros a b Hb. apply Z.ltb_ge in Hb. lia.
  - intros a b c. lia.
Qed.

Section ReadingFacts.
Context `{Runtime}.

Lemma bind_param_boolean_value (b : bool) :
  bind_param pg_boolean (VBool b) = Some (Some b).
Proof. unfold bind_param. simpl. rewrite pg_boolean_bool. reflexivity. Qed.

(** What the SELECT on the audit log returns. *)
Lemma select_audit_log_returns rule_filter user_filter limit (x x' : db) entries :
  select_audit_log rule_filter user_filter limit x = (Return entries, x') ->
  exists keep : audit_row -> bool,
    ((bind_param pg_integer limit = Some None
      /\ entries = order_by newer (List.filter keep (rule_audit_log x)))
     \/ exists n, bind_param pg_integer limit = Some (Some n) /\ (0 <= n)%Z
                  /\ entries = take (Z.to_nat n)
                                 (order_by newer (List.filter keep (rule_audit_log x))))
    /\ (forall r, rule_filter = Some (VStr r) ->
        forall entry, keep entry = true -> audit_rule_id entry = r)
    /\ (forall u, user_filter = Some (VStr u) ->
        forall entry, keep entry = true -> audit_user_id entry = u).
Proof.
  unfold select_audit_log.
  destruct (from_option (bind_param pg_text) (Some None) rule_filter) as [rule|] eqn:Hrule;
    [|discriminate].
  destruct (from_option (bind_param pg_text) (Some None) user_filter) as [user|] eqn:Huser;
    [|discriminate].
  set (keep := fun entry : audit_row =>
                 match rule_filter, rule with
                 | None, _ => true
                 | Some _, Some r => String.eqb (audit_rule_id entry) r
                 | Some _, None => false
                 end
                 && match user_filter, user with
                    | None, _ => true
                    | Some _, Some u => String.eqb (audit_user_id entry) u
                    | Some _, None => false
                    end).
  assert (Hkept : (forall r, rule_filter = Some (VStr r) ->
                   forall entry, keep entry = true -> audit_rule_id entry = r)
                  /\ (forall u, user_filter = Some (VStr u) ->
                      forall entry, keep entry = true -> audit_user_id entry = u)).
  { split.
    - intros r ->. cbn [from_option] in Hrule. rewrite bind_param_VStr in Hrule.
      injection Hrule as <-. intros entry Hkeep.
      apply andb_true_iff in Hkeep as [Hkeep _]. apply String.eqb_eq. exact Hkeep.
    - intros u ->. cbn [from_option] in Huser. rewrite bind_param_VStr in Huser.
      injection Huser as <-. intros entry Hkeep.
      apply andb_true_iff in Hkeep as [_ Hkeep]. apply String.eqb_eq. exact Hkeep. }
  destruct (bind_param pg_integer limit) as [[n|]|]; [| |discriminate].
  - destruct (n <? 0)%Z eqn:Hneg; [discriminate|]. apply Z.ltb_ge in Hneg.
    intros Hsel. injection Hsel as <- <-.
    exists keep. split; [|exact Hkept].
    right. exists n. repeat split. exact Hneg.
  - intros Hsel. injection Hsel as <- <-.
    exists keep. split; [|exact Hkept]. left. split; reflexivity.
Qed.

(** X13.  The entries [getAuditLog] returns are entries of the audit
    log, newest first; with a rule id or a user id that is a text and not
    empty they are entries of that rule or that user only; and there are no
    more of them than the limit, which is 100 when none is given. *)
Theorem getAuditLog_newest_first_and_limited
    (ruleId userId limit : value) (d d' : db) (entries : list audit_row) :
  getAuditLog ruleId userId limit d = (Return entries, d') ->
  StronglySorted not_older entries
  /\ Forall (fun entry => entry ∈ rule_audit_log d) entries
  /\ (forall r, ruleId = VStr r -> r <> "" ->
      Forall (fun entry => audit_rule_id entry = r) entries)
  /\ (forall u, userId = VStr u -> u <> "" ->
      Forall (fun entry => audit_user_id entry = u) entries)
  /\ (forall n, default_to (VInt 100) limit = VInt n -> (0 <= n < 2 ^ 31)%Z ->
      (length entries <= Z.to_nat n)%nat).
Proof.
  unfold getAuditLog. rewrite stry_catch_rethrow. intros Hget.
  apply query_returns in Hget as (x & (_ & _ & Hlog & _) & Hsel).
  apply select_audit_log_returns in Hsel as (keep & Hentries & Hrule & Huser).
  rewrite Hlog in Hentries. clear Hlog.
  set (all := order_by newer (List.filter keep (rule_audit_log d))) in Hentries.
  assert (Hall : forall entry, entry ∈ all -> entry ∈ rule_audit_log d /\ keep entry = true).
  { intros entry Hin. unfold all in Hin. rewrite order_by_perm in Hin.
    apply list_elem_of_In, List.filter_In in Hin as [Hin Hkeep].
    split; [apply list_elem_of_In; exact Hin | exact Hkeep]. }
  assert (Hsub : forall entry, entry ∈ entries -> entry ∈ all).
  { intros entry Hin.
    destruct Hentries as [[_ ->]|(n & _ & _ & ->)]; [exact Hin|].
    apply (subseteq_take (Z.to_nat n) all). exact Hin. }
  split.
  { destruct Hentries as [[_ ->]|(n & _ & _ & ->)];
      [|apply take_sorted]; apply newer_sorted. }
  split.
  { rewrite Forall_forall. intros entry Hin. apply Hall, Hsub, Hin. }
  split.
  { intros r -> Hr. rewrite Forall_forall. intros entry Hin.
    apply (Hrule r); [|apply Hall, Hsub, Hin].
    cbn [default_to truthy]. destruct (String.eqb_spec r ""); [contradiction | reflexivity]. }
  split.
  { intros u -> Hu. rewrite Forall_forall. intros entry Hin.
    apply (Huser u); [|apply Hall, Hsub, Hin].
    cbn [default_to truthy]. destruct (String.eqb_spec u ""); [contradiction | reflexivity]. }
  intros n Hlimit Hfit. rewrite Hlimit in Hentries.
  rewrite bind_param_VInt in Hentries by lia.
  destruct Hentries as [[Hnull _]|(n' & Hn & _ & ->)]; [discriminate|].
  injection Hn as <-. apply firstn_le_length.
Qed.

End ReadingFacts.

Lemma getAuditLog_newest_first_and_limited_witness :
  exists entries d',
    getAuditLog (H := Small.runtime) (VStr "r1") VUndef (VInt 1) audit_db
    = (Return entries, d')
    /\ StronglySorted not_older entries
    /\ Forall (fun entry => entry ∈ rule_audit_log audit_db) entries
    /\ (forall r, VStr "r1" = VStr r -> r <> "" ->
        Forall (fun entry => audit_rule_id entry = r) entries)
    /\ (forall u, VUndef = VStr u -> u <> "" ->
        Forall (fun entry => audit_user_id entry = u) entries)
    /\ (forall n, default_to (VInt 100) (VInt 1) = VInt n -> (0 <= n < 2 ^ 31)%Z ->
        (length entries <= Z.to_nat n)%nat).
Proof.
  eexists _, _. split; [vm_compute; reflexivity|].
  eapply (getAuditLog_newest_first_and_limited (H := Small.runtime)
            (VStr "r1") VUndef (VInt 1) audit_db).
  vm_compute. reflexivity.
Defined.

(** ** Templates *)

Section TemplateListing.
Context `{Runtime}.

(** What the SELECT on the templates returns. *)
Lemma select_templates_returns text_before isPublic category_filter (x x' : db) listing :
  select_templates text_before isPublic category_filter x = (Return listing, x') ->
  exists keep : template_row -> bool,
    listing ≡ₚ List.filter keep (rule_templates x)
    /\ (forall b, isPublic = VBool b -> forall t, keep t = true -> is_public t = b)
    /\ (forall c, category_filter = Some (VStr c) ->
        forall t, keep t = true -> template_category t = c)
    /\ (forall b, isPublic = VBool b -> category_filter = None ->
        forall t, is_public t = b -> keep t = true).
Proof.
  unfold select_templates.
  destruct (bind_param pg_boolean isPublic) as [public|] eqn:Hpublic; [|discriminate].
  destruct (from_option (bind_param pg_text) (Some None) category_filter)
    as [category|] eqn:Hcategory; [|discriminate].
  intros Hsel. injection Hsel as <- _.
  eexists. split; [apply order_by_perm|].
  split; [|split].
  - intros b ->. rewrite bind_param_boolean_value in Hpublic. injection Hpublic as <-.
    intros t Hkeep. apply andb_true_iff in Hkeep as [Hkeep _].
    apply Bool.eqb_prop. exact Hkeep.
  - intros c ->. cbn [from_option] in Hcategory. rewrite bind_param_VStr in Hcategory.
    injection Hcategory as <-. intros t Hkeep.
    apply andb_true_iff in Hkeep as [_ Hkeep]. apply String.eqb_eq. exact Hkeep.
  - intros b -> -> t Ht. rewrite bind_param_boolean_value in Hpublic.
    injection Hpublic as <-. rewrite Ht, Bool.eqb_reflx. reflexivity.
Qed.

(** What a listing of templates holds. *)
Lemma getRuleTemplates_returns
    (text_before : string -> string -> bool) (category isPublic : value)
    (d d' : db) (listing : list template_row) :
  getRuleTemplates text_before category isPublic d = (Return listing, d') ->
  exists keep : template_row -> bool,
    (forall t, t ∈ listing <-> t ∈ rule_templates d /\ keep t = true)
    /\ (forall b, default_to (VBool true) isPublic = VBool b ->
        forall t, keep t = true -> is_public t = b)
    /\ (forall c, category = VStr c -> c <> "" ->
        forall t, keep t = true -> template_category t = c)
    /\ (forall b, default_to (VBool true) isPublic = VBool b -> nullish category = true ->
        forall t, is_public t = b -> keep t = true).
Proof.
  unfold getRuleTemplates. rewrite stry_catch_rethrow. intros Hget.
  apply query_returns in Hget as (x & (_ & Htemplates & _) & Hsel).
  apply select_templates_returns in Hsel as (keep & Hperm & Hpublic & Hcategory & Hall).
  rewrite Htemplates in Hperm. clear Htemplates.
  exists keep. split; [|split; [|split]].
  - intros t. rewrite Hperm, !list_elem_of_In, List.filter_In. reflexivity.
  - exact Hpublic.
  - intros c -> Hc. apply (Hcategory c).
    cbn [default_to truthy]. destruct (String.eqb_spec c ""); [contradiction | reflexivity].
  - intros b Hb Hnone. apply (Hall b Hb).
    destruct category; try discriminate; reflexivity.
Qed.

(** X14.  The templates [getRuleTemplates] returns are templates of the
    table; with a visibility that is a boolean (it is [true] when none is
    given) all of them have that visibility, and with a category that is a
    text and not empty all of them are of that category.  Without a category
    every template of the visibility asked for is returned. *)
Theorem getRuleTemplates_scoped
    (text_before : string -> string -> bool) (category isPublic : value)
    (d d' : db) (listing : list template_row) :
  getRuleTemplates text_before category isPublic d = (Return listing, d') ->
  Forall (fun t => t ∈ rule_templates d) listing
  /\ (forall b, default_to (VBool true) isPublic = VBool b ->
      Forall (fun t => is_public t = b) listing)
  /\ (forall c, category = VStr c -> c <> "" ->
      Forall (fun t => template_category t = c) listing)
  /\ (forall b, default_to (VBool true) isPublic = VBool b -> nullish category = true ->
      forall t, t ∈ rule_templates d -> is_public t = b -> t ∈ listing).
Proof.
  intros Hget.
  apply getRuleTemplates_returns in Hget as (keep & Hin & Hpublic & Hcategory & Hall).
  split; [|split; [|split]].
  - rewrite Forall_forall. intros t Ht. apply Hin in Ht as [Ht _]. exact Ht.
  - intros b Hb. rewrite Forall_forall. intros t Ht. apply Hin in Ht as [_ Ht].
    apply (Hpublic b Hb t Ht).
  - intros c Hc Hfilled. rewrite Forall_forall. intros t Ht. apply Hin in Ht as [_ Ht].
    apply (Hcategory c Hc Hfilled t Ht).
  - intros b Hb Hnone t Ht Hvisible. apply Hin. split; [exact Ht|].
    apply (Hall b Hb Hnone t Hvisible).
Qed.

(** X15.  A template that the public listing does not show cannot be
    instantiated: when the listing of the public templates has no template
    with the id asked for, [createRuleFromTemplate] fails with
    "Template not found", whatever the customizations are, and a private
    template is reported like one that does not exist. *)
Theorem unlisted_template_is_not_found
    (text_before : string -> string -> bool)
    (templateId userId : string) (customizations : value)
    (d d' : db) (listing : list template_row) :
  next_query_succeeds d ->
  getRuleTemplates text_before VUndef VUndef d = (Return listing, d') ->
  Forall (fun t => template_id t <> templateId) listing ->
  createRuleFromTemplate templateId userId customizations d
  = (Throw template_not_found, after_query d).
Proof.
  intros Hok Hget Hnone.
  apply getRuleTemplates_returns in Hget as (keep & Hlisted & _ & _ & Hall).
  apply createRuleFromTemplate_missing; [exact Hok|].
  unfold public_templates.
  destruct (List.filter _ (rule_templates d)) as [|t more] eqn:Hfound; [reflexivity|].
  apply filter_head in Hfound as [Ht Hin].
  apply andb_true_iff in Ht as [Hid Hpublic]. apply String.eqb_eq in Hid.
  rewrite Forall_forall in Hnone.
  destruct (Hnone t); [|exact Hid].
  apply Hlisted. split; [apply list_elem_of_In; exact Hin|].
  apply (Hall true); [reflexivity | reflexivity | exact Hpublic].
Qed.

End TemplateListing.

Lemma getRuleTemplates_scoped_witness :
  exists listing d',
    getRuleTemplates (H := Small.runtime) String.ltb VUndef VUndef template_db
    = (Return listing, d')
    /\ Forall (fun t => t ∈ rule_templates template_db) listing
    /\ (forall b, default_to (VBool true) VUndef = VBool b ->
        Forall (fun t => is_public t = b) listing)
    /\ (forall c, VUndef = VStr c -> c <> "" ->
        Forall (fun t => template_category t = c) listing)
    /\ (forall b, default_to (VBool true) VUndef = VBool b -> nullish VUndef = true ->
        forall t, t ∈ rule_templates template_db -> is_public t = b -> t ∈ listing).
Proof.
  eexists _, _. split; [vm_compute; reflexivity|].
  eapply (getRuleTemplates_scoped (H := Small.runtime) String.ltb VUndef VUndef
            template_db).
  vm_compute. reflexivity.
Defined.

Lemma unlisted_template_is_not_found_witness :
  next_query_succeeds template_db
  /\ exists listing d',
       getRuleTemplates (H := Small.runtime) String.ltb VUndef VUndef template_db
       = (Return listing, d')
       /\ Forall (fun t => template_id t <> "t2") listing
       /\ createRuleFromTemplate (H := Small.runtime) "t2" "u1" VUndef template_db
          = (Throw template_not_found, after_query template_db).
Proof.
  split; [reflexivity|].
  assert (Hlisting : getRuleTemplates (H := Small.runtime) String.ltb VUndef VUndef
                       template_db
                     = (Return [sample_template], after_query template_db))
    by (vm_compute; reflexivity).
  assert (Hnone : Forall (fun t => template_id t <> "t2") [sample_template])
    by (repeat constructor; discriminate).
  exists [sample_template], (after_query template_db).
  split; [exact Hlisting|]. split; [exact Hnone|].
  exact (unlisted_template_is_not_found (H := Small.runtime) String.ltb "t2" "u1" VUndef
           template_db _ _ eq_refl Hlisting Hnone).
Defined.

(** ** What the reading methods leave alone, and what evaluation looks at *)

Section Readers.
Context `{Runtime}.

Lemma select_rule_reads ruleId userId (x : db) :
  same_tables x (snd (select_rule ruleId userId x)).
Proof. apply same_tables_refl. Qed.

Lemma select_templates_reads text_before isPublic category_filter (x : db) :
  same_tables x (snd (select_templates text_before isPublic category_filter x)).
Proof.
  unfold select_templates.
  destruct (bind_param pg_boolean isPublic);
    [destruct (from_option (bind_param pg_text) (Some None) category_filter)|];
    apply same_tables_refl.
Qed.

Lemma select_audit_log_reads rule_filter user_filter limit (x : db) :
  same_tables x (snd (select_audit_log rule_filter user_filter limit x)).
Proof.
  unfold select_audit_log.
  destruct (from_option (bind_param pg_text) (Some None) rule_filter); [|apply same_tables_refl].
  destruct (from_option (bind_param pg_text) (Some None) user_filter); [|apply same_tables_refl].
  destruct (bind_param pg_integer limit) as [[n|]|]; try apply same_tables_refl.
  destruct (n <? 0)%Z; apply same_tables_refl.
Qed.

(** X16.  The reading methods only read: after [getRule],
    [getUserRules], [getRuleTemplates], [getAuditLog] or [evaluateRules],
    whatever their arguments are and whether they fail or not, the three
    tables hold what they held.  In particular an evaluation writes no audit
    entry. *)
Theorem readers_change_nothing
    (ruleId userId : string) (filters category isPublic auditRule auditUser limit message : value)
    (text_before : string -> string -> bool) (d : db) :
  same_tables d (snd (getRule ruleId userId d))
  /\ same_tables d (snd (getUserRules userId filters d))
  /\ same_tables d (snd (getRuleTemplates text_before category isPublic d))
  /\ same_tables d (snd (getAuditLog auditRule auditUser limit d))
  /\ same_tables d (snd (evaluateRules message userId d)).
Proof.
  split; [|split; [|split; [|split]]].
  - unfold getRule. rewrite stry_catch_rethrow. unfold sbind.
    pose proof (query_same_tables (select_rule ruleId userId) d
                  (select_rule_reads ruleId userId)) as Hq.
    destruct (query (select_rule ruleId userId) d) as [[[|row more]|e] x]; exact Hq.
  - apply getUserRules_reads.
  - unfold getRuleTemplates. rewrite stry_catch_rethrow.
    apply query_same_tables. intros x. apply select_templates_reads.
  - unfold getAuditLog. rewrite stry_catch_rethrow.
    apply query_same_tables. intros x. apply select_audit_log_reads.
  - unfold evaluateRules. rewrite stry_catch_rethrow. unfold sbind.
    pose proof (getUserRules_reads userId (obj [("is_active", VBool true)]) d) as Hq.
    destruct (getUserRules userId (obj [("is_active", VBool true)]) d) as [[rules|e] x];
      exact Hq.
Qed.

(** How [evaluateRules] runs: the listing fails, or the active rules of the
    user are evaluated in the order of the store. *)
Lemma evaluateRules_runs (message : value) (userId : string) (d : db) :
  fst (evaluateRules message userId d)
  = if hd false (faults d) then Throw StoreError
    else let results :=
           evaluate_loop message (order_by_priority (own_active userId d)) [] in
         Return {| final_action :=
                     if (0 <? length (List.filter blocks results))%nat
                     then "block" else "allow";
                   rule_evaluations := results;
                   blocking_rules := List.filter blocks results |}.
Proof.
  unfold evaluateRules. rewrite stry_catch_rethrow. unfold sbind.
  destruct (hd false (faults d)) eqn:Hhead.
  - unfold getUserRules. rewrite stry_catch_rethrow. unfold sbind, pure.
    change (get (default_to (obj []) (obj [("is_active", VBool true)])) "rule_type")
      with (Return VUndef).
    change (get (default_to (obj []) (obj [("is_active", VBool true)])) "is_active")
      with (Return (VBool true)).
    unfold query. destruct (faults d) as [|[|] rest]; try discriminate Hhead.
    reflexivity.
  - rewrite (getUserRules_active userId d Hhead). reflexivity.
Qed.

(** X17.  An evaluation looks at the active rules of the user and at
    nothing else in the store: two stores that have the same active rules of
    this user, in the same order, and agree on whether the next query fails
    give the same verdict (or the same failure), whatever rules of other
    users and whatever switched-off rules they hold. *)
Theorem evaluateRules_sees_own_active_rules
    (message : value) (userId : string) (d1 d2 : db) :
  own_active userId d1 = own_active userId d2 ->
  hd false (faults d1) = hd false (faults d2) ->
  fst (evaluateRules message userId d1) = fst (evaluateRules message userId d2).
Proof.
  intros Hrules Hfaults.
  rewrite (evaluateRules_runs message userId d1), (evaluateRules_runs message userId d2).
  rewrite Hrules, Hfaults. reflexivity.
Qed.

End Readers.

Lemma evaluateRules_sees_own_active_rules_witness :
  let message := obj [("text", VStr "this is spam")] in
  let d2 := with_rules
              [sample_rule "r1" "u1"
                 (obj [("keywords", VArr [VStr "spam"]); ("action", VStr "flag")]) 1 true;
               sample_rule "r3" "u1" (obj [("keywords", VArr [VStr "is"])]) 5 true]
              sample_db in
  own_active "u1" sample_db = own_active "u1" d2
  /\ hd false (faults sample_db) = hd false (faults d2)
  /\ fst (evaluateRules (H := Small.runtime) message "u1" sample_db)
     = fst (evaluateRules (H := Small.runtime) message "u1" d2).
Proof.
  intros message d2. split; [reflexivity|]. split; [reflexivity|].
  apply (evaluateRules_sees_own_active_rules (H := Small.runtime) message "u1"
           sample_db d2); reflexivity.
Defined.

(** * Further properties of the evaluator *)

(** ** Content filters *)

Section ContentFacts.
Context `{Runtime}.

Lemma js_gt_nats (a b : nat) :
  js_gt (VNum (num_of_nat a)) (VNum (num_of_nat b)) = Return (b <? a)%nat.
Proof.
  unfold js_gt, less_than, num_of_nat. simpl. unfold Qlt_bool, Qle_bool. simpl.
  f_equal. rewrite !Z.mul_1_r.
  destruct (Z.leb_spec (Z.of_nat a) (Z.of_nat b)) as [Hle|Hlt];
    destruct (Nat.ltb_spec b a) as [Hlt'|Hle']; try reflexivity; lia.
Qed.

Lemma filter_step_exceeded (action : string) (text : string) (f : content_filter) :
  well_formed f ->
  filter_step (VStr action) (VStr text) (content_filter_object f)
  = Return (match exceeded text f with
            | Some why => Some {| action := VStr action; reason := why; matched := true |}
            | None => None
            end).
Proof.
  destruct f as [name pattern|max_length|type]; intros Hwf; unfold filter_step.
  - destruct Hwf as [r Hr].
    change (get (content_filter_object (regex_filter name pattern)) "type")
      with (Return (VStr "regex")).
    change (get (content_filter_object (regex_filter name pattern)) "pattern")
      with (Return (VStr pattern)).
    change (get (content_filter_object (regex_filter name pattern)) "name")
      with (Return (VStr name)).
    cbn [bind is_string]. change (String.eqb "regex" "regex") with true. cbv iota.
    cbn [bind call_match]. unfold String_match_pattern, exceeded, pattern_matches.
    cbn [to_string bind]. rewrite Hr. cbn [bind].
    destruct (String_match text r); reflexivity.
  - change (get (content_filter_object (length_filter max_length)) "type")
      with (Return (VStr "length")).
    change (get (content_filter_object (length_filter max_length)) "max_length")
      with (Return (VNum (num_of_nat max_length))).
    cbn [bind is_string]. change (String.eqb "length" "regex") with false.
    change (String.eqb "length" "length") with true. cbv iota. cbn [bind get].
    change (String.eqb "length" "length") with true. cbv iota.
    rewrite js_gt_nats. cbn [bind]. unfold exceeded.
    destruct (max_length <? String.length text)%nat; reflexivity.
  - destruct Hwf as [Hregex Hlength].
    change (get (content_filter_object (other_filter type)) "type")
      with (Return (VStr type)).
    cbn [bind is_string].
    apply String.eqb_neq in Hregex, Hlength. rewrite Hregex, Hlength. reflexivity.
Qed.

Lemma content_loop_scan (action : string) (text : string) (l : list content_filter) :
  Forall well_formed l ->
  (decided <- first_return (filter_step (VStr action) (VStr text))
                (map content_filter_object l) ;;
   match decided with
   | Some result => Return result
   | None => Return (allow "No content filters matched")
   end)
  = Return (content_scan action text l).
Proof.
  induction 1 as [|f l Hf _ IH]; [reflexivity|].
  cbn [map first_return]. rewrite (filter_step_exceeded action text f Hf).
  cbn [bind content_scan]. destruct (exceeded text f); [reflexivity | exact IH].
Qed.

(** X18.  For a content filter with configuration [{filters, action
    (default 'block')}] whose regular expressions compile, and a message
    with text [text], the entries are tried in order and the first that
    matches decides, with the configured action: a regular-expression entry
    matches when its pattern is found in the text, a length entry when the
    text is longer than [max_length], an entry of any other type never.
    When none matches the result is [allow], not matched.  A text of exactly
    [max_length] characters is within the limit. *)
Theorem content_filter_first_match_wins :
  (forall (c : content_filter_config) (message : value) (text : string),
      message_text message = Return (VStr text) ->
      Forall well_formed (filters c) ->
      evaluateContentFilter (content_filter_config_object c) message
      = Return (content_scan (default "block" (content_action c)) text (filters c)))
  /\ (forall (message : value) (text : string) (limit : nat),
         message_text message = Return (VStr text) ->
         String.length text = limit ->
         evaluateContentFilter
           (content_filter_config_object
              {| filters := [length_filter limit]; content_action := None |}) message
         = Return {| action := VStr "allow"; reason := "No content filters matched";
                     matched := false |}).
Proof.
  assert (Hscan : forall (c : content_filter_config) (message : value) (text : string),
             message_text message = Return (VStr text) ->
             Forall well_formed (filters c) ->
             evaluateContentFilter (content_filter_config_object c) message
             = Return (content_scan (default "block" (content_action c)) text (filters c))).
  { intros c message text Htext Hwf. unfold evaluateContentFilter.
    assert (Hfilters : get (content_filter_config_object c) "filters"
                       = Return (VArr (map content_filter_object (filters c))))
      by (destruct c as [l [a|]]; reflexivity).
    assert (Haction : get (content_filter_config_object c) "action"
                      = Return (default VUndef (VStr <$> content_action c)))
      by (destruct c as [l [a|]]; reflexivity).
    rewrite Hfilters, Haction. cbn [bind]. rewrite Htext. cbn [bind iterate].
    assert (Hdefault : default_to (VStr "block") (default VUndef (VStr <$> content_action c))
                       = VStr (default "block" (content_action c)))
      by (destruct (content_action c); reflexivity).
    rewrite Hdefault. apply content_loop_scan. exact Hwf. }
  split; [exact Hscan|].
  intros message text limit Htext Hlength.
  rewrite (Hscan _ message text Htext) by (repeat constructor).
  cbn [filters content_action content_scan exceeded]. rewrite Hlength.
  rewrite Nat.ltb_irrefl. reflexivity.
Qed.

End ContentFacts.

(** X18 on the small runtime: the length entry comes first and is not
    exceeded, the entry of an unknown type is skipped, the expression
    decides. *)
Lemma content_filter_first_match_wins_witness :
  let c := {| filters := [length_filter 12; other_filter "words";
                          regex_filter "no spam" "spam"];
              content_action := Some "flag" |} in
  let message := obj [("content", VStr "this is spam")] in
  (message_text message = Return (VStr "this is spam")
   /\ Forall (well_formed (H := Small.runtime)) (filters c))
  /\ evaluateContentFilter (H := Small.runtime) (content_filter_config_object c) message
     = Return {| action := VStr "flag"; reason := "Content matched filter: no spam";
                 matched := true |}
  /\ evaluateContentFilter (H := Small.runtime)
       (content_filter_config_object
          {| filters := [length_filter 12]; content_action := None |}) message
     = Return {| action := VStr "allow"; reason := "No content filters matched";
                 matched := false |}.
Proof.
  intros c message.
  assert (Htext : message_text message = Return (VStr "this is spam")) by reflexivity.
  assert (Hwf : Forall (well_formed (H := Small.runtime)) (filters c)).
  { repeat constructor; try discriminate. vm_compute. eauto. }
  split; [split; assumption|]. split.
  - exact (proj1 (content_filter_first_match_wins (H := Small.runtime))
             c message "this is spam" Htext Hwf).
  - exact (proj2 (content_filter_first_match_wins (H := Small.runtime))
             message "this is spam" 12%nat Htext eq_refl).
Defined.

(** ** URL filters without patterns, keyword filters without a threshold *)

Section FilterEdges.
Context `{Runtime}.

Lemma configured_nothing (list : value) :
  truthy list = false \/ list = VArr [] -> configured list = Return false.
Proof.
  intros [Hfalsy| ->]; unfold configured.
  - rewrite Hfalsy. reflexivity.
  - cbn [truthy get length]. change (String.eqb "length" "length") with true. cbv iota.
    apply (js_gt_length 0).
Qed.

Lemma url_step_without_patterns (domains patterns action : value) (url : string) ev :
  truthy patterns = false \/ patterns = VArr [] ->
  url_step domains patterns action url = Return (Some ev) ->
  ev = allow ("Domain allowed: " +:+ extractDomain url).
Proof.
  intros Hnone. unfold url_step.
  destruct (configured domains) as [has_domains|e]; [|discriminate]. cbn [bind].
  destruct (if has_domains then some_domain domains (extractDomain url) else Return false)
    as [[|]|e]; cbn [bind]; try discriminate.
  - intros Hret. injection Hret as <-. reflexivity.
  - rewrite (configured_nothing patterns Hnone). cbn [bind]. discriminate.
Qed.

(** X19.  A URL filter without patterns never matches: when the
    [patterns] of the configuration are missing, null, or an empty list,
    every evaluation that returns gives [allow], not matched, whatever the
    domains, the action and the message are.  The domains of a URL filter
    only ever allow. *)
Theorem url_filter_without_patterns_never_matches
    (config message patterns : value) (ev : evaluation) :
  get config "patterns" = Return patterns ->
  truthy patterns = false \/ patterns = VArr [] ->
  evaluateUrlFilter config message = Return ev ->
  matched ev = false /\ action ev = VStr "allow".
Proof.
  intros Hget Hnone. unfold evaluateUrlFilter. rewrite Hget.
  destruct (get config "domains") as [domains|e]; [|discriminate]. cbn [bind].
  destruct (get config "action") as [act|e]; [|discriminate]. cbn [bind].
  destruct (message_text message) as [text|e]; [|discriminate]. cbn [bind].
  destruct (extractUrls text) as [urls|e]; [|discriminate]. cbn [bind].
  destruct urls as [|url rest]; [intros Hret; injection Hret as <-; split; reflexivity|].
  generalize (url :: rest). clear url rest. intros urls.
  assert (Hloop : forall decided,
            first_return (url_step domains patterns (default_to (VStr "block") act)) urls
            = Return (Some decided) ->
            matched decided = false /\ action decided = VStr "allow").
  2:{ destruct (first_return _ urls) as [[decided|]|e]; cbn [bind]; try discriminate.
      - intros Hret. injection Hret as <-. apply Hloop. reflexivity.
      - intros Hret. injection Hret as <-. split; reflexivity. }
  induction urls as [|url rest IH]; intros decided; cbn [first_return]; [discriminate|].
  destruct (url_step domains patterns (default_to (VStr "block") act) url)
    as [[result|]|e] eqn:Hstep; cbn [bind]; try discriminate.
  - intros Hret. injection Hret as <-.
    rewrite (url_step_without_patterns _ _ _ _ _ Hnone Hstep). split; reflexivity.
  - apply IH.
Qed.

(** X20.  A keyword filter whose [max_occurrences] is zero or negative
    matches every message: with keywords that compile and a message that
    has a text, the result is matched, with the configured action, also
    when the text contains none of the keywords and when there are no
    keywords at all. *)
Theorem keyword_filter_without_threshold_always_matches
    (c : keyword_filter_config) (message : value) (text : string) (threshold : Q) :
  message_text message = Return (VStr text) ->
  Forall (fun k => compiles "gi" (toLowerCase k)) (keywords c) ->
  max_occurrences c = Some threshold ->
  (threshold <= 0)%Q ->
  exists why,
    evaluateKeywordFilter (keyword_filter_object c) message
    = Return {| action := VStr (default "block" (keyword_action c));
                reason := why; matched := true |}.
Proof.
  intros Htext Hok Hmax Hlow.
  rewrite (keyword_filter_refines c message text Htext Hok).
  unfold keyword_filter_claim. cbv zeta. rewrite Hmax.
  change (default 1%Q (Some threshold)) with threshold.
  set (total := foldr Nat.add 0%nat (map (occurrences text) (keywords c))).
  assert (Hle : Qle_bool threshold (inject_Z (Z.of_nat total)) = true).
  { apply Qle_bool_iff. apply (Qle_trans _ 0); [exact Hlow|].
    unfold Qle. simpl. lia. }
  rewrite Hle. eexists. reflexivity.
Qed.

End FilterEdges.

Lemma url_filter_without_patterns_never_matches_witness :
  let config := obj [("domains", VArr [VStr "trusted.com"]); ("action", VStr "block")] in
  let message := obj [("text", VStr "see http://bitly/abc")] in
  exists ev,
    get config "patterns" = Return VUndef
    /\ (truthy VUndef = false \/ VUndef = VArr [])
    /\ evaluateUrlFilter (H := Small.runtime) config message = Return ev
    /\ matched ev = false /\ action ev = VStr "allow".
Proof.
  intros config message. eexists.
  split; [reflexivity|]. split; [left; reflexivity|].
  split; [vm_compute; reflexivity|].
  eapply (url_filter_without_patterns_never_matches (H := Small.runtime)
            config message VUndef);
    [reflexivity | left; reflexivity | vm_compute; reflexivity].
Defined.

Lemma keyword_filter_without_threshold_always_matches_witness :
  let c := {| keywords := ["spam"]; max_occurrences := Some 0%Q;
              keyword_action := None |} in
  let message := obj [("text", VStr "hello")] in
  (message_text message = Return (VStr "hello")
   /\ Forall (fun k => compiles (H := Small.runtime) "gi" (toLowerCase k)) (keywords c)
   /\ max_occurrences c = Some 0%Q /\ (0 <= 0)%Q)
  /\ exists why,
       evaluateKeywordFilter (H := Small.runtime) (keyword_filter_object c) message
       = Return {| action := VStr "block"; reason := why; matched := true |}.
Proof.
  intros c message.
  assert (Hok : Forall (fun k => compiles (H := Small.runtime) "gi" (toLowerCase k))
                  (keywords c))
    by (repeat constructor; vm_compute; eauto).
  assert (Hzero : (0 <= 0)%Q) by (unfold Qle; simpl; lia).
  split; [repeat split; assumption|].
  exact (keyword_filter_without_threshold_always_matches (H := Small.runtime)
           c message "hello" 0%Q eq_refl Hok eq_refl Hzero).
Defined.

(** ** The URLs of a text *)

Lemma non_space_run_prefix (s : string) : is_prefix (non_space_run s) s = true.
Proof.
  induction s as [|c s IH]; simpl; [reflexivity|].
  destruct (is_space c); simpl; [reflexivity|]. rewrite Ascii.eqb_refl. exact IH.
Qed.

Lemma non_space_run_no_space (s : string) : no_space (non_space_run s) = true.
Proof.
  induction s as [|c s IH]; simpl; [reflexivity|].
  destruct (is_space c) eqn:Hc; simpl; [reflexivity|]. rewrite Hc. exact IH.
Qed.

Lemma no_space_app (p q : string) : no_space (p +:+ q) = no_space p && no_space q.
Proof.
  induction p as [|a p IH]; [reflexivity|].
  rewrite append_cons. simpl. rewrite IH, andb_assoc. reflexivity.
Qed.

(** A match at the head of a text is a prefix of it, starts with the scheme,
    has something behind the scheme and no white space. *)
Lemma url_at_spec (s u : string) :
  url_at s = Some u ->
  is_prefix u s = true /\ has_scheme u = true /\ no_space u = true
  /\ scheme_and_more u.
Proof.
  unfold url_at, after_scheme.
  destruct (is_prefix "https://" s) eqn:Hs.
  - apply is_prefix_split in Hs. set (rest := String.substring _ _ s) in *.
    pose proof (non_space_run_prefix rest) as Hrun.
    pose proof (non_space_run_no_space rest) as Hclean.
    destruct (non_space_run rest) as [|c run]; [discriminate|].
    intros Hu. injection Hu as <-. rewrite Hs at 1.
    rewrite is_prefix_app, no_space_app, Hclean.
    repeat split; try reflexivity; try assumption.
    exists "https://", (String c run).
    split; [reflexivity|]. split; [right; reflexivity|discriminate].
  - destruct (is_prefix "http://" s) eqn:Hp; [|discriminate].
    apply is_prefix_split in Hp. set (rest := String.substring _ _ s) in *.
    pose proof (non_space_run_prefix rest) as Hrun.
    pose proof (non_space_run_no_space rest) as Hclean.
    destruct (non_space_run rest) as [|c run]; [discriminate|].
    intros Hu. injection Hu as <-. rewrite Hp at 1.
    rewrite is_prefix_app, no_space_app, Hclean.
    repeat split; try reflexivity; try assumption.
    exists "http://", (String c run).
    split; [reflexivity|]. split; [left; reflexivity|discriminate].
Qed.

Lemma match_all_urls_spec (s : string) (skip : nat) :
  Forall (fun u => has_scheme u = true /\ no_space u = true
                   /\ scheme_and_more u
                   /\ includes s u = true)
    (match_all_urls s skip).
Proof.
  assert (Hlater : forall c r l,
            Forall (fun u => has_scheme u = true /\ no_space u = true
                             /\ scheme_and_more u
                             /\ includes r u = true) l ->
            Forall (fun u => has_scheme u = true /\ no_space u = true
                             /\ scheme_and_more u
                             /\ includes (String c r) u = true) l).
  { intros c r l Hl. eapply Forall_impl; [exact Hl|].
    intros u (Hscheme & Hclean & Hlong & Hin).
    repeat split; try assumption. apply includes_later. exact Hin. }
  revert skip. induction s as [|c r IH]; intros skip; [constructor|].
  cbn [match_all_urls]. destruct skip as [|k]; [|apply Hlater, IH].
  destruct (url_at (String c r)) as [u|] eqn:Hu; [|apply Hlater, IH].
  apply url_at_spec in Hu as (Hprefix & Hscheme & Hclean & Hlong).
  constructor; [|apply Hlater, IH].
  repeat split; try assumption. apply includes_prefix. exact Hprefix.
Qed.

(** X21.  What [extractUrls] takes out of a text are URLs of that text:
    each of them is [http://] or [https://] followed by at least one
    character, contains no white space, and occurs in the text: the text is
    something, the URL, and something more. *)
Theorem extractUrls_gives_urls_of_the_text (text : string) :
  exists urls,
    extractUrls (VStr text) = Return urls
    /\ Forall (fun u => has_scheme u = true /\ no_space u = true
                        /\ (exists scheme rest,
                               u = scheme +:+ rest
                               /\ (scheme = "http://" \/ scheme = "https://")
                               /\ rest <> "")
                        /\ includes text u = true
                        /\ exists pre post, text = pre +:+ u +:+ post) urls.
Proof.
  exists (match_all_urls text 0). split; [reflexivity|].
  eapply Forall_impl; [apply match_all_urls_spec|].
  intros u (Hscheme & Hclean & Hmore & Hin).
  repeat split; try assumption. apply includes_occurs. exact Hin.
Qed.

(** ** What validation lets through, and what evaluation reads *)

Section ValidationGap.
Context `{Runtime}.

Lemma keyword_loop_stops text (keywords : list value) (bad : value) :
  bad ∈ keywords ->
  (forall s, bad <> VStr s) ->
  forall n acc, exists e, keyword_loop text keywords n acc = Throw e.
Proof.
  intros Hin Hbad.
  induction keywords as [|x rest IH]; intros n acc.
  - inversion Hin.
  - simpl. destruct (call_toLowerCase x) as [source|e] eqn:Hlow; simpl; [|eauto].
    unfold new_RegExp.
    destruct (RegExp_new source "gi") as [r|] eqn:Hr; simpl; [|eauto].
    destruct (match_regexp text r) as [matches|e]; simpl; [|eauto].
    assert (Hrest : bad ∈ rest).
    { apply elem_of_cons in Hin as [Hx|Hin]; [|assumption].
      subst x. destruct bad; try discriminate Hlow. destruct (Hbad s). reflexivity. }
    destruct matches; apply IH; assumption.
Qed.

(** X22.  Validation does not look inside the keywords: a keyword rule
    with a name and a [keywords] array passes [validateRule] also when one
    of the keywords is no text (a number, say), and such a rule is disabled:
    for every message, [evaluateRule] gives the error fallback [allow], not
    matched. *)
Theorem keyword_of_wrong_type_is_valid_and_disables_rule
    (name : string) (config : gmap string value) (keywords : list value) (bad : value) :
  name <> "" ->
  config !! "keywords" = Some (VArr keywords) ->
  bad ∈ keywords ->
  (forall s, bad <> VStr s) ->
  validateRule (obj [("rule_type", VStr "keyword_filter"); ("rule_name", VStr name);
                     ("rule_config", VObj config)])
  = Return {| isValid := true; errors := [] |}
  /\ forall (rule : rule_row) (message : value),
       rule_type rule = "keyword_filter" ->
       rule_config rule = VObj config ->
       evaluateRule rule message = Return evaluation_error.
Proof.
  intros Hname Hkeywords Hin Hbad. split.
  - unfold validateRule.
    set (candidate := obj [("rule_type", VStr "keyword_filter"); ("rule_name", VStr name);
                           ("rule_config", VObj config)]).
    assert (Htype : get candidate "rule_type" = Return (VStr "keyword_filter"))
      by reflexivity.
    assert (Hrule_name : get candidate "rule_name" = Return (VStr name)) by reflexivity.
    assert (Hconfig : get candidate "rule_config" = Return (VObj config)) by reflexivity.
    unfold validate_specific. rewrite Htype, Hrule_name, Hconfig.
    cbn [bind is_string truthy negb]. change (String.eqb "keyword_filter" "") with false.
    change (String.eqb "keyword_filter" "keyword_filter") with true.
    apply String.eqb_neq in Hname. rewrite Hname.
    cbn [negb push_if bind get]. rewrite Hkeywords. reflexivity.
  - intros rule message Htype Hconfig.
    rewrite (evaluateRule_keyword rule message Htype), Hconfig.
    assert (Hthrows : exists e, evaluateKeywordFilter (VObj config) message = Throw e).
    { unfold evaluateKeywordFilter. cbn [get]. rewrite Hkeywords. cbn [default bind].
      apply bind_throws; intros text.
      apply bind_throws; intros lowerText. cbn [iterate bind].
      destruct (keyword_loop_stops text keywords bad Hin Hbad 0%nat []) as [e He].
      unfold Datatypes.id. cbn [iterate bind]. rewrite He. simpl. eauto. }
    destruct Hthrows as [e ->]. reflexivity.
Qed.

(** X23.  The two parts of what [validateRule] returns agree: for every
    candidate, [isValid] is true exactly when the list of errors is empty;
    this holds for the generic error of the catch-all too. *)
Theorem validateRule_valid_iff_no_errors (candidate : value) :
  exists v, validateRule candidate = Return v /\ (isValid v = true <-> errors v = []).
Proof.
  unfold validateRule.
  assert (Hfail : forall e : error,
            exists v,
              try_catch (Throw e)
                (fun _ => Return {| isValid := false;
                                    errors := ["Validation error occurred"] |})
              = Return v /\ (isValid v = true <-> errors v = [])).
  { intros e. eexists. split; [reflexivity|]. simpl. split; discriminate. }
  destruct (get candidate "rule_type") as [rule_type|e]; [|apply Hfail]. cbn [bind].
  destruct (get candidate "rule_name") as [rule_name|e]; [|apply Hfail]. cbn [bind].
  destruct (get candidate "rule_config") as [rule_config|e]; [|apply Hfail]. cbn [bind].
  destruct (validate_specific candidate rule_type _) as [found|e]; [|apply Hfail].
  cbn [bind try_catch]. eexists. split; [reflexivity|]. cbn [isValid errors].
  destruct found; simpl; split; intros; try discriminate; reflexivity.
Qed.

(** X24.  An evaluation reads the text of the message and nothing else
    of it: two messages with the same text (the [text] property, or the
    [content] property when [text] is missing or empty, or the empty text)
    get the same evaluation from every rule.  The [content] of a message
    that has a [text] is never looked at. *)
Theorem evaluateRule_reads_the_text_only :
  (forall (rule : rule_row) (m1 m2 : value),
      message_text m1 = message_text m2 ->
      evaluateRule rule m1 = evaluateRule rule m2)
  /\ (forall (text : string) (content : value),
         text <> "" ->
         message_text (obj [("text", VStr text); ("content", content)])
         = Return (VStr text)).
Proof.
  split.
  - intros rule m1 m2 Htext.
    unfold evaluateRule, evaluateKeywordFilter, evaluateUrlFilter, evaluateContentFilter.
    rewrite Htext. reflexivity.
  - intros text content Htext. unfold message_text.
    change (get (obj [("text", VStr text); ("content", content)]) "text")
      with (Return (VStr text)).
    cbn [bind truthy]. apply String.eqb_neq in Htext. rewrite Htext. reflexivity.
Qed.

End ValidationGap.

Lemma keyword_of_wrong_type_is_valid_and_disables_rule_witness :
  let config : gmap string value := list_to_map [("keywords", VArr [VStr "spam"; VInt 5])] in
  let rule := sample_rule "r9" "u1" (VObj config) 1 true in
  let message := obj [("text", VStr "this is spam")] in
  ("no spam" <> "" /\ config !! "keywords" = Some (VArr [VStr "spam"; VInt 5])
   /\ VInt 5 ∈ [VStr "spam"; VInt 5] /\ (forall s, VInt 5 <> VStr s))
  /\ validateRule (obj [("rule_type", VStr "keyword_filter");
                        ("rule_name", VStr "no spam"); ("rule_config", VObj config)])
     = Return {| isValid := true; errors := [] |}
  /\ evaluateRule (H := Small.runtime) rule message = Return evaluation_error.
Proof.
  intros config rule message.
  assert (Hname : "no spam" <> "") by discriminate.
  assert (Hkeywords : config !! "keywords" = Some (VArr [VStr "spam"; VInt 5]))
    by reflexivity.
  assert (Hin : VInt 5 ∈ [VStr "spam"; VInt 5])
    by (apply list_elem_of_further, list_elem_of_here).
  assert (Hbad : forall s, VInt 5 <> VStr s) by discriminate.
  destruct (keyword_of_wrong_type_is_valid_and_disables_rule (H := Small.runtime)
              "no spam" config _ _ Hname Hkeywords Hin Hbad) as [Hvalid Hdisabled].
  split; [repeat split; assumption|]. split; [exact Hvalid|].
  apply Hdisabled; reflexivity.
Defined.

Lemma evaluateRule_reads_the_text_only_witness :
  let rule := sample_rule "r1" "u1" (obj [("keywords", VArr [VStr "spam"])]) 1 true in
  let m1 := obj [("text", VStr "spam"); ("content", VStr "ham")] in
  let m2 := obj [("content", VStr "spam")] in
  message_text m1 = message_text m2
  /\ evaluateRule (H := Small.runtime) rule m1 = evaluateRule (H := Small.runtime) rule m2
  /\ "spam" <> ""
  /\ message_text m1 = Return (VStr "spam").
Proof.
  intros rule m1 m2.
  assert (Hsame : message_text m1 = message_text m2) by reflexivity.
  assert (Htext : "spam" <> "") by discriminate.
  split; [exact Hsame|]. split; [|split; [exact Htext|]].
  - exact (proj1 (evaluateRule_reads_the_text_only (H := Small.runtime))
             rule m1 m2 Hsame).
  - exact (proj2 (evaluateRule_reads_the_text_only (H := Small.runtime))
             "spam" (VStr "ham") Htext).
Defined.

(** ** What a deletion removes, and what other users see *)

Lemma filter_sublist {A} (keep : A -> bool) (l : list A) :
  List.filter keep l `sublist_of` l.
Proof.
  induction l as [|x l IH]; simpl; [constructor|].
  destruct (keep x); [apply sublist_skip | apply sublist_cons]; exact IH.
Qed.

Lemma filter_filter_implied {A} (f g : A -> bool) (l : list A) :
  (forall x, f x = true -> g x = true) ->
  List.filter f (List.filter g l) = List.filter f l.
Proof.
  intros Himp. induction l as [|x l IH]; simpl; [reflexivity|].
  destruct (g x) eqn:Hg; simpl.
  - rewrite IH. reflexivity.
  - destruct (f x) eqn:Hf; [|exact IH]. rewrite (Himp x Hf) in Hg. discriminate.
Qed.

(** The rules of another user are among the rows a mutation spares. *)
Lemma rows_of_other (userId other : string) (d : db) :
  other <> userId ->
  rows_of other d
  = List.filter (fun row => String.eqb (user_id row) other) (rows_of_others userId d).
Proof.
  intros Hother. unfold rows_of, rows_of_others. symmetry.
  apply filter_filter_implied. intros row Hrow.
  apply String.eqb_eq in Hrow. apply negb_true_iff, String.eqb_neq. congruence.
Qed.

Section Isolation.
Context `{Runtime}.

(** X25.  A deletion removes the rule asked for and nothing else: the
    row returned has the id asked for and belonged to the caller; the table
    afterwards is the table before without the caller's rows of that id,
    the other rows in the order they were. *)
Theorem deleteRule_removes_that_rule_only
    (ruleId userId : string) ip ua (d d' : db) (row : rule_row) :
  deleteRule ruleId userId ip ua d = (Return row, d') ->
  id row = ruleId /\ user_id row = userId /\ row ∈ privacy_rules d
  /\ privacy_rules d' `sublist_of` privacy_rules d
  /\ forall r, r ∈ privacy_rules d'
               <-> r ∈ privacy_rules d /\ ~ (id r = ruleId /\ user_id r = userId).
Proof.
  intros Hrun.
  destruct (deleteRule_effect ruleId userId ip ua d)
    as [(e & x & Hx & _)|(row' & x & more & Hx & Hhit & Hr & _)];
    rewrite Hx in Hrun; [discriminate|].
  injection Hrun as <- <-.
  apply filter_head in Hhit as [Hown Hin]. apply owned_by_spec in Hown as [Hid Huser].
  split; [exact Hid|]. split; [exact Huser|].
  split; [apply list_elem_of_In; exact Hin|].
  rewrite Hr. split; [apply filter_sublist|].
  intros r. rewrite !list_elem_of_In, List.filter_In, negb_true_iff.
  rewrite <- owned_by_spec. destruct (owned_by ruleId userId r); split; intros [Hr' Hno];
    split; try assumption; try discriminate; try reflexivity.
  destruct Hno. reflexivity.
Qed.

Lemma select_user_rules_of_user userId type_filter active_filter (x1 x2 : db) :
  rows_of userId x1 = rows_of userId x2 ->
  fst (select_user_rules userId type_filter active_filter x1)
  = fst (select_user_rules userId type_filter active_filter x2).
Proof.
  intros Hrows. unfold select_user_rules.
  destruct (from_option (bind_param pg_text) (Some None) type_filter) as [type|];
    [|reflexivity].
  destruct (from_option (bind_param pg_boolean) (Some None) active_filter) as [active|];
    [|reflexivity].
  cbn [fst]. f_equal. f_equal.
  match goal with
  | |- List.filter ?keep _ = _ =>
      rewrite <- (filter_filter_implied keep
                    (fun row => String.eqb (user_id row) userId) (privacy_rules x1)),
              <- (filter_filter_implied keep
                    (fun row => String.eqb (user_id row) userId) (privacy_rules x2))
  end.
  - unfold rows_of in Hrows. rewrite Hrows. reflexivity.
  - intros row Hkeep. apply andb_true_iff in Hkeep as [Hkeep _].
    apply andb_true_iff in Hkeep as [Hkeep _]. exact Hkeep.
  - intros row Hkeep. apply andb_true_iff in Hkeep as [Hkeep _].
    apply andb_true_iff in Hkeep as [Hkeep _]. exact Hkeep.
Qed.

Lemma getUserRules_of_user userId filters (s : list bool) (d1 d2 : db) :
  rows_of userId d1 = rows_of userId d2 ->
  fst (getUserRules userId filters (with_faults s d1))
  = fst (getUserRules userId filters (with_faults s d2)).
Proof.
  intros Hrows. unfold getUserRules. rewrite !stry_catch_rethrow. unfold sbind, pure.
  destruct (get (default_to (obj []) filters) "rule_type") as [by_type|e]; [|reflexivity].
  destruct (get (default_to (obj []) filters) "is_active") as [by_active|e]; [|reflexivity].
  unfold query. cbn [faults with_faults].
  destruct s as [|[|] rest]; [|reflexivity|]; apply select_user_rules_of_user; exact Hrows.
Qed.

(** X26.  What a user lists and what a user's messages are judged by
    does not depend on what others do: under the same fault schedule, the
    listing [getUserRules] gives a user, with any filters, and the verdict
    [evaluateRules] gives for their messages are the same before and after
    any mutation made by another user. *)
Theorem mutation_is_invisible_to_others
    (m : mutation) (userId other : string) (filters message : value)
    (s : list bool) (d : db) :
  other <> userId ->
  fst (getUserRules other filters (with_faults s (snd (perform m userId d))))
  = fst (getUserRules other filters (with_faults s d))
  /\ fst (evaluateRules message other (with_faults s (snd (perform m userId d))))
     = fst (evaluateRules message other (with_faults s d)).
Proof.
  intros Hother.
  assert (Hrows : rows_of other (snd (perform m userId d)) = rows_of other d).
  { rewrite !(rows_of_other userId other) by exact Hother.
    rewrite perform_spares_others. reflexivity. }
  split; [apply getUserRules_of_user; exact Hrows|].
  rewrite !evaluateRules_runs. cbn [faults with_faults].
  assert (Hactive : forall x, own_active other (with_faults s x)
                              = List.filter is_active (rows_of other x)).
  { intros x. unfold own_active, rows_of. cbn [privacy_rules with_faults].
    induction (privacy_rules x) as [|r l IH]; simpl; [reflexivity|].
    destruct (String.eqb (user_id r) other); simpl; [|exact IH].
    destruct (is_active r); rewrite IH; reflexivity. }
  rewrite !Hactive, Hrows. reflexivity.
Qed.

End Isolation.

Lemma deleteRule_removes_that_rule_only_witness :
  exists row d',
    deleteRule "r3" "u1" None None sample_db = (Return row, d')
    /\ id row = "r3" /\ user_id row = "u1" /\ row ∈ privacy_rules sample_db
    /\ privacy_rules d' `sublist_of` privacy_rules sample_db
    /\ forall r, r ∈ privacy_rules d'
                 <-> r ∈ privacy_rules sample_db /\ ~ (id r = "r3" /\ user_id r = "u1").
Proof.
  eexists _, _. split; [vm_compute; reflexivity|].
  eapply (deleteRule_removes_that_rule_only "r3" "u1" None None sample_db).
  vm_compute. reflexivity.
Defined.

Lemma mutation_is_invisible_to_others_witness :
  let m := Delete "r3" None None in
  let message := obj [("text", VStr "this is spam")] in
  "u2" <> "u1"
  /\ fst (getUserRules (H := Small.runtime) "u2" VUndef
            (with_faults [] (snd (perform (H := Small.runtime) m "u1" sample_db))))
     = fst (getUserRules (H := Small.runtime) "u2" VUndef (with_faults [] sample_db))
  /\ fst (evaluateRules (H := Small.runtime) message "u2"
            (with_faults [] (snd (perform (H := Small.runtime) m "u1" sample_db))))
     = fst (evaluateRules (H := Small.runtime) message "u2" (with_faults [] sample_db)).
Proof.
  intros m message.
  assert (Hother : "u2" <> "u1") by discriminate.
  split; [exact Hother|].
  exact (mutation_is_invisible_to_others (H := Small.runtime) m "u1" "u2" VUndef message
           [] sample_db Hother).
Defined.

(** * The transaction helper *)

Lemma client_query_events (text : string) (s : session) :
  events (snd (client_query text s)) = events s ++ [Queried text].
Proof. unfold client_query. destruct (fst (next_answer s)); reflexivity. Qed.

(** X27.  A transaction that got a client gives it back, once and last,
    on every path, after [COMMIT] when the callback and the commit went
    through and after [ROLLBACK] in every other case: for a callback that
    only sends queries, the events of a run are the connection, [BEGIN], the
    queries sent, then [COMMIT] or [ROLLBACK], then the release, and the run
    returns exactly when it ends with [COMMIT].  When the rollback fails too,
    the error thrown is the one of the rollback and the first error is
    lost. *)
Theorem transaction_commits_or_rolls_back {A} (callback : session_code A) :
  (only_queries callback ->
   forall s,
     (exists e, fst (transaction callback s) = Throw e
                /\ events (snd (transaction callback s)) = events s)
     \/ exists sent,
          events (snd (transaction callback s))
          = events s ++ [Connected; Queried "BEGIN"] ++ map Queried sent
            ++ [Queried (match fst (transaction callback s) with
                         | Return _ => "COMMIT"
                         | Throw _ => "ROLLBACK"
                         end);
                Released])
  /\ (forall s (first second : error) rest,
         answers s = None :: Some first :: Some second :: rest ->
         fst (transaction callback s) = Throw second).
Proof.
  split.
  - intros Honly s. unfold transaction.
    destruct (pool_connect s) as [[[]|e] s1] eqn:Hconnect.
    2:{ left. exists e. split; [reflexivity|].
        unfold pool_connect in Hconnect.
        destruct (next_answer s) as [[e'|] rest]; [|discriminate].
        injection Hconnect as _ <-. reflexivity. }
    right.
    assert (Hs1 : events s1 = events s ++ [Connected]).
    { unfold pool_connect in Hconnect.
      destruct (next_answer s) as [[e'|] rest]; [discriminate|].
      injection Hconnect as <-. reflexivity. }
    pose proof (client_query_events "BEGIN" s1) as Hbegin.
    destruct (client_query "BEGIN" s1) as [[[]|e] s2]; cbn [snd] in Hbegin.
    2:{ pose proof (client_query_events "ROLLBACK" s2) as Hback.
        exists []. destruct (client_query "ROLLBACK" s2) as [[[]|e'] s3];
          cbn [snd fst client_release events] in *;
          rewrite Hback, Hbegin, Hs1, <- !app_assoc; reflexivity. }
    destruct (Honly s2) as [sent Hsent].
    destruct (callback s2) as [[result|e] s3]; cbn [snd] in Hsent.
    2:{ pose proof (client_query_events "ROLLBACK" s3) as Hback.
        exists sent. destruct (client_query "ROLLBACK" s3) as [[[]|e'] s4];
          cbn [snd fst client_release events] in *;
          rewrite Hback, Hsent, Hbegin, Hs1, <- !app_assoc; reflexivity. }
    pose proof (client_query_events "COMMIT" s3) as Hcommit.
    destruct (client_query "COMMIT" s3) as [[[]|e] s4]; cbn [snd] in Hcommit.
    + exists sent. cbn [snd fst client_release events].
      rewrite Hcommit, Hsent, Hbegin, Hs1, <- !app_assoc. reflexivity.
    + pose proof (client_query_events "ROLLBACK" s4) as Hback.
      exists (sent ++ ["COMMIT"]). destruct (client_query "ROLLBACK" s4) as [[[]|e'] s5];
        cbn [snd fst client_release events] in *;
        rewrite Hback, Hcommit, Hsent, Hbegin, Hs1, map_app, <- !app_assoc; reflexivity.
  - intros s first second rest Hanswers.
    unfold transaction, pool_connect, client_query, next_answer.
    rewrite Hanswers. reflexivity.
Qed.

Lemma transaction_commits_or_rolls_back_witness :
  let callback := client_query "SELECT 1" in
  let quiet := {| events := []; answers := [] |} in
  let failing := {| events := [];
                    answers := [None; Some StoreError; Some (Error "no rollback")] |} in
  only_queries callback
  /\ ((exists e, fst (transaction callback quiet) = Throw e
                 /\ events (snd (transaction callback quiet)) = events quiet)
      \/ exists sent,
           events (snd (transaction callback quiet))
           = events quiet ++ [Connected; Queried "BEGIN"] ++ map Queried sent
             ++ [Queried (match fst (transaction callback quiet) with
                          | Return _ => "COMMIT"
                          | Throw _ => "ROLLBACK"
                          end);
                 Released])
  /\ answers failing = [None; Some StoreError; Some (Error "no rollback")]
  /\ fst (transaction callback failing) = Throw (Error "no rollback").
Proof.
  intros callback quiet failing.
  assert (Honly : only_queries callback).
  { intros s. exists ["SELECT 1"]. apply client_query_events. }
  split; [exact Honly|]. split; [|split; [reflexivity|]].
  - exact (proj1 (transaction_commits_or_rolls_back callback) Honly quiet).
  - exact (proj2 (transaction_commits_or_rolls_back callback) failing
             StoreError (Error "no rollback") [] eq_refl).
Defined.

(** * The route that creates a rule *)

Section RouteFacts.
Context `{Runtime}.

Lemma validateRule_valid_no_errors (candidate : value) (v : validation) :
  validateRule candidate = Return v -> isValid v = true -> errors v = [].
Proof.
  unfold validateRule.
  destruct (get candidate "rule_type") as [rule_type|e]; cbn [bind try_catch];
    [|intros Hv; injection Hv as <-; discriminate].
  destruct (get candidate "rule_name") as [rule_name|e]; cbn [bind try_catch];
    [|intros Hv; injection Hv as <-; discriminate].
  destruct (get candidate "rule_config") as [rule_config|e]; cbn [bind try_catch];
    [|intros Hv; injection Hv as <-; discriminate].
  destruct (validate_specific candidate rule_type _) as [found|e]; cbn [bind try_catch];
    [|intros Hv; injection Hv as <-; discriminate].
  intros Hv. injection Hv as <-. cbn [isValid errors].
  destruct found; [reflexivity | discriminate].
Qed.

(** X28.  The route that creates a rule stores valid rules only: when
    it answers with a rule, the body of the request has passed
    [validateRule] without an error, the rule is the row added to the table,
    and its owner is the [user_id] of the body when the body has one and the
    [x-user-id] header otherwise; with every other answer (no user id, a
    failed validation, an error) the rules and the audit log are what they
    were. *)
Theorem create_route_stores_valid_rules_only
    (body : value) (header_user ip ua : option string) (d d' : db) (answer : response) :
  post_rule body header_user ip ua d = Some (answer, d') ->
  match answer with
  | rule_created rule =>
      validateRule body = Return {| isValid := true; errors := [] |}
      /\ privacy_rules d' = privacy_rules d ++ [rule]
      /\ exists given,
           get body "user_id" = Return given
           /\ VStr (user_id rule)
              = (if truthy given then given else default VUndef (VStr <$> header_user))
  | _ => privacy_rules d' = privacy_rules d /\ rule_audit_log d' = rule_audit_log d
  end.
Proof.
  unfold post_rule.
  destruct (get body "user_id") as [given|e];
    [|intros Hpost; injection Hpost as <- <-; split; reflexivity].
  destruct (truthy (js_or given (default VUndef (VStr <$> header_user)))) eqn:Huser;
    cbn [negb]; [|intros Hpost; injection Hpost as <- <-; split; reflexivity].
  destruct (validateRule body) as [v|e] eqn:Hvalidation;
    [|intros Hpost; injection Hpost as <- <-; split; reflexivity].
  destruct (isValid v) eqn:Hvalid; cbn [negb];
    [|intros Hpost; injection Hpost as <- <-; split; reflexivity].
  destruct (js_or given (default VUndef (VStr <$> header_user)))
    as [| |b|n|userId|l|m] eqn:Hid; try discriminate.
  destruct (createRule_effect body userId ip ua d)
    as [(e & x & Hrun & Hr & _ & Hl)
       |(row & x & type & name & description & config & prio & Hrun & Hr & _ & _ & _
         & _ & _ & _ & Hown & _)]; rewrite Hrun;
    intros Hpost; injection Hpost as <- <-.
  - split; assumption.
  - pose proof (validateRule_valid_no_errors body v Hvalidation Hvalid) as Herrors.
    destruct v as [valid found]. cbn [isValid errors] in *. subst valid found.
    split; [reflexivity|]. split; [exact Hr|].
    exists given. split; [reflexivity|]. rewrite Hown. exact (eq_sym Hid).
Qed.

End RouteFacts.

Lemma create_route_stores_valid_rules_only_witness :
  exists rule d',
    post_rule (H := Small.runtime) sample_rule_data (Some "u1") None None sample_db
    = Some (rule_created rule, d')
    /\ validateRule sample_rule_data = Return {| isValid := true; errors := [] |}
    /\ privacy_rules d' = privacy_rules sample_db ++ [rule]
    /\ exists given,
         get sample_rule_data "user_id" = Return given
         /\ VStr (user_id rule)
            = (if truthy given then given else default VUndef (VStr <$> Some "u1")).
Proof.
  eexists _, _. split; [vm_compute; reflexivity|].
  apply (create_route_stores_valid_rules_only (H := Small.runtime) sample_rule_data
           (Some "u1") None None sample_db _ (rule_created _)).
  vm_compute. reflexivity.
Defined.

(** * The bulk routes *)

Section BulkFacts.
Context `{Runtime}.

(** The loop accounts for every item and stays within the rules of the
    caller, when each step does. *)
Lemma bulk_loop_accounts {K} (key : K -> string) (run : K -> store rule_row)
    (userId : string) :
  (forall item d row d', run item d = (Return row, d') ->
     id row = key item /\ user_id row = userId) ->
  (forall item d, rows_of_others userId (snd (run item d)) = rows_of_others userId d) ->
  forall items results errors d,
    exists done failed,
      fst (bulk_loop key run items results errors d) = (results ++ done, errors ++ failed)
      /\ map key items ≡ₚ map id done ++ map fst failed
      /\ Forall (fun row => user_id row = userId) done
      /\ rows_of_others userId (snd (bulk_loop key run items results errors d))
         = rows_of_others userId d.
Proof.
  intros Hrow Hothers items.
  induction items as [|item rest IH]; intros results errors d; cbn [bulk_loop].
  - exists [], []. rewrite !app_nil_r. repeat split; constructor.
  - pose proof (Hothers item d) as Hstep.
    destruct (run item d) as [[row|e] d'] eqn:Hrun; cbn [snd] in Hstep.
    + destruct (Hrow item d row d' Hrun) as [Hid Huser].
      destruct (IH (results ++ [row]) errors d') as (done & failed & Hout & Hperm & Hown & Hrest).
      exists (row :: done), failed. rewrite Hout, <- app_assoc.
      split; [reflexivity|]. cbn [map app]. rewrite Hid, Hperm.
      split; [reflexivity|]. split; [constructor; assumption|]. congruence.
    + destruct (IH results (errors ++ [(key item, e)]) d')
        as (done & failed & Hout & Hperm & Hown & Hrest).
      exists done, ((key item, e) :: failed). rewrite Hout, <- app_assoc.
      split; [reflexivity|]. cbn [map fst]. rewrite Hperm.
      split; [apply Permutation_middle|]. split; [exact Hown|]. congruence.
Qed.

Lemma get_twice (item : value) (k k' : string) (v : value) :
  get item k = Return v -> exists v', get item k' = Return v'.
Proof. destruct item; simpl; intros; try discriminate; eauto. Qed.

Lemma updateRule_row ruleId updates userId ip ua (d d' : db) (row : rule_row) :
  updateRule ruleId updates userId ip ua d = (Return row, d') ->
  id row = ruleId /\ user_id row = userId.
Proof.
  intros Hrun.
  destruct (updateRule_effect ruleId updates userId ip ua d)
    as [(e & y & Hy & _)|(row' & y & set & old & more & Hy & Hhit & -> & _ & Hset & _)];
    rewrite Hy in Hrun; [discriminate|].
  injection Hrun as <- <-.
  apply filter_head in Hhit as [Hown _]. apply owned_by_spec in Hown as [Hid Huser].
  destruct (Hset old) as ((Hid' & Huser' & _) & _). split; congruence.
Qed.

Lemma updateRule_spares_others ruleId updates userId ip ua (d : db) :
  rows_of_others userId (snd (updateRule ruleId updates userId ip ua d))
  = rows_of_others userId d.
Proof. apply (perform_spares_others (Update ruleId updates ip ua) userId d). Qed.

(** Items whose [rule_id] is a text are all accounted for. *)
Lemma bulk_update_loop_accounts (userId : string) (ip ua : option string)
    (rules : list value) (ids : list string) :
  Forall2 (fun item ruleId => get item "rule_id" = Return (VStr ruleId)) rules ids ->
  forall results errors d,
    exists done failed d',
      bulk_update_loop rules userId ip ua results errors d
      = Some (Return (results ++ done, errors ++ failed), d')
      /\ map VStr ids ≡ₚ map (fun row => VStr (id row)) done ++ map fst failed
      /\ Forall (fun row => user_id row = userId) done
      /\ rows_of_others userId d' = rows_of_others userId d.
Proof.
  induction 1 as [|item ruleId rules ids Hid _ IH]; intros results errors d.
  - exists [], [], d. rewrite !app_nil_r. repeat split; constructor.
  - cbn [bulk_update_loop]. rewrite Hid.
    destruct (get_twice item "rule_id" "updates" _ Hid) as [updates Hupdates].
    rewrite Hupdates. cbn [bind].
    pose proof (updateRule_spares_others ruleId updates userId ip ua d) as Hstep.
    destruct (updateRule ruleId updates userId ip ua d) as [[row|e] x] eqn:Hrun;
      cbn [snd] in Hstep.
    + destruct (updateRule_row _ _ _ _ _ _ _ _ Hrun) as [Hrow Huser].
      destruct (IH (results ++ [row]) errors x)
        as (done & failed & d' & Hout & Hperm & Hown & Hrest).
      exists (row :: done), failed, d'. rewrite Hout, <- app_assoc.
      split; [reflexivity|]. cbn [map app]. rewrite Hrow, Hperm.
      split; [reflexivity|]. split; [constructor; assumption|]. congruence.
    + destruct (IH results (errors ++ [(VStr ruleId, e)]) x)
        as (done & failed & d' & Hout & Hperm & Hown & Hrest).
      exists done, ((VStr ruleId, e) :: failed), d'. rewrite Hout, <- app_assoc.
      split; [reflexivity|]. cbn [map fst]. rewrite Hperm.
      split; [apply Permutation_middle|]. split; [exact Hown|]. congruence.
Qed.

(** The loop over a list in two parts is the loop over the second part
    after the loop over the first, when that one came to its end. *)
Lemma bulk_update_loop_app (userId : string) (ip ua : option string)
    (before after : list value) :
  forall results errors d done failed d',
    bulk_update_loop before userId ip ua results errors d
    = Some (Return (done, failed), d') ->
    bulk_update_loop (before ++ after) userId ip ua results errors d
    = bulk_update_loop after userId ip ua done failed d'.
Proof.
  induction before as [|item before IH]; intros results errors d done failed d' Hrun.
  - cbn in Hrun. injection Hrun as <- <- <-. reflexivity.
  - cbn [app bulk_update_loop] in Hrun |- *.
    destruct (rule_id <- get item "rule_id" ;;
              updates <- get item "updates" ;; Return (rule_id, updates))
      as [[rule_id updates]|e]; [destruct rule_id; try discriminate Hrun|].
    + destruct (updateRule _ updates userId ip ua d) as [[row|e] x].
      * eapply IH. exact Hrun.
      * destruct (get item "rule_id"); [|discriminate Hrun]. eapply IH. exact Hrun.
    + destruct (get item "rule_id"); [|discriminate Hrun]. eapply IH. exact Hrun.
Qed.

(** However the loop ends, the rules of the other users are what they
    were. *)
Lemma bulk_update_loop_spares_others (userId : string) (ip ua : option string)
    (rules : list value) :
  forall results errors d result d',
    bulk_update_loop rules userId ip ua results errors d = Some (result, d') ->
    rows_of_others userId d' = rows_of_others userId d.
Proof.
  induction rules as [|item rules IH]; intros results errors d result d' Hrun.
  - cbn in Hrun. injection Hrun as _ <-. reflexivity.
  - cbn [bulk_update_loop] in Hrun.
    destruct (rule_id <- get item "rule_id" ;;
              updates <- get item "updates" ;; Return (rule_id, updates))
      as [[rule_id updates]|e]; [destruct rule_id; try discriminate Hrun|].
    + pose proof (updateRule_spares_others s updates userId ip ua d) as Hstep.
      destruct (updateRule s updates userId ip ua d) as [[row|e] x];
        cbn [snd] in Hstep.
      * rewrite (IH _ _ _ _ _ Hrun). exact Hstep.
      * destruct (get item "rule_id").
        -- rewrite (IH _ _ _ _ _ Hrun). exact Hstep.
        -- injection Hrun as _ <-. exact Hstep.
    + destruct (get item "rule_id").
      * exact (IH _ _ _ _ _ Hrun).
      * injection Hrun as _ <-. reflexivity.
Qed.

(** X29.  The bulk routes stay within the rules of the caller, and account
    for every item but for one case.  After the loop of a bulk update over
    items whose [rule_id] is a text, and after the loop of a bulk delete,
    the ids of the rows reported as done together with the ids reported as
    failed are the ids asked for, each as often as it was asked for, so
    that an item that fails does not keep the items after it from being
    reported; the rows done are rows of the caller.  An item of a bulk
    update that is [null] or [undefined] ends the loop with a TypeError:
    what was done for the items before it stays done, nothing is reported
    and the items after it are not looked at.  However the loops end, the
    rules of every other user are what they were. *)
Theorem bulk_routes_account_for_every_item
    (userId : string) (ip ua : option string) (d : db) :
  (forall (rules : list value) (ids : list string),
      Forall2 (fun item ruleId => get item "rule_id" = Return (VStr ruleId)) rules ids ->
      exists done failed d',
        bulk_update rules userId ip ua d = Some (Return (done, failed), d')
        /\ map VStr ids ≡ₚ map (fun row => VStr (id row)) done ++ map fst failed
        /\ Forall (fun row => user_id row = userId) done
        /\ rows_of_others userId d' = rows_of_others userId d)
  /\ (forall (before after : list value) (item : value) done failed d',
         item = VNull \/ item = VUndef ->
         bulk_update before userId ip ua d = Some (Return (done, failed), d') ->
         bulk_update (before ++ item :: after) userId ip ua d
         = Some (Throw TypeError, d'))
  /\ (forall (rules : list value) result d',
         bulk_update rules userId ip ua d = Some (result, d') ->
         rows_of_others userId d' = rows_of_others userId d)
  /\ (forall rule_ids : list string,
         exists done failed,
           fst (bulk_delete rule_ids userId ip ua d) = (done, failed)
           /\ rule_ids ≡ₚ map id done ++ map fst failed
           /\ Forall (fun row => user_id row = userId) done
           /\ rows_of_others userId (snd (bulk_delete rule_ids userId ip ua d))
              = rows_of_others userId d).
Proof.
  split; [|split; [|split]].
  - intros rules ids Hids. unfold bulk_update.
    destruct (bulk_update_loop_accounts userId ip ua rules ids Hids [] [] d)
      as (done & failed & d' & Hout & Hrest).
    exists done, failed, d'. split; [exact Hout|exact Hrest].
  - intros before after item done failed d' Hitem Hrun. unfold bulk_update in *.
    rewrite (bulk_update_loop_app userId ip ua before (item :: after) _ _ _ _ _ _ Hrun).
    destruct Hitem as [-> | ->]; reflexivity.
  - intros rules result d' Hrun.
    exact (bulk_update_loop_spares_others userId ip ua rules _ _ _ _ _ Hrun).
  - intros rule_ids. unfold bulk_delete.
    destruct (bulk_loop_accounts (fun ruleId : string => ruleId)
                (fun ruleId => deleteRule ruleId userId ip ua) userId) with
      (items := rule_ids) (results := @nil rule_row) (errors := @nil (string * error))
      (d := d) as (done & failed & Hout & Hperm & Hown & Hothers).
    + intros ruleId x row x' Hrun.
      destruct (deleteRule_effect ruleId userId ip ua x)
        as [(e & y & Hy & _)|(row' & y & more & Hy & Hhit & _)];
        rewrite Hy in Hrun; [discriminate|].
      injection Hrun as <- <-.
      apply filter_head in Hhit as [Hown _]. apply owned_by_spec in Hown. exact Hown.
    + intros ruleId x. apply (perform_spares_others (Delete ruleId ip ua) userId x).
    + exists done, failed. rewrite map_id in Hperm. repeat split; assumption.
Qed.

End BulkFacts.

(** X29 on the small runtime: of three items the second names no rule of
    the caller, and all three are reported; with a [null] item behind them
    the loop ends with the TypeError and reports nothing, in the state the
    three items left. *)
Lemma bulk_routes_account_for_every_item_witness :
  let item (ruleId : string) :=
    obj [("rule_id", VStr ruleId); ("updates", obj [("priority", VInt 5)])] in
  let rules := [item "r1"; item "nope"; item "r3"] in
  let ids := ["r1"; "nope"; "r3"] in
  Forall2 (fun item ruleId => get item "rule_id" = Return (VStr ruleId)) rules ids
  /\ exists done failed d',
       bulk_update (H := Small.runtime) rules "u1" None None sample_db
       = Some (Return (done, failed), d')
       /\ map VStr ids ≡ₚ map (fun row => VStr (id row)) done ++ map fst failed
       /\ Forall (fun row => user_id row = "u1") done
       /\ rows_of_others "u1" d' = rows_of_others "u1" sample_db
       /\ bulk_update (H := Small.runtime) (rules ++ VNull :: [item "r4"])
            "u1" None None sample_db
          = Some (Throw TypeError, d').
Proof.
  intros item rules ids.
  assert (Hids : Forall2 (fun item ruleId => get item "rule_id" = Return (VStr ruleId))
                   rules ids) by (repeat constructor).
  split; [exact Hids|].
  destruct (bulk_routes_account_for_every_item (H := Small.runtime)
              "u1" None None sample_db) as (Hall & Hnull & Hothers & _).
  destruct (Hall rules ids Hids) as (done & failed & d' & Hrun & Hperm & Hown & _).
  exists done, failed, d'.
  split; [exact Hrun|]. split; [exact Hperm|]. split; [exact Hown|].
  split; [exact (Hothers rules _ d' Hrun)|].
  exact (Hnull rules [item "r4"] VNull done failed d' (or_introl eq_refl) Hrun).
Defined.
